(** * WSL2 Mkbitmap/Potrace GUI: the preview and pipeline logic of
    [wsl2_svg_gui_v3_clean.py], embedded and verified.

    The development follows the Python source of [WSL2MkbitmapPotraceGUI]:
    - Python numbers are the language's own: unbounded [int] as [Z], [float]
      as IEEE 754 binary64 with round-to-nearest-even, through the
      specification of [SpecFloat] ([prec = 53], [emax = 1024]);
    - exceptions are an error monad ([outcome]);
    - the file system, the Tk timer queue and the widget variables are explicit
      state; the external programs (mkbitmap, potrace, rsvg-convert) and the
      XML parser are inputs of the functions that call them. *)

From Stdlib Require Import ZArith Lia Bool List String Ascii.
From Stdlib Require Import Floats.SpecFloat.
From stdpp Require Import base option list strings gmap pretty.

Local Open Scope Z_scope.

(** ** Python exceptions *)

Inductive exn : Type :=
  | ZeroDivisionError
  | OverflowError
  | ValueError
  | FileNotFoundError
  | TimeoutExpired
  | RuntimeError
  | PyException (msg : string).

Inductive outcome (A : Type) : Type :=
  | Ret (a : A)
  | Raise (e : exn).
Arguments Ret {A} a.
Arguments Raise {A} e.

#[global] Instance outcome_ret : MRet outcome := fun A a => Ret a.
#[global] Instance outcome_bind : MBind outcome := fun A B k c =>
  match c with
  | Ret a => k a
  | Raise e => Raise e
  end.

(** [try: c  except Exception: h] *)
Definition try_except {A} (c : outcome A) (h : exn -> outcome A) : outcome A :=
  match c with
  | Ret a => Ret a
  | Raise e => h e
  end.

(** ** Python floats: IEEE 754 binary64 *)

Module Py.

Definition prec : Z := 53.
Definition emax : Z := 1024.

Abbreviation float := spec_float.

Definition fmul : float -> float -> float := SFmul prec emax.
Definition fdiv : float -> float -> float := SFdiv prec emax.
Definition flt : float -> float -> bool := SFltb.
Definition fle : float -> float -> bool := SFleb.

Definition is_zero (x : float) : bool :=
  match x with S754_zero _ => true | _ => false end.

Definition is_inf (x : float) : bool :=
  match x with S754_infinity _ => true | _ => false end.

(** The literal [1.0]. *)
Definition one : float := S754_finite false 4503599627370496 (-52).

(** A Python number, as the arithmetic below meets them: [100] and [400] are
    ints, the parsed SVG sizes are floats. *)
Inductive num : Type :=
  | PyInt (z : Z)
  | PyFloat (f : float).

(** [float(n)] for an int: the nearest binary64 (exact below [2^53]);
    [OverflowError] when the int is beyond the largest float. *)
Definition float_of_int (z : Z) : outcome float :=
  let f := binary_normalize prec emax z 0 false in
  if is_inf f then Raise OverflowError else Ret f.

Definition to_float (x : num) : outcome float :=
  match x with
  | PyInt z => float_of_int z
  | PyFloat f => Ret f
  end.

(** [a / b] (true division) with a float result: a zero divisor raises, every
    other case is the IEEE quotient. For two ints CPython rounds the exact
    quotient once; converting the operands first gives the same float whenever
    both are below [2^53] in magnitude. *)
Definition truediv (a b : num) : outcome float :=
  fa ← to_float a;
  fb ← to_float b;
  if is_zero fb then Raise ZeroDivisionError else Ret (fdiv fa fb).

(** [a * b] where at least one operand is a float. *)
Definition mul (a b : num) : outcome float :=
  fa ← to_float a;
  fb ← to_float b;
  Ret (fmul fa fb).

(** The built-in [min(a, b)]: the first argument unless the second is
    strictly smaller. *)
Definition min2 (a b : float) : float := if flt b a then b else a.

(** [min(a, b, c)]: a left-to-right scan keeping the first minimum. *)
Definition min3 (a b c : float) : float := min2 (min2 a b) c.

(** The built-in [max(a, b)] on ints. *)
Definition max2 (a b : Z) : Z := if a <? b then b else a.

(** [int(x)] for a float: truncation towards zero; [ValueError] on NaN,
    [OverflowError] on an infinity. *)
Definition int_of_float (x : float) : outcome Z :=
  match x with
  | S754_zero _ => Ret 0
  | S754_nan => Raise ValueError
  | S754_infinity _ => Raise OverflowError
  | S754_finite s m e =>
      let n := if 0 <=? e then Z.pos m * 2 ^ e else Z.pos m / 2 ^ (- e) in
      Ret (if s then - n else n)
  end.

(** A float is positive: [x > 0]. *)
Definition positive (x : float) : bool := flt (S754_zero false) x.

End Py.

(** ** Python strings: the pieces the size extraction uses *)

Module Str.

Definition is_digit (c : ascii) : bool :=
  let n := Z.of_nat (nat_of_ascii c) in (48 <=? n) && (n <=? 57).

Definition digit_val (c : ascii) : Z := Z.of_nat (nat_of_ascii c) - 48.

(** The character class [[\d.]] (ASCII digits; the model's strings are byte
    strings). *)
Definition in_number_class (c : ascii) : bool :=
  is_digit c || Ascii.eqb c "."%char.

(** Whitespace as [str.split()] and [str.strip()] see it, within ASCII. *)
Definition is_space (c : ascii) : bool :=
  let n := Z.of_nat (nat_of_ascii c) in
  ((9 <=? n) && (n <=? 13)) || ((28 <=? n) && (n <=? 32)).

Fixpoint take_while (p : ascii -> bool) (s : string) : string :=
  match s with
  | EmptyString => EmptyString
  | String c s' => if p c then String c (take_while p s') else EmptyString
  end.

Fixpoint drop_while (p : ascii -> bool) (s : string) : string :=
  match s with
  | EmptyString => EmptyString
  | String c s' => if p c then drop_while p s' else s
  end.

(** [re.search(r'[\d.]+', s)]: the leftmost, longest run of digits and dots;
    [None] when [s] has none. The result is [match.group()]. *)
Fixpoint re_search_number (s : string) : option string :=
  match s with
  | EmptyString => None
  | String c s' =>
      if in_number_class c then Some (take_while in_number_class s)
      else re_search_number s'
  end.

(** [s.split()]: the maximal runs of non-whitespace characters. [cur] is the
    word being read, reversed. *)
Fixpoint split_go (cur : list ascii) (s : string) : list string :=
  let flush := match cur with
               | [] => []
               | _ => [string_of_list_ascii (rev cur)]
               end in
  match s with
  | EmptyString => flush
  | String c s' =>
      if is_space c then flush ++ split_go [] s' else split_go (c :: cur) s'
  end.

Definition split (s : string) : list string := split_go [] s.

(** [needle in s] *)
Fixpoint prefix_of (p s : string) : bool :=
  match p, s with
  | EmptyString, _ => true
  | String a p', String b s' => Ascii.eqb a b && prefix_of p' s'
  | String _ _, EmptyString => false
  end.

Fixpoint contains (needle s : string) : bool :=
  prefix_of needle s ||
  match s with
  | EmptyString => false
  | String _ s' => contains needle s'
  end.

Fixpoint drop (n : nat) (s : string) : string :=
  match n, s with
  | O, _ => s
  | S n', String _ s' => drop n' s'
  | S _, EmptyString => EmptyString
  end.

(** [s.replace(old, new)] for a non-empty [old]: every non-overlapping
    occurrence, scanning from the left. [skip] counts the characters of an
    occurrence just replaced that are still to be passed over. *)
Fixpoint replace_go (old new : string) (skip : nat) (s : string) : string :=
  match s with
  | EmptyString => EmptyString
  | String c s' =>
      match skip with
      | S k => replace_go old new k s'
      | O =>
          if prefix_of old s
          then (new ++ replace_go old new (Nat.pred (String.length old)) s')%string
          else String c (replace_go old new O s')
      end
  end.

Definition replace (old new s : string) : string := replace_go old new O s.

Definition reverse (s : string) : string :=
  string_of_list_ascii (List.rev (list_ascii_of_string s)).

(** [s.endswith(suffix)] *)
Definition ends_with (suffix s : string) : bool :=
  prefix_of (reverse suffix) (reverse s).

End Str.

(** ** [float(s)]: decimal text to binary64 *)

Module PyFloat.

Import Str.
Definition lower (c : ascii) : ascii :=
  let n := nat_of_ascii c in
  if ((65 <=? n) && (n <=? 90))%nat then ascii_of_nat (n + 32) else c.

(** A [digitpart]: digits, with single underscores allowed between two
    digits. Returns the value read so far, the number of digits read and the
    unread rest. *)
Fixpoint digitpart (acc : Z) (n : Z) (l : list ascii) : Z * Z * list ascii :=
  match l with
  | [] => (acc, n, l)
  | c :: l' =>
      if is_digit c then digitpart (10 * acc + digit_val c) (n + 1) l'
      else if Ascii.eqb c "_"%char && (0 <? n) then
        match l' with
        | d :: _ => if is_digit d then digitpart acc n l' else (acc, n, l)
        | [] => (acc, n, l)
        end
      else (acc, n, l)
  end.

Definition sign_of (l : list ascii) : bool * list ascii :=
  match l with
  | c :: l' =>
      if Ascii.eqb c "-"%char then (true, l')
      else if Ascii.eqb c "+"%char then (false, l')
      else (false, l)
  | [] => (false, l)
  end.

(** The optional exponent [e[+-]digits]; the text is malformed when an [e] is
    not followed by digits. *)
Definition exponent (l : list ascii) : option (Z * list ascii) :=
  match l with
  | c :: l' =>
      if Ascii.eqb (lower c) "e"%char then
        let '(neg, l1) := sign_of l' in
        let '(v, n, l2) := digitpart 0 0 l1 in
        if 0 <? n then Some (if neg then - v else v, l2) else None
      else Some (0, l)
  | [] => Some (0, l)
  end.

(** The nearest binary64 to [(-1)^neg * m * 10^x], ties to even. *)
Definition of_decimal (neg : bool) (m : Z) (x : Z) : Py.float :=
  match m with
  | Z.pos p =>
      if 0 <=? x
      then binary_normalize Py.prec Py.emax
             (if neg then - (m * 10 ^ x) else m * 10 ^ x) 0 false
      else SFdiv Py.prec Py.emax (S754_finite neg p 0)
             (S754_finite false (Z.to_pos (10 ^ (- x))) 0)
  | _ => S754_zero neg
  end.

Definition lower_string (l : list ascii) : string :=
  string_of_list_ascii (map lower l).

(** The text after the sign. *)
Definition unsigned (neg : bool) (l : list ascii) : outcome Py.float :=
  let w := lower_string l in
  if String.eqb w "inf" || String.eqb w "infinity" then Ret (S754_infinity neg)
  else if String.eqb w "nan" then Ret S754_nan
  else
    let '(ip, ni, l1) := digitpart 0 0 l in
    let '(fp, nf, l2) :=
      match l1 with
      | c :: l1' => if Ascii.eqb c "."%char then digitpart 0 0 l1' else (0, 0, l1)
      | [] => (0, 0, l1)
      end in
    if (ni + nf =? 0) then Raise ValueError
    else
      match exponent l2 with
      | Some (ex, []) => Ret (of_decimal neg (ip * 10 ^ nf + fp) (ex - nf))
      | _ => Raise ValueError
      end.

Definition strip (s : string) : list ascii :=
  rev (list_ascii_of_string
         (drop_while is_space
            (string_of_list_ascii
               (rev (list_ascii_of_string (drop_while is_space s)))))).

(** [float(s)] on a string. *)
Definition float (s : string) : outcome Py.float :=
  let '(neg, l) := sign_of (strip s) in
  unsigned neg l.

(** A float literal of the source. *)
Definition lit (s : string) : Py.float :=
  match float s with
  | Ret f => f
  | Raise _ => S754_nan
  end.

End PyFloat.

Arguments PyFloat.lit : simpl never.

(** ** The intrinsic size of an SVG document *)

(** The root element as [xml.etree.ElementTree] hands it over: its attribute
    dictionary. The parser itself is outside the program; a document that
    cannot be read or parsed is a raised exception. *)
Abbreviation Element := (gmap string string).

(** [root.get(key, default)] *)
Definition attr_get (root : Element) (key dflt : string) : string :=
  default dflt (root !! key).

(** Lines 339-359, inside the inner [try]. *)
Definition extract_dimensions (root : Element) : outcome (Py.num * Py.num) :=
  let width_str := attr_get root "width" "100" in
  let height_str := attr_get root "height" "100" in
  match Str.re_search_number width_str, Str.re_search_number height_str with
  | Some w, Some h =>
      svg_width ← PyFloat.float w;
      svg_height ← PyFloat.float h;
      Ret (Py.PyFloat svg_width, Py.PyFloat svg_height)
  | _, _ =>
      let viewbox := attr_get root "viewBox" "0 0 100 100" in
      match Str.split viewbox with
      | _ :: _ :: p2 :: p3 :: _ =>
          svg_width ← PyFloat.float p2;
          svg_height ← PyFloat.float p3;
          Ret (Py.PyFloat svg_width, Py.PyFloat svg_height)
      | _ => Ret (Py.PyInt 100, Py.PyInt 100)
      end
  end.

(** Lines 334-363: the inner [try] with its [except Exception], which turns
    every failure (unreadable file, malformed XML, a token [float] rejects)
    into the default 100 x 100. *)
Definition svg_intrinsic_size (parsed : outcome Element) : Py.num * Py.num :=
  match parsed ≫= extract_dimensions with
  | Ret d => d
  | Raise _ => (Py.PyInt 100, Py.PyInt 100)
  end.

(** ** The preview size computation of [convert_svg_to_png_wsl2] *)

Definition target_canvas_size : Z * Z := (400, 300).

(** Lines 366-371: the scale that fits the canvas. *)
Definition scale_factor_of (svg_width svg_height : Py.num)
    (target : Z * Z) : outcome Py.float :=
  let '(canvas_width, canvas_height) := target in
  scale_x ← Py.truediv (Py.PyInt canvas_width) svg_width;
  scale_y ← Py.truediv (Py.PyInt canvas_height) svg_height;
  Ret (Py.min2 scale_x scale_y).

(** Lines 365-375: the final pixel size [(final_width, final_height)]. *)
Definition preview_dimensions (svg_width svg_height : Py.num)
    (target : Z * Z) : outcome (Z * Z) :=
  scale_factor ← scale_factor_of svg_width svg_height target;
  wf ← Py.mul svg_width (Py.PyFloat scale_factor);
  final_width ← Py.int_of_float wf;
  hf ← Py.mul svg_height (Py.PyFloat scale_factor);
  final_height ← Py.int_of_float hf;
  Ret (final_width, final_height).

(** ** [display_image_consistent]: the size an image is shown at *)

Record Image : Type := {
  width : Z;
  height : Z;
  mode : string;
  pixels : list Z
}.

(** Lines 447-469: the geometry handed to [image.resize] and
    [canvas.create_image], from the canvas size Tk reports and the image. The
    result is [(new_width, new_height, x, y)]. *)
Definition display_geometry (winfo_width winfo_height : Z) (image : Image)
    : outcome (Z * Z * Z * Z) :=
  let canvas_width := Py.max2 winfo_width 390 in
  let canvas_height := Py.max2 winfo_height 290 in
  let padding := 10 in
  let available_width := canvas_width - 2 * padding in
  let available_height := canvas_height - 2 * padding in
  width_ratio ← Py.truediv (Py.PyInt available_width) (Py.PyInt (width image));
  height_ratio ← Py.truediv (Py.PyInt available_height) (Py.PyInt (height image));
  let scale_factor := Py.min3 width_ratio height_ratio Py.one in
  wf ← Py.mul (Py.PyInt (width image)) (Py.PyFloat scale_factor);
  new_width ← Py.int_of_float wf;
  hf ← Py.mul (Py.PyInt (height image)) (Py.PyFloat scale_factor);
  new_height ← Py.int_of_float hf;
  let x := (canvas_width - new_width) / 2 in
  let y := (canvas_height - new_height) / 2 in
  Ret (new_width, new_height, x, y).

(** ** Windows paths *)

Module WinPath.

Definition sep : ascii := "\"%char.
Definition altsep : ascii := "/"%char.

Definition is_sep (c : ascii) : bool := Ascii.eqb c sep || Ascii.eqb c altsep.

(** The index of the first separator of [s] at or after [i]. *)
Fixpoint find_sep (i : nat) (s : string) : option nat :=
  match s with
  | EmptyString => None
  | String c s' =>
      match i with
      | S k => S <$> find_sep k s'
      | O => if is_sep c then Some O else S <$> find_sep O s'
      end
  end.

(** [ntpath.splitdrive], returning the part after the drive: a drive letter
    with its colon, or a UNC share [\\host\share], comes off. *)
Definition after_drive (p : string) : string :=
  match p with
  | String c0 (String c1 rest) =>
      let third_is_sep :=
        match rest with String c2 _ => is_sep c2 | EmptyString => false end in
      if is_sep c0 && is_sep c1 && negb third_is_sep then
        match find_sep 2 p with
        | None => p
        | Some index =>
            match find_sep (S index) p with
            | None => EmptyString
            | Some index2 =>
                if Nat.eqb index2 (S index) then p else Str.drop index2 p
            end
        end
      else if Ascii.eqb c1 ":"%char then rest
      else p
  | _ => p
  end.

(** What follows the last separator of [s] ([s] itself when it has none). *)
Fixpoint last_component (s : string) : string :=
  match s with
  | EmptyString => EmptyString
  | String c s' =>
      if Str.contains (String sep EmptyString) s'
         || Str.contains (String altsep EmptyString) s'
      then last_component s'
      else if is_sep c then s' else s
  end.

(** [os.path.basename] on Windows. *)
Definition basename (p : string) : string := last_component (after_drive p).

(** [str(base / name)] for a [name] that is a single relative component. *)
Definition join (base name : string) : string :=
  (base ++ String sep name)%string.

End WinPath.

(** ** The application state *)

(** The value a Tk variable holds. *)
Inductive value : Type :=
  | VInt (z : Z)
  | VFloat (f : Py.float)
  | VStr (s : string).

(** What [root.after] can be asked to run. *)
Inductive callback : Type :=
  | StartProcessing
  | UpdatePipelineStatus (msg : string)
  | SetStatus (msg : string)
  | DisplayImageConsistent (image : Image) (canvas label : string)
  | DisplaySvgResults (svg_content : string)
  | DisplayFinalIconPreview.

Record Timer : Type := {
  timer_id : nat;
  due : Z;
  action : callback
}.

(** The attributes of the [WSL2MkbitmapPotraceGUI] object. The parameter
    variables [blur_var], [threshold_var], ... are kept in one map under the
    parameter's name; [parameter_change_job] is [None] until the attribute
    [_parameter_change_job] is first assigned. *)
Record Self : Type := {
  vars : gmap string value;
  live_preview : bool;
  current_image : option Image;
  processing : bool;
  mkbitmap_result : option Image;
  potrace_svg_path : option string;
  potrace_svg_content : option string;
  final_icon_preview : option Image;
  wsl_available : bool;
  parameter_change_job : option nat
}.

(** Tk: the timer queue of [root.after], the clock in milliseconds, and the
    two status texts. [mainloop] tells whether the main loop is running, which
    is what [root.after] called from a worker thread needs. *)
Record Tk : Type := {
  mainloop : bool;
  clock : Z;
  after_queue : list Timer;
  next_after_id : nat;
  status_var : string;
  pipeline_status : string
}.

(** The file system: regular files with their content, and directories. *)
Record Os : Type := {
  files : gmap string string;
  dirs : gset string
}.

(** History kept for the proofs: the stage functions entered and the command
    lines executed (oldest first), the worker threads running, the number of
    pipeline runs started, and the timers whose callbacks have run. *)
Inductive call : Type :=
  | CallRunMkbitmap
  | CallRunPotrace
  | CallExec (cmd : list string).

Record Ghost : Type := {
  calls : list call;
  workers : nat;
  runs : nat;
  fired : list nat
}.

Record St : Type := {
  self : Self;
  tk : Tk;
  os : Os;
  ghost : Ghost
}.

Definition with_self (f : Self -> Self) (s : St) : St :=
  {| self := f (self s); tk := tk s; os := os s; ghost := ghost s |}.
Definition with_tk (f : Tk -> Tk) (s : St) : St :=
  {| self := self s; tk := f (tk s); os := os s; ghost := ghost s |}.
Definition with_os (f : Os -> Os) (s : St) : St :=
  {| self := self s; tk := tk s; os := f (os s); ghost := ghost s |}.
Definition with_ghost (f : Ghost -> Ghost) (s : St) : St :=
  {| self := self s; tk := tk s; os := os s; ghost := f (ghost s) |}.

Definition set_vars (v : gmap string value) (x : Self) : Self :=
  {| vars := v; live_preview := live_preview x;
     current_image := current_image x; processing := processing x;
     mkbitmap_result := mkbitmap_result x;
     potrace_svg_path := potrace_svg_path x;
     potrace_svg_content := potrace_svg_content x;
     final_icon_preview := final_icon_preview x;
     wsl_available := wsl_available x;
     parameter_change_job := parameter_change_job x |}.

Definition set_processing (b : bool) (x : Self) : Self :=
  {| vars := vars x; live_preview := live_preview x;
     current_image := current_image x; processing := b;
     mkbitmap_result := mkbitmap_result x;
     potrace_svg_path := potrace_svg_path x;
     potrace_svg_content := potrace_svg_content x;
     final_icon_preview := final_icon_preview x;
     wsl_available := wsl_available x;
     parameter_change_job := parameter_change_job x |}.

Definition set_mkbitmap_result (r : option Image) (x : Self) : Self :=
  {| vars := vars x; live_preview := live_preview x;
     current_image := current_image x; processing := processing x;
     mkbitmap_result := r;
     potrace_svg_path := potrace_svg_path x;
     potrace_svg_content := potrace_svg_content x;
     final_icon_preview := final_icon_preview x;
     wsl_available := wsl_available x;
     parameter_change_job := parameter_change_job x |}.

Definition set_potrace_svg (path content : option string) (x : Self) : Self :=
  {| vars := vars x; live_preview := live_preview x;
     current_image := current_image x; processing := processing x;
     mkbitmap_result := mkbitmap_result x;
     potrace_svg_path := path;
     potrace_svg_content := content;
     final_icon_preview := final_icon_preview x;
     wsl_available := wsl_available x;
     parameter_change_job := parameter_change_job x |}.

Definition set_final_icon_preview (r : option Image) (x : Self) : Self :=
  {| vars := vars x; live_preview := live_preview x;
     current_image := current_image x; processing := processing x;
     mkbitmap_result := mkbitmap_result x;
     potrace_svg_path := potrace_svg_path x;
     potrace_svg_content := potrace_svg_content x;
     final_icon_preview := r;
     wsl_available := wsl_available x;
     parameter_change_job := parameter_change_job x |}.

Definition set_live_preview (b : bool) (x : Self) : Self :=
  {| vars := vars x; live_preview := b;
     current_image := current_image x; processing := processing x;
     mkbitmap_result := mkbitmap_result x;
     potrace_svg_path := potrace_svg_path x;
     potrace_svg_content := potrace_svg_content x;
     final_icon_preview := final_icon_preview x;
     wsl_available := wsl_available x;
     parameter_change_job := parameter_change_job x |}.

Definition set_current_image (r : option Image) (x : Self) : Self :=
  {| vars := vars x; live_preview := live_preview x;
     current_image := r; processing := processing x;
     mkbitmap_result := mkbitmap_result x;
     potrace_svg_path := potrace_svg_path x;
     potrace_svg_content := potrace_svg_content x;
     final_icon_preview := final_icon_preview x;
     wsl_available := wsl_available x;
     parameter_change_job := parameter_change_job x |}.

Definition set_parameter_change_job (j : option nat) (x : Self) : Self :=
  {| vars := vars x; live_preview := live_preview x;
     current_image := current_image x; processing := processing x;
     mkbitmap_result := mkbitmap_result x;
     potrace_svg_path := potrace_svg_path x;
     potrace_svg_content := potrace_svg_content x;
     final_icon_preview := final_icon_preview x;
     wsl_available := wsl_available x;
     parameter_change_job := j |}.

Definition set_clock (t : Z) (x : Tk) : Tk :=
  {| mainloop := mainloop x; clock := t; after_queue := after_queue x;
     next_after_id := next_after_id x; status_var := status_var x;
     pipeline_status := pipeline_status x |}.

Definition set_after_queue (q : list Timer) (x : Tk) : Tk :=
  {| mainloop := mainloop x; clock := clock x; after_queue := q;
     next_after_id := next_after_id x; status_var := status_var x;
     pipeline_status := pipeline_status x |}.

Definition set_next_after_id (n : nat) (x : Tk) : Tk :=
  {| mainloop := mainloop x; clock := clock x; after_queue := after_queue x;
     next_after_id := n; status_var := status_var x;
     pipeline_status := pipeline_status x |}.

Definition set_status_var (m : string) (x : Tk) : Tk :=
  {| mainloop := mainloop x; clock := clock x; after_queue := after_queue x;
     next_after_id := next_after_id x; status_var := m;
     pipeline_status := pipeline_status x |}.

Definition set_pipeline_status (m : string) (x : Tk) : Tk :=
  {| mainloop := mainloop x; clock := clock x; after_queue := after_queue x;
     next_after_id := next_after_id x; status_var := status_var x;
     pipeline_status := m |}.

Definition set_files (f : gmap string string) (x : Os) : Os :=
  {| files := f; dirs := dirs x |}.
Definition set_dirs (d : gset string) (x : Os) : Os :=
  {| files := files x; dirs := d |}.

Definition log_call (c : call) (x : Ghost) : Ghost :=
  {| calls := calls x ++ [c]; workers := workers x; runs := runs x;
     fired := fired x |}.
Definition thread_started (x : Ghost) : Ghost :=
  {| calls := calls x; workers := S (workers x); runs := S (runs x);
     fired := fired x |}.
Definition thread_finished (x : Ghost) : Ghost :=
  {| calls := calls x; workers := Nat.pred (workers x); runs := runs x;
     fired := fired x |}.
Definition log_fired (i : nat) (x : Ghost) : Ghost :=
  {| calls := calls x; workers := workers x; runs := runs x;
     fired := fired x ++ [i] |}.

(** ** Statements: state and exceptions *)

Definition io (A : Type) : Type := St -> outcome A * St.

Definition io_ret {A} (a : A) : io A := fun s => (Ret a, s).
Definition io_bind {A B} (c : io A) (k : A -> io B) : io B := fun s =>
  match c s with
  | (Ret a, s') => k a s'
  | (Raise e, s') => (Raise e, s')
  end.
Definition raise {A} (e : exn) : io A := fun s => (Raise e, s).
Definition lift {A} (c : outcome A) : io A := fun s => (c, s).
Definition get : io St := fun s => (Ret s, s).
Definition modify (f : St -> St) : io unit := fun s => (Ret tt, f s).

(** [try: c  except Exception as e: h e] *)
Definition try_catch {A} (c : io A) (h : exn -> io A) : io A := fun s =>
  match c s with
  | (Ret a, s') => (Ret a, s')
  | (Raise e, s') => h e s'
  end.

(** [try: c  finally: f]: [f] runs on every way out of [c], and an exception
    of [f] replaces the result. *)
Definition try_finally {A} (c : io A) (f : io unit) : io A := fun s =>
  let '(r, s1) := c s in
  match f s1 with
  | (Ret _, s2) => (r, s2)
  | (Raise e, s2) => (Raise e, s2)
  end.

#[global] Instance io_mret : MRet io := @io_ret.
#[global] Instance io_mbind : MBind io := fun A B k c => io_bind c k.

Definition exec {A} (c : io A) (s : St) : St := snd (c s).
Definition result {A} (c : io A) (s : St) : outcome A := fst (c s).

(** ** The operating system, as the program uses it *)

Definition project_root : string :=
  "G:\Claude Wargame Icon Generator\WWII Silhouette Icon System".

(** [os.path.exists]: a file or a directory. *)
Definition path_exists (o : Os) (path : string) : bool :=
  bool_decide (is_Some (files o !! path)) || bool_decide (path ∈ dirs o).

Definition exists_ (path : string) : io bool :=
  s ← get; mret (path_exists (os s) path).

Definition write_file (path content : string) : io unit :=
  modify (with_os (fun o => set_files (<[path := content]> (files o)) o)).

Definition read_file (path : string) : io string :=
  s ← get;
  match files (os s) !! path with
  | Some content => mret content
  | None => raise FileNotFoundError
  end.

(** [os.unlink]: removes a regular file, raises on anything else. *)
Definition unlink (path : string) : io unit :=
  s ← get;
  match files (os s) !! path with
  | Some _ => modify (with_os (fun o => set_files (delete path (files o)) o))
  | None => raise FileNotFoundError
  end.

(** [Path(base / name).mkdir(exist_ok=True)]: nothing to do when the directory
    is there; otherwise the parent must be, and no file may have the name. *)
Definition mkdir_exist_ok (base name : string) : io unit :=
  s ← get;
  let d := WinPath.join base name in
  if bool_decide (d ∈ dirs (os s)) then mret tt
  else if bool_decide (is_Some (files (os s) !! d))
       then raise (PyException "FileExistsError")
  else if bool_decide (base ∈ dirs (os s))
       then modify (with_os (fun o => set_dirs ({[ d ]} ∪ dirs o) o))
  else raise FileNotFoundError.

(** [shutil.copy2(src, dst)]: the content of [src] lands at [dst], or inside
    [dst] under the name of [src] when [dst] is a directory. *)
Definition copy2 (src dst : string) : io unit :=
  content ← read_file src;
  s ← get;
  if bool_decide (dst ∈ dirs (os s))
  then write_file (WinPath.join dst (WinPath.basename src)) content
  else write_file dst content.

(** The cleanup loop of the [finally] blocks:
    [for path in paths: try: if exists(path): unlink(path)  except: pass]. *)
Fixpoint cleanup (paths : list string) : io unit :=
  match paths with
  | [] => mret tt
  | path :: rest =>
      _ ← try_catch
            (there ← exists_ path;
             if there : bool then unlink path else mret tt)
            (fun _ => mret tt);
      cleanup rest
  end.

(** The truth value of an optional string: [None] and [''] are false. *)
Definition truthy (x : option string) : bool :=
  match x with
  | Some (String _ _) => true
  | _ => false
  end.

Definition exn_message (e : exn) : string :=
  match e with
  | ZeroDivisionError => "float division by zero"
  | OverflowError => "cannot convert float infinity to integer"
  | ValueError => "could not convert string to float"
  | FileNotFoundError => "No such file or directory"
  | TimeoutExpired => "Command timed out after 30 seconds"
  | RuntimeError => "main thread is not in main loop"
  | PyException msg => msg
  end.

(** ** Concrete surroundings

    Simple stand-ins for what lies outside the program, to run the model on:
    an imaging library that only tracks the mode, a tool that exits with a
    given code, one that writes a given text to its output, one that times
    out, and a temporary-name scheme. *)

Module Demo.

Definition pil_convert (m : string) (i : Image) : Image :=
  {| width := width i; height := height i; mode := m; pixels := pixels i |}.

Definition pil_save (fmt : string) (i : Image) : string :=
  (fmt ++ ":" ++ mode i)%string.

Definition pil_open (bytes : string) : outcome Image :=
  Ret {| width := 4; height := 2; mode := "1"; pixels := [] |}.

Definition str_float (f : Py.float) : string := "<float>".

Definition decode_text (bytes : string) : outcome string := Ret bytes.
Definition encode_utf8 (text : string) : string := text.

Definition et_fromstring (text : string) : outcome Element :=
  Ret {[ "width" := "97.000000pt"; "height" := "10.000000pt" ]}.

(** A name longer than every existing one is new. *)
Definition longest (fs : gmap string string) : nat :=
  max_list (String.length <$> (map_to_list fs).*1).

Fixpoint stem (n : nat) : string :=
  match n with
  | O => EmptyString
  | S k => String "t" (stem k)
  end.

Definition temp_name (suffix : string) (fs : gmap string string) : string :=
  (stem (S (longest fs)) ++ suffix)%string.

(** The argument that follows [flag] on a command line. *)
Fixpoint arg_after (flag : string) (cmd : list string) : option string :=
  match cmd with
  | a :: rest =>
      if String.eqb a flag then head rest else arg_after flag rest
  | [] => None
  end.

Definition tool_exits (rc : Z) (cmd : list string) (o : Os)
    : outcome (Z * string) * Os :=
  (Ret (rc, "error"), o).

Definition tool_times_out (cmd : list string) (o : Os)
    : outcome (Z * string) * Os :=
  (Raise TimeoutExpired, o).

(** Exits with 0 after writing [text] to the file named after [-o] or
    [--output]. *)
Definition tool_writes (text : string) (cmd : list string) (o : Os)
    : outcome (Z * string) * Os :=
  match arg_after "-o" cmd, arg_after "--output" cmd with
  | Some out, _ | None, Some out =>
      (Ret (0, EmptyString), set_files (<[out := text]> (files o)) o)
  | None, None => (Ret (0, EmptyString), o)
  end.

Definition image : Image :=
  {| width := 640; height := 480; mode := "RGB"; pixels := [] |}.

Definition parameters : gmap string value :=
  list_to_map
    [("blur", VFloat (PyFloat.lit "2.0"));
     ("threshold", VFloat (PyFloat.lit "0.4"));
     ("scale", VInt 3); ("filter", VInt 4);
     ("turnpolicy", VStr "minority"); ("turdsize", VInt 5);
     ("alphamax", VFloat (PyFloat.lit "0.8"));
     ("opttolerance", VFloat (PyFloat.lit "0.5"))].

(** The application with an image loaded, live preview on and nothing
    running. *)
Definition idle : St :=
  {| self := {| vars := parameters; live_preview := true;
                current_image := Some image; processing := false;
                mkbitmap_result := None; potrace_svg_path := None;
                potrace_svg_content := None; final_icon_preview := None;
                wsl_available := true; parameter_change_job := None |};
     tk := {| mainloop := true; clock := 0; after_queue := [];
              next_after_id := O; status_var := "Ready";
              pipeline_status := EmptyString |};
     os := {| files := {[ "C:\Temp\tmpq.svg" := "<svg/>" ]};
              dirs := {[ project_root ]} |};
     ghost := {| calls := []; workers := O; runs := O; fired := [] |} |}.

End Demo.

Section Tools.

(** *** What lies outside the program *)

(** PIL: [image.convert(mode)], the bytes [image.save(path, format)] writes,
    and [Image.open] on the bytes of a file. *)
Variable pil_convert : string -> Image -> Image.
Variable pil_save : string -> Image -> string.
Variable pil_open : string -> outcome Image.

(** [str(x)] for a float, as it goes on a command line. *)
Variable str_float : Py.float -> string.

(** Reading a file in text mode with [encoding='utf-8'], and
    [text.encode('utf-8')]. *)
Variable decode_text : string -> outcome string.
Variable encode_utf8 : string -> string.

(** [ET.fromstring]. *)
Variable et_fromstring : string -> outcome Element.

(** [tempfile]: the name chosen for a new temporary file with the given
    suffix, among the files that exist. *)
Variable temp_name : string -> gmap string string -> string.

(** [subprocess.run]: an external program runs on the file system and either
    completes with a return code and its stderr, or the call raises
    ([TimeoutExpired], a missing executable). *)
Variable subprocess_run : list string -> Os -> outcome (Z * string) * Os.

Definition run (cmd : list string) : io (Z * string) := fun s =>
  let '(r, o') := subprocess_run cmd (os s) in
  (r, with_ghost (log_call (CallExec cmd)) (with_os (fun _ => o') s)).

(** [tempfile.mkstemp(suffix=...)], and [NamedTemporaryFile(suffix=...,
    delete=False)] once closed: a new, empty file. *)
Definition mkstemp (suffix : string) : io string :=
  s ← get;
  let path := temp_name suffix (files (os s)) in
  _ ← write_file path EmptyString;
  mret path.

(** *** Tk variables *)

Definition var_get (name : string) : io value :=
  s ← get;
  match vars (self s) !! name with
  | Some v => mret v
  | None => raise (PyException "AttributeError")
  end.

(** [IntVar.get()], [DoubleVar.get()], [StringVar.get()] *)
Definition intvar_get (name : string) : io Z :=
  v ← var_get name;
  match v with
  | VInt z => mret z
  | VFloat f => lift (Py.int_of_float f)
  | VStr _ => raise (PyException "TclError")
  end.

Definition doublevar_get (name : string) : io Py.float :=
  v ← var_get name;
  match v with
  | VInt z => lift (Py.float_of_int z)
  | VFloat f => mret f
  | VStr _ => raise (PyException "TclError")
  end.

Definition stringvar_get (name : string) : io string :=
  v ← var_get name;
  match v with
  | VInt z => mret (pretty z)
  | VFloat f => mret (str_float f)
  | VStr t => mret t
  end.

(** [var.set(value)]; the trace callbacks are added where the variable is
    set. *)
Definition var_set (name : string) (v : value) : io unit :=
  modify (with_self (fun x => set_vars (<[name := v]> (vars x)) x)).

(** *** Stage 1: [run_mkbitmap] *)

Definition mkbitmap_cmd (input_path output_path : string) : io (list string) :=
  scale ← intvar_get "scale";
  blur ← doublevar_get "blur";
  threshold ← doublevar_get "threshold";
  filter ← intvar_get "filter";
  mret ["mkbitmap"; "-s"; pretty scale; "-b"; str_float blur;
        "-t"; str_float threshold; "-f"; pretty filter;
        "-o"; output_path; input_path].

(** Lines 1026-1051: the body of the inner [try]. *)
Definition mkbitmap_body (img : Image) (input_path output_path : string)
    : io (option Image) :=
  _ ← write_file input_path (pil_save "BMP" img);
  cmd ← mkbitmap_cmd input_path output_path;
  r ← run cmd;
  there ← exists_ output_path;
  if (fst r =? 0) && there then
    bytes ← read_file output_path;
    opened ← lift (pil_open bytes);
    mret (Some (pil_convert "L" opened))
  else mret None.

Definition run_mkbitmap : io (option Image) :=
  _ ← modify (with_ghost (log_call CallRunMkbitmap));
  s ← get;
  match current_image (self s) with
  | None => mret None
  | Some image =>
      try_catch
        (let img := pil_convert "L" image in
         input_path ← mkstemp ".bmp";
         output_path ← mkstemp ".pbm";
         try_finally (mkbitmap_body img input_path output_path)
                     (cleanup [input_path; output_path]))
        (fun _ => mret None)
  end.

(** *** Stage 2: [run_potrace] *)

Definition potrace_cmd (input_path output_path : string) : io (list string) :=
  turnpolicy ← stringvar_get "turnpolicy";
  turdsize ← intvar_get "turdsize";
  alphamax ← doublevar_get "alphamax";
  opttolerance ← doublevar_get "opttolerance";
  mret ["potrace"; "--svg"; "--turnpolicy"; turnpolicy;
        "--turdsize"; pretty turdsize; "--alphamax"; str_float alphamax;
        "--opttolerance"; str_float opttolerance;
        "--output"; output_path; input_path].

(** Lines 1077-1112: the body of the inner [try]. The result is
    [(temp_svg.name, svg_content)] or [(None, None)]. *)
Definition potrace_body (image : Image) (input_path output_path : string)
    : io (option string * option string) :=
  let input_image :=
    if String.eqb (mode image) "1" then image else pil_convert "1" image in
  _ ← write_file input_path (pil_save "PPM" input_image);
  cmd ← potrace_cmd input_path output_path;
  r ← run cmd;
  there ← exists_ output_path;
  if (fst r =? 0) && there then
    bytes ← read_file output_path;
    svg_content ← lift (decode_text bytes);
    temp_svg ← mkstemp ".svg";
    _ ← write_file temp_svg (encode_utf8 svg_content);
    mret (Some temp_svg, Some svg_content)
  else mret (None, None).

Definition run_potrace (input_image : option Image)
    : io (option string * option string) :=
  _ ← modify (with_ghost (log_call CallRunPotrace));
  match input_image with
  | None => mret (None, None)
  | Some image =>
      try_catch
        (input_path ← mkstemp ".pbm";
         output_path ← mkstemp ".svg";
         try_finally (potrace_body image input_path output_path)
                     (cleanup [input_path; output_path]))
        (fun _ => mret (None, None))
  end.

(** *** The preview rasterizer: [convert_svg_to_png_wsl2] *)

Definition dquote : string := String (ascii_of_nat 34) EmptyString.

(** Lines 378 and 395: the test for a temporary path. *)
Definition is_temp_path (path : string) : bool :=
  Str.contains "Temp" path || Str.contains "temp" path
  || Str.contains "tmp" path.

(** [str(self.project_root / "temp")] *)
Definition wsl_temp_dir : string := WinPath.join project_root "temp".

(** Lines 377-392: the SVG path as the WSL2 side is to see it. *)
Definition bridge_svg_path (svg_path : string) : io string :=
  if is_temp_path svg_path then
    _ ← mkdir_exist_ok project_root "temp";
    let temp_svg_name := ("temp_" ++ WinPath.basename svg_path)%string in
    let wsl_accessible_svg := WinPath.join wsl_temp_dir temp_svg_name in
    _ ← copy2 svg_path wsl_accessible_svg;
    mret (Str.replace "G:" "/mnt/g" (Str.replace "\" "/" wsl_accessible_svg))
  else
    mret (Str.replace "G:" "/mnt/g"
            (Str.replace "C:" "/mnt/c" (Str.replace "\" "/" svg_path))).

(** Lines 394-406: the output path for the WSL2 side, and the native path
    where the result is then looked for. *)
Definition bridge_output_path (output_path : string) : io (string * string) :=
  if is_temp_path output_path then
    _ ← mkdir_exist_ok project_root "temp";
    let temp_png_name := ("temp_" ++ WinPath.basename output_path)%string in
    let wsl_accessible_png := WinPath.join wsl_temp_dir temp_png_name in
    mret (Str.replace "G:" "/mnt/g" (Str.replace "\" "/" wsl_accessible_png),
          wsl_accessible_png)
  else
    mret (Str.replace "G:" "/mnt/g"
            (Str.replace "C:" "/mnt/c" (Str.replace "\" "/" output_path)),
          output_path).

(** Lines 334-337: the document, read and parsed. *)
Definition read_svg (svg_path : string) : io (outcome Element) := fun s =>
  (Ret (match files (os s) !! svg_path with
        | Some bytes => decode_text bytes ≫= et_fromstring
        | None => Raise FileNotFoundError
        end), s).

Definition rsvg_cmd (wsl_svg_path : string) (final_width final_height : Z)
    (wsl_output_path : string) : string :=
  ("wsl rsvg-convert " ++ dquote ++ wsl_svg_path ++ dquote
   ++ " -w " ++ pretty final_width ++ " -h " ++ pretty final_height
   ++ " -o " ++ dquote ++ wsl_output_path ++ dquote)%string.

Definition convert_svg_to_png_wsl2 (svg_path output_path : string)
    (target_canvas_size : Z * Z) : io (option string) :=
  try_catch
    (parsed ← read_svg svg_path;
     let '(svg_width, svg_height) := svg_intrinsic_size parsed in
     final ← lift (preview_dimensions svg_width svg_height target_canvas_size);
     wsl_svg_path ← bridge_svg_path svg_path;
     out ← bridge_output_path output_path;
     r ← run [rsvg_cmd wsl_svg_path (fst final) (snd final) (fst out)];
     if negb (fst r =? 0)
     then raise (PyException ("rsvg-convert failed: " ++ snd r))
     else
       there ← exists_ (snd out);
       if there : bool then mret (Some (snd out))
       else raise (PyException "Output file was not created"))
    (fun _ => mret None).

(** *** Display *)

(** [update_pipeline_status]: the text of the status box (the time stamp in
    front of it is not kept). *)
Definition update_pipeline_status (message : string) : io unit :=
  modify (with_tk (set_pipeline_status message)).

Definition status_var_set (message : string) : io unit :=
  modify (with_tk (set_status_var message)).

(** [display_svg_preview], lines 482-537: what it does to files and to
    [final_icon_preview]; the drawing on the canvas is not modelled. *)
Definition display_svg_preview (svg_content : string) : io unit :=
  s ← get;
  if negb (truthy (Some svg_content)) || negb (wsl_available (self s))
  then mret tt
  else
    try_catch
      (temp_svg ← mkstemp ".svg";
       _ ← write_file temp_svg (encode_utf8 svg_content);
       temp_png ← mkstemp ".png";
       png_path ← convert_svg_to_png_wsl2 temp_svg temp_png (400, 300);
       shown ← match png_path with
               | Some p =>
                   there ← exists_ p;
                   if there : bool then
                     bytes ← read_file p;
                     preview_img ← lift (pil_open bytes);
                     _ ← modify (with_self
                                   (set_final_icon_preview (Some preview_img)));
                     update_pipeline_status
                       "✅ SVG preview rendered via WSL2 (aspect ratio preserved)"
                   else mret tt
               | None => mret tt
               end;
       try_catch
         (there ← exists_ temp_svg;
          _ ← (if there : bool then unlink temp_svg else mret tt);
          _ ← match png_path with
              | Some p =>
                  there ← exists_ p;
                  if (there : bool) && negb (String.eqb p temp_png)
                  then unlink p else mret tt
              | None => mret tt
              end;
          there ← exists_ temp_png;
          if there : bool then unlink temp_png else mret tt)
         (fun _ => mret tt))
      (fun _ => mret tt).

Definition display_svg_results (svg_content : string) : io unit :=
  display_svg_preview svg_content.

(** *** The Tk timer queue *)

(** [root.after(ms, callback)] on the UI thread. *)
Definition after (ms : Z) (cb : callback) : io nat :=
  s ← get;
  let i := next_after_id (tk s) in
  let t := {| timer_id := i; due := clock (tk s) + ms; action := cb |} in
  _ ← modify (with_tk (fun x =>
         set_next_after_id (S i) (set_after_queue (after_queue x ++ [t]) x)));
  mret i.

(** [root.after(0, callback)] from the worker thread: [RuntimeError] when the
    main loop is not running. *)
Definition after_from_thread (cb : callback) : io nat :=
  s ← get;
  if mainloop (tk s) then after 0 cb else raise RuntimeError.

(** [root.after_cancel(id)]: an identifier that is no longer pending is
    ignored. *)
Definition after_cancel (i : nat) : io unit :=
  modify (with_tk (fun x =>
    set_after_queue
      (filter (fun t => timer_id t ≠ i) (after_queue x)) x)).

(** *** The pipeline coordinator *)

(** Lines 957-966. Starting the thread is recorded in [workers] and [runs];
    the thread's body is [process_pipeline]. *)
Definition start_processing : io unit :=
  s ← get;
  if processing (self s) then mret tt
  else
    _ ← modify (with_self (set_processing true));
    _ ← update_pipeline_status
          "🔄 Starting V3 live preview pipeline (all 4 panels)...";
    modify (with_ghost thread_started).

(** Lines 971-1004: the [try] block. *)
Definition pipeline_body : io unit :=
  _ ← after_from_thread
        (UpdatePipelineStatus "🔄 Stage 1: Running mkbitmap preprocessing...");
  mkbitmap_result ← run_mkbitmap;
  match mkbitmap_result with
  | Some img =>
      _ ← modify (with_self (set_mkbitmap_result (Some img)));
      _ ← after_from_thread
            (DisplayImageConsistent img "mkbitmap_canvas" "Mkbitmap Result");
      _ ← after_from_thread
            (UpdatePipelineStatus "✅ Stage 1: Mkbitmap preprocessing complete");
      _ ← after_from_thread
            (UpdatePipelineStatus "🔄 Stage 2: Running potrace vector tracing...");
      traced ← run_potrace (Some img);
      match traced with
      | (svg_path, svg_content) =>
          if truthy svg_path && truthy svg_content then
            _ ← modify (with_self (set_potrace_svg svg_path svg_content));
            _ ← after_from_thread
                  (UpdatePipelineStatus "🔄 Stage 3: Generating SVG preview...");
            _ ← after_from_thread (DisplaySvgResults (default EmptyString svg_content));
            _ ← after_from_thread
                  (UpdatePipelineStatus
                     "🔄 Stage 4: Auto-populating final icon preview...");
            _ ← after_from_thread DisplayFinalIconPreview;
            _ ← after_from_thread
                  (UpdatePipelineStatus
                     "✅ V3 Full pipeline complete! All 4 panels populated automatically.");
            _ ← after_from_thread
                  (SetStatus
                     "✅ All Stages Complete! Live preview active across all 4 panels");
            mret tt
          else
            _ ← after_from_thread
                  (UpdatePipelineStatus "❌ Stage 2: Potrace tracing failed");
            _ ← after_from_thread (SetStatus "❌ Potrace failed");
            mret tt
      end
  | None =>
      _ ← after_from_thread
            (UpdatePipelineStatus "❌ Stage 1: Mkbitmap preprocessing failed");
      _ ← after_from_thread (SetStatus "❌ Mkbitmap failed");
      mret tt
  end.

(** Lines 1006-1008: the [except Exception as e] block. *)
Definition pipeline_handler (e : exn) : io unit :=
  _ ← after_from_thread
        (UpdatePipelineStatus ("❌ Pipeline error: " ++ exn_message e));
  _ ← after_from_thread (SetStatus ("❌ Error: " ++ exn_message e));
  mret tt.

(** Lines 968-1010, the worker thread from start to end. *)
Definition process_pipeline : io unit :=
  try_finally
    (try_catch pipeline_body pipeline_handler)
    (_ ← modify (with_self (set_processing false));
     modify (with_ghost thread_finished)).

(** Lines 911-937. The label texts are presentation and not modelled. *)
Definition on_parameter_change : io unit :=
  s ← get;
  if live_preview (self s) && bool_decide (is_Some (current_image (self s)))
     && negb (processing (self s))
  then
    _ ← match parameter_change_job (self s) with
        | Some job => after_cancel job
        | None => mret tt
        end;
    job ← after 300 StartProcessing;
    modify (with_self (set_parameter_change_job (Some job)))
  else mret tt.

(** A variable created by [create_parameter_control] carries a write trace
    that calls [on_parameter_change]; [turnpolicy_var] has none. *)
Definition traced (name : string) : bool := negb (String.eqb name "turnpolicy").

Definition var_set_traced (name : string) (v : value) : io unit :=
  _ ← var_set name v;
  if traced name then on_parameter_change else mret tt.

(** Lines 65-68, in the order of the dictionary. *)
Definition default_values : list (string * value) :=
  [("blur", VFloat (PyFloat.lit "1.0"));
   ("threshold", VFloat (PyFloat.lit "0.45"));
   ("scale", VInt 2);
   ("filter", VInt 2);
   ("turnpolicy", VStr "minority");
   ("turdsize", VInt 2);
   ("alphamax", VFloat (PyFloat.lit "1.0"));
   ("opttolerance", VFloat (PyFloat.lit "0.2"))].

Fixpoint set_all (items : list (string * value)) : io unit :=
  match items with
  | [] => mret tt
  | (param, v) :: rest => _ ← var_set_traced param v; set_all rest
  end.

(** Lines 874-884. *)
Definition reset_parameters : io unit :=
  _ ← set_all default_values;
  _ ← on_parameter_change;
  _ ← status_var_set "Parameters reset to defaults";
  s ← get;
  if live_preview (self s) && bool_decide (is_Some (current_image (self s)))
  then start_processing else mret tt.

(** Lines 1243-1262: the presets, each with its name, its description and its
    parameter values. *)
Definition presets : list (string * (string * string * list (string * value))) :=
  [("technical",
    ("Technical Drawing", "Sharp edges, precise lines, minimal smoothing",
     [("blur", VFloat (PyFloat.lit "1.0"));
      ("threshold", VFloat (PyFloat.lit "0.45"));
      ("scale", VInt 2); ("filter", VInt 2);
      ("turnpolicy", VStr "minority"); ("turdsize", VInt 2);
      ("alphamax", VFloat (PyFloat.lit "1.0"));
      ("opttolerance", VFloat (PyFloat.lit "0.2"))]));
   ("smooth",
    ("Smooth Silhouette", "Rounded curves, simplified shapes",
     [("blur", VFloat (PyFloat.lit "2.0"));
      ("threshold", VFloat (PyFloat.lit "0.4"));
      ("scale", VInt 3); ("filter", VInt 4);
      ("turnpolicy", VStr "minority"); ("turdsize", VInt 5);
      ("alphamax", VFloat (PyFloat.lit "0.8"));
      ("opttolerance", VFloat (PyFloat.lit "0.5"))]));
   ("detail",
    ("High Detail", "Maximum detail retention, complex paths",
     [("blur", VFloat (PyFloat.lit "0.5"));
      ("threshold", VFloat (PyFloat.lit "0.5"));
      ("scale", VInt 2); ("filter", VInt 1);
      ("turnpolicy", VStr "black"); ("turdsize", VInt 1);
      ("alphamax", VFloat (PyFloat.lit "1.2"));
      ("opttolerance", VFloat (PyFloat.lit "0.1"))]))].

Definition assoc {A} (key : string) (l : list (string * A)) : option A :=
  snd <$> find (fun kv => String.eqb (fst kv) key) l.

Definition preset_params : list string :=
  ["blur"; "threshold"; "scale"; "filter"; "turnpolicy"; "turdsize";
   "alphamax"; "opttolerance"].

Fixpoint apply_preset (preset : list (string * value)) (params : list string)
    : io unit :=
  match params with
  | [] => mret tt
  | param :: rest =>
      _ ← match assoc param preset with
          | Some v => var_set_traced param v
          | None => mret tt
          end;
      apply_preset preset rest
  end.

(** Lines 1241-1280. *)
Definition load_preset (preset_name : string) : io unit :=
  match assoc preset_name presets with
  | Some (name, description, preset) =>
      _ ← apply_preset preset preset_params;
      _ ← on_parameter_change;
      _ ← update_pipeline_status
            ("📋 Applied preset: " ++ name ++ " - " ++ description);
      _ ← status_var_set ("Loaded " ++ name ++ " preset");
      s ← get;
      if live_preview (self s) && bool_decide (is_Some (current_image (self s)))
      then start_processing else mret tt
  | None => mret tt
  end.

(** Lines 950-955. *)
Definition manual_process : io unit :=
  s ← get;
  if bool_decide (is_Some (current_image (self s)))
  then start_processing else mret tt.

(** *** The event loop *)

(** A callback taken from the timer queue runs on the UI thread; Tk reports
    an exception of a callback and carries on. *)
Definition run_callback (cb : callback) : io unit :=
  try_catch
    match cb with
    | StartProcessing => start_processing
    | UpdatePipelineStatus msg => update_pipeline_status msg
    | SetStatus msg => status_var_set msg
    | DisplaySvgResults svg_content => display_svg_results svg_content
    | DisplayImageConsistent _ _ _ => mret tt
    | DisplayFinalIconPreview => mret tt
    end
    (fun _ => mret tt).

(** The timers that are due, earliest first, in the order of their creation
    among equals: [insert_by_due t l] puts [t], which was created before the
    timers of [l], in front of the first of them that is not due earlier. *)
Fixpoint insert_by_due (t : Timer) (l : list Timer) : list Timer :=
  match l with
  | [] => [t]
  | u :: l' => if due t <=? due u then t :: l else u :: insert_by_due t l'
  end.

Definition due_timers (now : Z) (q : list Timer) : list Timer :=
  foldr insert_by_due [] (filter (fun t => due t <= now) q).

(** One timer: unless a callback before it cancelled it, it leaves the queue
    and its callback runs. *)
Definition fire (t : Timer) : io unit :=
  s ← get;
  if bool_decide (timer_id t ∈ map timer_id (after_queue (tk s))) then
    _ ← after_cancel (timer_id t);
    _ ← modify (with_ghost (log_fired (timer_id t)));
    run_callback (action t)
  else mret tt.

Fixpoint fire_all (l : list Timer) : io unit :=
  match l with
  | [] => mret tt
  | t :: rest => _ ← fire t; fire_all rest
  end.

(** The main loop reaches time [now] and serves the timers due by then. *)
Definition advance (now : Z) : io unit :=
  _ ← modify (with_tk (fun x => set_clock (Z.max (clock x) now) x));
  s ← get;
  fire_all (due_timers (clock (tk s)) (after_queue (tk s))).

(** Lines 886-904, with the result of [Image.open(filepath)] and the file's
    name. *)
Definition load_image (name : string) (opened : outcome Image) : io unit :=
  match opened with
  | Ret image =>
      _ ← modify (with_self (set_current_image (Some image)));
      _ ← update_pipeline_status ("Loaded: " ++ name);
      _ ← status_var_set ("Loaded: " ++ name);
      s ← get;
      if live_preview (self s) then start_processing else mret tt
  | Raise e =>
      update_pipeline_status ("❌ Failed to load: " ++ exn_message e)
  end.

(** Lines 939-948, after the check box has switched [live_preview]. *)
Definition toggle_live_preview : io unit :=
  _ ← modify (with_self (fun x => set_live_preview (negb (live_preview x)) x));
  s ← get;
  if live_preview (self s) && bool_decide (is_Some (current_image (self s)))
  then start_processing else mret tt.

(** *** The application as a transition system *)

(** What the UI thread can be asked to do. *)
Inductive ui_event : Type :=
  | ParameterChange
  | ManualProcess
  | ResetParameters
  | LoadPreset (preset_name : string)
  | LoadImage (name : string) (opened : outcome Image)
  | ToggleLivePreview
  | Advance (now : Z).

Definition handle (e : ui_event) : io unit :=
  match e with
  | ParameterChange => on_parameter_change
  | ManualProcess => manual_process
  | ResetParameters => reset_parameters
  | LoadPreset preset_name => load_preset preset_name
  | LoadImage name opened => load_image name opened
  | ToggleLivePreview => toggle_live_preview
  | Advance now => advance now
  end.

(** A step is an event handled on the UI thread, or a started worker thread
    running [process_pipeline] to its end. The UI thread alone calls
    [start_processing], and the worker's only write to [processing] is the
    final [False]. *)
Inductive step : St -> St -> Prop :=
  | step_ui (e : ui_event) (s : St) : step s (exec (handle e) s)
  | step_worker (s : St) :
      (0 < workers (ghost s))%nat -> step s (exec process_pipeline s).

(** The run state of the coordinator: the flag is set exactly while one
    worker runs, and no second one does. *)
Definition single_run (s : St) : Prop :=
  workers (ghost s) = (if processing (self s) then 1 else 0)%nat.

(** The file system [run_mkbitmap] has prepared when it runs the tool: the
    two temporary files created, the grayscale image saved as the input. *)
Definition mkbitmap_staged (s : St) (image : Image)
    (input_path output_path : string) : Os :=
  set_files
    (<[input_path := pil_save "BMP" (pil_convert "L" image)]>
       (<[output_path := EmptyString]>
          (<[input_path := EmptyString]> (files (os s)))))
    (os s).

(** This run of the tool failed: the call raised (a timeout, a missing
    program), or the program exited non-zero, or its output file is not
    there. *)
Definition tool_failed (output_path : string)
    (r : outcome (Z * string) * Os) : Prop :=
  match r with
  | (Raise _, _) => True
  | (Ret (rc, _), o') => rc ≠ 0 ∨ path_exists o' output_path = false
  end.

(** What Stage 1 may leave in the history of calls: its own entry and runs
    of mkbitmap. *)
Definition stage1_call (c : call) : Prop :=
  match c with
  | CallRunMkbitmap => True
  | CallExec cmd => head cmd = Some "mkbitmap"
  | CallRunPotrace => False
  end.

(** The calls made between [s0] and [s] all belong to Stage 1. *)
Definition only_stage1 (s0 s : St) : Prop :=
  exists added,
    calls (ghost s) = calls (ghost s0) ++ added /\ Forall stage1_call added.

(** The bitmap [run_potrace] writes for the tool, and the file system the
    tool then finds: the two temporary files created, the input written. *)
Definition potrace_input (image : Image) : Image :=
  if String.eqb (mode image) "1" then image else pil_convert "1" image.

Definition staged (s : St) (image : Image) (input_path output_path : string)
    : Os :=
  set_files
    (<[input_path := pil_save "PPM" (potrace_input image)]>
       (<[output_path := EmptyString]>
          (<[input_path := EmptyString]> (files (os s)))))
    (os s).

(** *** Debouncing: the vocabulary *)

Definition is_start (cb : callback) : bool :=
  match cb with
  | StartProcessing => true
  | _ => false
  end.

(** The timer queue is in order: identifiers handed out so far are below
    [next_after_id], and the only pending run of [start_processing] is the one
    [_parameter_change_job] remembers. *)
Definition queue_ok (s : St) : Prop :=
  (forall t, t ∈ after_queue (tk s) ->
             (timer_id t < next_after_id (tk s))%nat)
  /\ (forall i, i ∈ fired (ghost s) -> (i < next_after_id (tk s))%nat)
  /\ (forall t, t ∈ after_queue (tk s) -> is_start (action t) = true ->
                parameter_change_job (self s) = Some (timer_id t)).

(** The timer that [on_parameter_change] schedules. *)
Definition job_timer (j : nat) (now : Z) : Timer :=
  {| timer_id := j; due := now + 300; action := StartProcessing |}.

(** The part of the state that scheduling is about. *)
Definition sched_of (s : St) :=
  (processing (self s), live_preview (self s),
   bool_decide (is_Some (current_image (self s))),
   parameter_change_job (self s),
   (after_queue (tk s), next_after_id (tk s), clock (tk s)),
   (runs (ghost s), fired (ghost s))).

(** One run of [start_processing] is pending as timer [tj], identifier [j];
    [x] is an identifier that is no longer in the queue. Either [tj] is
    waiting and [r] runs were started, or it has fired and started one
    more. *)
Definition pending (j : nat) (tj : Timer) (x : nat) (r : nat) (s : St)
    : Prop :=
  live_preview (self s) = true
  /\ bool_decide (is_Some (current_image (self s))) = true
  /\ parameter_change_job (self s) = Some j
  /\ (x ∉ fired (ghost s))
  /\ (forall t, t ∈ after_queue (tk s) -> timer_id t <> x)
  /\ (forall t, t ∈ after_queue (tk s) ->
        (is_start (action t) = true \/ timer_id t = j) -> t = tj)
  /\ ((processing (self s) = false /\ runs (ghost s) = r
       /\ (tj ∈ after_queue (tk s)) /\ (j ∉ fired (ghost s)))
      \/ (processing (self s) = true /\ runs (ghost s) = S r
          /\ (j ∈ fired (ghost s))
          /\ forall t, t ∈ after_queue (tk s) -> timer_id t <> j)).

(** [tj] has fired. *)
Definition served (j : nat) (r : nat) (s : St) : Prop :=
  processing (self s) = true /\ runs (ghost s) = S r
  /\ (j ∈ fired (ghost s)).

(** ** Properties *)

(** *** Reasoning about statements *)

Lemma bind_unfold {A B} (c : io A) (k : A -> io B) (s : St) :
  (c ≫= k) s = match c s with
               | (Ret a, s') => k a s'
               | (Raise e, s') => (Raise e, s')
               end.
Proof. reflexivity. Qed.

(** Running a statement by hand: the binds and the state primitives. *)
Ltac io_unfold :=
  unfold mbind, io_mbind, io_bind, mret, io_mret, io_ret, get, modify, raise,
    lift, try_catch, try_finally in *.

(** Case analysis on a scrutinee of [H] that is not itself a [match]. *)
Ltac case_innermost H :=
  match type of H with
  | context [match ?x with _ => _ end] =>
      lazymatch x with
      | context [match _ with _ => _ end] => fail
      | _ => destruct x eqn:?; cbv beta iota in H
      end
  end.

(** [preserves I c]: the statement [c] keeps the state property [I],
    however it ends. *)
Definition preserves {A} (I : St -> Prop) (c : io A) : Prop :=
  forall s, I s -> I (exec c s).

Lemma preserves_bind {A B} (I : St -> Prop) (c : io A) (k : A -> io B) :
  preserves I c -> (forall a, preserves I (k a)) -> preserves I (c ≫= k).
Proof.
  intros Hc Hk s HI. unfold exec. rewrite bind_unfold.
  specialize (Hc s HI). unfold exec in Hc.
  destruct (c s) as [[a|e] s']; simpl in *; [apply Hk|]; assumption.
Qed.

Lemma preserves_bind_result {A B} (I : St -> Prop) (c : io A)
    (k : A -> io B) :
  preserves I c ->
  (forall a s s', c s = (Ret a, s') -> preserves I (k a)) ->
  preserves I (c ≫= k).
Proof.
  intros Hc Hk s HI. unfold exec. rewrite bind_unfold.
  specialize (Hc s HI). unfold exec in Hc.
  destruct (c s) as [[a|e] s'] eqn:E; simpl in *; [|assumption].
  eapply Hk; eassumption.
Qed.

Lemma preserves_ret {A} (I : St -> Prop) (a : A) : preserves I (mret a).
Proof. intros s HI. exact HI. Qed.

Lemma preserves_raise {A} (I : St -> Prop) (e : exn) :
  preserves I (raise e : io A).
Proof. intros s HI. exact HI. Qed.

Lemma preserves_lift {A} (I : St -> Prop) (c : outcome A) :
  preserves I (lift c).
Proof. intros s HI. exact HI. Qed.

Lemma preserves_get (I : St -> Prop) : preserves I get.
Proof. intros s HI. exact HI. Qed.

Lemma preserves_modify (I : St -> Prop) (f : St -> St) :
  (forall s, I s -> I (f s)) -> preserves I (modify f).
Proof. intros Hf s HI. apply Hf, HI. Qed.

Lemma preserves_try_catch {A} (I : St -> Prop) (c : io A) (h : exn -> io A) :
  preserves I c -> (forall e, preserves I (h e)) -> preserves I (try_catch c h).
Proof.
  intros Hc Hh s HI. unfold exec, try_catch.
  specialize (Hc s HI). unfold exec in Hc.
  destruct (c s) as [[a|e] s']; simpl in *; [|apply Hh]; assumption.
Qed.

Lemma preserves_try_finally {A} (I : St -> Prop) (c : io A) (f : io unit) :
  preserves I c -> preserves I f -> preserves I (try_finally c f).
Proof.
  intros Hc Hf s HI. unfold exec, try_finally.
  specialize (Hc s HI). unfold exec in Hc.
  destruct (c s) as [r s1]; simpl in *.
  specialize (Hf s1 Hc). unfold exec in Hf.
  destruct (f s1) as [[u|e] s2]; simpl in *; assumption.
Qed.

(** A state property that the file system, the history of calls and the
    texts on screen have no part in. *)
Ltac pres_step :=
  first
    [ apply preserves_bind; [|intros ?]
    | apply preserves_ret
    | apply preserves_raise
    | apply preserves_lift
    | apply preserves_get
    | apply preserves_try_catch; [|intros ?]
    | apply preserves_try_finally
    | match goal with
      | |- preserves _ (if ?b then _ else _) => destruct b
      | |- preserves _ (match ?x with _ => _ end) => destruct x
      | |- preserves _ (let '(_, _) := ?x in _) => destruct x
      end ].

Lemma preserves_run (I : St -> Prop) (cmd : list string) :
  (forall s o, I s ->
     I (with_ghost (log_call (CallExec cmd)) (with_os (fun _ => o) s))) ->
  preserves I (run cmd).
Proof.
  intros H s HI. unfold exec, run.
  destruct (subprocess_run cmd (os s)) as [r o']. simpl. apply H, HI.
Qed.

Lemma preserves_read_svg (I : St -> Prop) (path : string) :
  preserves I (read_svg path).
Proof. intros s HI. exact HI. Qed.

Ltac unfold_statements :=
  progress unfold exists_, write_file, read_file, unlink, mkdir_exist_ok,
    copy2, mkstemp, var_get, intvar_get, doublevar_get, stringvar_get,
    var_set, update_pipeline_status, status_var_set, after, after_from_thread,
    after_cancel, mkbitmap_cmd, mkbitmap_body, potrace_cmd, potrace_body,
    bridge_svg_path, bridge_output_path.

(** [pres tac]: take a statement apart down to its assignments, and leave
    each of them to [tac]. *)
Create HintDb pres.

Ltac pres tac :=
  repeat first
    [ assumption
    | solve [trivial with pres nocore]
    | pres_step
    | apply preserves_read_svg
    | apply preserves_run; intros ? ? ?; tac
    | apply preserves_modify; intros ? ?; tac
    | unfold_statements ].

(** *** Statements that only touch files and texts

    [core_of s] is the state without the file system, the history of calls,
    [final_icon_preview] and the text of the pipeline status box. The stage
    functions and the preview leave it alone. *)

Definition core_of (s : St) :=
  (vars (self s), live_preview (self s), current_image (self s),
   processing (self s), mkbitmap_result (self s), potrace_svg_path (self s),
   potrace_svg_content (self s), wsl_available (self s),
   parameter_change_job (self s),
   (mainloop (tk s), clock (tk s), after_queue (tk s), next_after_id (tk s),
    status_var (tk s)),
   (workers (ghost s), runs (ghost s), fired (ghost s))).

Definition framed {A} (c : io A) : Prop :=
  forall x, preserves (fun s => core_of s = x) c.

Lemma framed_core {A} (c : io A) (s : St) :
  framed c -> core_of (exec c s) = core_of s.
Proof. intros H. apply (H (core_of s) s). reflexivity. Qed.

Ltac core_assign :=
  idtac;
  match goal with
  | H : core_of _ = _ |- core_of _ = _ => exact H
  end.

Lemma framed_cleanup (paths : list string) : framed (cleanup paths).
Proof.
  intros x. induction paths; simpl; pres core_assign.
Qed.

Lemma framed_run_mkbitmap : framed run_mkbitmap.
Proof.
  intros x. unfold run_mkbitmap. pres core_assign.
Qed.

Lemma framed_run_potrace (input_image : option Image) :
  framed (run_potrace input_image).
Proof.
  intros x. unfold run_potrace. pres core_assign.
Qed.

Lemma framed_convert_svg_to_png_wsl2 (svg_path output_path : string)
    (target : Z * Z) :
  framed (convert_svg_to_png_wsl2 svg_path output_path target).
Proof. intros x. unfold convert_svg_to_png_wsl2. pres core_assign. Qed.

Lemma framed_display_svg_preview (svg_content : string) :
  framed (display_svg_preview svg_content).
Proof.
  intros x. unfold display_svg_preview. pres core_assign.
  all: apply framed_convert_svg_to_png_wsl2.
Qed.

(** *** The run flag *)

Ltac single_run_assign :=
  idtac;
  match goal with
  | H : single_run _ |- single_run _ => exact H
  end.

Lemma core_single_run (s s' : St) :
  core_of s' = core_of s -> single_run s -> single_run s'.
Proof.
  unfold core_of, single_run. intros H Hs. injection H. intros.
  match goal with
  | Hp : processing (self s') = _, Hw : workers (ghost s') = _ |- _ =>
      rewrite Hp, Hw
  end.
  exact Hs.
Qed.

Lemma preserves_framed {A} (I : St -> Prop) (c : io A) :
  framed c ->
  (forall s s', core_of s' = core_of s -> I s -> I s') ->
  preserves I c.
Proof.
  intros Hc HI s Hs. apply (HI s); [|exact Hs]. apply framed_core, Hc.
Qed.

Lemma start_processing_busy (s : St) :
  processing (self s) = true -> start_processing s = (Ret tt, s).
Proof. intros H. unfold start_processing. io_unfold. rewrite H. reflexivity. Qed.

Lemma start_processing_idle (s : St) :
  processing (self s) = false ->
  exec start_processing s =
    with_ghost thread_started
      (with_tk (set_pipeline_status
                  "🔄 Starting V3 live preview pipeline (all 4 panels)...")
         (with_self (set_processing true) s)).
Proof.
  intros H. unfold start_processing, exec, update_pipeline_status. io_unfold.
  rewrite H. reflexivity.
Qed.

Lemma single_run_start_processing : preserves single_run start_processing.
Proof.
  intros s Hs. destruct (processing (self s)) eqn:E.
  - unfold exec. rewrite start_processing_busy by exact E. exact Hs.
  - rewrite start_processing_idle by exact E.
    unfold single_run in *. rewrite E in Hs. cbn. rewrite Hs. reflexivity.
Qed.

#[local] Hint Resolve single_run_start_processing : pres.




Lemma process_pipeline_exec (s : St) :
  exec process_pipeline s =
    with_ghost thread_finished
      (with_self (set_processing false)
         (exec (try_catch pipeline_body pipeline_handler) s)).
Proof.
  unfold process_pipeline, try_finally, exec.
  destruct (try_catch pipeline_body pipeline_handler s) as [r s1].
  reflexivity.
Qed.

Lemma process_pipeline_resets (s : St) :
  processing (self (exec process_pipeline s)) = false.
Proof. rewrite process_pipeline_exec. reflexivity. Qed.


#[local] Hint Resolve framed_cleanup : pres.

Lemma single_run_set_all (items : list (string * value)) :
  preserves single_run (set_all items).
Proof.
  induction items as [|[param v] items IH]; simpl.
  - apply preserves_ret.
  - unfold var_set_traced, on_parameter_change. pres single_run_assign.
Qed.

Lemma single_run_apply_preset (preset : list (string * value))
    (params : list string) :
  preserves single_run (apply_preset preset params).
Proof.
  induction params as [|param params IH]; simpl.
  - apply preserves_ret.
  - unfold var_set_traced, on_parameter_change. pres single_run_assign.
Qed.

Lemma single_run_run_callback (cb : callback) :
  preserves single_run (run_callback cb).
Proof.
  unfold run_callback. pres single_run_assign.
Qed.

#[local] Hint Resolve single_run_set_all single_run_apply_preset
  single_run_run_callback : pres.

Lemma single_run_fire_all (l : list Timer) :
  preserves single_run (fire_all l).
Proof.
  induction l as [|t l IH]; simpl.
  - apply preserves_ret.
  - unfold fire. pres single_run_assign.
Qed.

#[local] Hint Resolve single_run_fire_all : pres.





(** *** The building blocks of the stage functions *)

Lemma try_catch_unfold {A} (c : io A) (h : exn -> io A) (s : St) :
  try_catch c h s = match c s with
                    | (Ret a, s') => (Ret a, s')
                    | (Raise e, s') => h e s'
                    end.
Proof. reflexivity. Qed.

Lemma mkstemp_unfold (suffix : string) (s : St) :
  mkstemp suffix s =
    (Ret (temp_name suffix (files (os s))),
     with_os (fun o => set_files
                (<[temp_name suffix (files (os s)) := EmptyString]> (files o)) o)
       s).
Proof. reflexivity. Qed.

(** The cleanup loop swallows every exception. *)
Lemma cleanup_returns (paths : list string) (s : St) :
  result (cleanup paths) s = Ret tt.
Proof.
  revert s. induction paths as [|path rest IH]; intros s; [reflexivity|].
  unfold result in *. simpl. rewrite bind_unfold, try_catch_unfold.
  destruct ((exists_ path ≫= _) s) as [[[]|e] s1]; simpl; apply IH.
Qed.

Lemma try_finally_cleanup {A} (c : io A) (paths : list string) (s : St) :
  try_finally c (cleanup paths) s =
    (fst (c s), exec (cleanup paths) (snd (c s))).
Proof.
  unfold try_finally, exec. destruct (c s) as [r s1]. simpl.
  pose proof (cleanup_returns paths s1) as H. unfold result in H.
  destruct (cleanup paths s1) as [u s2]. simpl in *. subst u. reflexivity.
Qed.

(** Posting a callback from the worker while the main loop runs. *)
Definition posted (cb : callback) (s : St) : St :=
  with_tk (fun x =>
    set_next_after_id (S (next_after_id (tk s)))
      (set_after_queue
         (after_queue x ++
          [{| timer_id := next_after_id (tk s); due := clock (tk s) + 0;
              action := cb |}]) x)) s.

Lemma after_from_thread_ok (cb : callback) (s : St) :
  mainloop (tk s) = true ->
  after_from_thread cb s = (Ret (next_after_id (tk s)), posted cb s).
Proof.
  intros H. unfold after_from_thread. rewrite bind_unfold. unfold get at 1.
  cbv beta iota. rewrite H. reflexivity.
Qed.

(** *** Stage 1 failing *)

Lemma mkbitmap_cmd_shape (i o : string) (s s' : St) (cmd : list string) :
  mkbitmap_cmd i o s = (Ret cmd, s') ->
  s' = s /\ head cmd = Some "mkbitmap".
Proof.
  unfold mkbitmap_cmd, intvar_get, doublevar_get, var_get. io_unfold.
  intros H. cbv beta iota in H. repeat case_innermost H.
  all: inversion H; subst; repeat split.
Qed.

(** The command line depends on the parameter variables alone. *)
Lemma mkbitmap_cmd_result (i o : string) (s s1 : St) :
  vars (self s1) = vars (self s) ->
  fst (mkbitmap_cmd i o s1) = fst (mkbitmap_cmd i o s).
Proof.
  intros H.
  unfold mkbitmap_cmd, intvar_get, doublevar_get, var_get.
  io_unfold. cbv beta iota. rewrite ?H.
  repeat match goal with
         | |- context [match ?x with _ => _ end] =>
             lazymatch x with
             | context [match _ with _ => _ end] => fail
             | _ => destruct x; cbv beta iota; rewrite ?H
             end
         end; reflexivity.
Qed.

(** The body of [run_mkbitmap] when this run of the tool fails on the file
    system that holds the saved input. *)
Lemma mkbitmap_body_failed (img : Image) (i o : string) (s : St) :
  (forall cmd,
     result (mkbitmap_cmd i o) s = Ret cmd ->
     tool_failed o
       (subprocess_run cmd
          (set_files (<[i := pil_save "BMP" img]> (files (os s))) (os s)))) ->
  match result (mkbitmap_body img i o) s with
  | Ret (Some _) => False
  | _ => True
  end.
Proof.
  intros Hfails.
  unfold result, mkbitmap_body. rewrite bind_unfold.
  unfold write_file at 1. unfold modify at 1. rewrite bind_unfold.
  match goal with
  | |- context [mkbitmap_cmd i o ?s1] =>
      pose proof (mkbitmap_cmd_result i o s s1 eq_refl) as Hsame;
      destruct (mkbitmap_cmd i o s1) as [[cmd|e] s1'] eqn:Ecmd; [|exact I]
  end.
  apply mkbitmap_cmd_shape in Ecmd as (-> & Hhead).
  cbn [fst] in Hsame. symmetry in Hsame.
  pose proof (Hfails cmd Hsame) as Hfail.
  rewrite bind_unfold. unfold run at 1.
  change (os (with_os ?f s)) with (f (os s)). cbv beta.
  destruct (subprocess_run cmd _) as [[[rc err]|e] o'] eqn:Erun; [|exact I].
  rewrite bind_unfold. unfold exists_ at 1. io_unfold. cbn.
  destruct Hfail as [Hrc | Hmissing].
  - apply Z.eqb_neq in Hrc. rewrite Hrc. exact I.
  - rewrite Hmissing, andb_false_r. exact I.
Qed.

(** [run_mkbitmap] returns [None] when there is no image, and when this run
    of the tool fails. *)
Lemma run_mkbitmap_failed (s : St) :
  let i := temp_name ".bmp" (files (os s)) in
  let o := temp_name ".pbm" (<[i := EmptyString]> (files (os s))) in
  (forall image cmd,
     current_image (self s) = Some image ->
     result (mkbitmap_cmd i o) s = Ret cmd ->
     tool_failed o (subprocess_run cmd (mkbitmap_staged s image i o))) ->
  result run_mkbitmap s = Ret None.
Proof.
  cbv zeta. intros Hfails.
  unfold result, run_mkbitmap. rewrite bind_unfold. unfold modify at 1.
  rewrite bind_unfold. unfold get at 1. cbv beta iota.
  change (current_image (self (with_ghost _ s))) with (current_image (self s)).
  destruct (current_image (self s)) as [image|] eqn:Eimg; [|reflexivity].
  rewrite try_catch_unfold, bind_unfold, mkstemp_unfold, bind_unfold,
    mkstemp_unfold, try_finally_cleanup.
  match goal with
  | |- context [mkbitmap_body ?img ?i ?o ?s2] =>
      assert (Hbody : match result (mkbitmap_body img i o) s2 with
                      | Ret (Some _) => False
                      | _ => True
                      end);
      [ apply mkbitmap_body_failed; intros cmd Hcmd;
        unfold result in Hcmd;
        rewrite (mkbitmap_cmd_result i o s s2 eq_refl) in Hcmd;
        exact (Hfails image cmd eq_refl Hcmd)
      | unfold result in Hbody;
        destruct (mkbitmap_body img i o s2) as [[[img'|]|e] s3] ]
  end; [contradiction | reflexivity | reflexivity].
Qed.

Ltac stage1_assign :=
  idtac;
  match goal with
  | H : only_stage1 ?s0 _ |- only_stage1 ?s0 _ =>
      first
        [ exact H
        | destruct H as (added & Hcalls & Hall);
          eexists (added ++ [_]); split;
          [ cbn; rewrite Hcalls, <- app_assoc; reflexivity
          | apply Forall_app; split;
            [ exact Hall
            | constructor; [first [exact I | assumption] | constructor] ] ] ]
  end.

Lemma only_stage1_mkbitmap_body (s0 : St) (img : Image) (i o : string) :
  preserves (only_stage1 s0) (mkbitmap_body img i o).
Proof.
  unfold mkbitmap_body.
  apply preserves_bind; [pres stage1_assign | intros _].
  apply preserves_bind_result; [unfold mkbitmap_cmd; pres stage1_assign|].
  intros cmd s s' Hcmd.
  apply mkbitmap_cmd_shape in Hcmd as (_ & Hhead).
  pres stage1_assign.
Qed.

#[local] Hint Resolve only_stage1_mkbitmap_body : pres.

Lemma only_stage1_run_mkbitmap (s0 : St) :
  preserves (only_stage1 s0) run_mkbitmap.
Proof. unfold run_mkbitmap. pres stage1_assign. Qed.

(** C4. Whenever the preprocessing stage fails on a run of the worker (on
    the command line [run_mkbitmap] builds and the files it has prepared,
    mkbitmap exits non-zero, or the call raises as on a timeout, or its output
    file is missing; or there is no image at all), [run_mkbitmap] returns
    [None], and the worker, with the main loop running to take its messages,
    posts the Stage 1 failure and the status "Mkbitmap failed", makes no call
    that belongs to Stage 2, and leaves [processing] false. What the tool
    would do on another command or another file system plays no part. *)
Theorem C4_mkbitmap_failure_stops_pipeline (s : St) :
  mainloop (tk s) = true ->
  let input_path := temp_name ".bmp" (files (os s)) in
  let output_path :=
    temp_name ".pbm" (<[input_path := EmptyString]> (files (os s))) in
  (forall image cmd,
     current_image (self s) = Some image ->
     result (mkbitmap_cmd input_path output_path) s = Ret cmd ->
     tool_failed output_path
       (subprocess_run cmd
          (mkbitmap_staged s image input_path output_path))) ->
  let s' := exec process_pipeline s in
  let i := next_after_id (tk s) in
  let now := clock (tk s) + 0 in
  result run_mkbitmap
    (posted (UpdatePipelineStatus
               "🔄 Stage 1: Running mkbitmap preprocessing...") s) = Ret None
  /\ after_queue (tk s') =
       after_queue (tk s) ++
       [ {| timer_id := i; due := now;
            action := UpdatePipelineStatus
                        "🔄 Stage 1: Running mkbitmap preprocessing..." |};
         {| timer_id := S i; due := now;
            action := UpdatePipelineStatus
                        "❌ Stage 1: Mkbitmap preprocessing failed" |};
         {| timer_id := S (S i); due := now;
            action := SetStatus "❌ Mkbitmap failed" |} ]
  /\ only_stage1 s s'
  /\ (~ In CallRunPotrace (calls (ghost s)) ->
      ~ In CallRunPotrace (calls (ghost s')))
  /\ processing (self s') = false.
Proof.
  intros Hloop input_path output_path Hfails. cbv zeta.
  set (s1 := posted
               (UpdatePipelineStatus
                  "🔄 Stage 1: Running mkbitmap preprocessing...") s).
  assert (Hnone : result run_mkbitmap s1 = Ret None).
  { apply run_mkbitmap_failed. intros image cmd Himg Hcmd.
    unfold result in Hcmd.
    rewrite (mkbitmap_cmd_result _ _ s s1 eq_refl) in Hcmd.
    exact (Hfails image cmd Himg Hcmd). }
  split; [exact Hnone|].
  rewrite process_pipeline_exec.
  assert (Hexec : exists s2,
             exec (try_catch pipeline_body pipeline_handler) s =
               posted (SetStatus "❌ Mkbitmap failed")
                 (posted (UpdatePipelineStatus
                            "❌ Stage 1: Mkbitmap preprocessing failed") s2)
             /\ core_of s2 = core_of s1 /\ only_stage1 s1 s2).
  { pose proof (framed_core run_mkbitmap s1 framed_run_mkbitmap) as Hcore.
    pose proof (only_stage1_run_mkbitmap s1 s1) as Hcalls.
    unfold exec at 1. unfold pipeline_body.
    rewrite try_catch_unfold, bind_unfold, after_from_thread_ok by exact Hloop.
    rewrite bind_unfold. fold s1.
    unfold result, exec in Hnone, Hcore, Hcalls.
    destruct (run_mkbitmap s1) as [r s2]. simpl in Hnone, Hcore, Hcalls.
    subst r. exists s2.
    assert (Hloop2 : mainloop (tk s2) = true).
    { unfold core_of in Hcore. injection Hcore. intros. subst s1.
      simpl in *. congruence. }
    rewrite bind_unfold, (after_from_thread_ok _ s2 Hloop2), bind_unfold,
      after_from_thread_ok by exact Hloop2.
    split; [reflexivity|]. split; [exact Hcore|].
    apply Hcalls. exists []. rewrite app_nil_r.
    split; [reflexivity|constructor]. }
  destruct Hexec as (s2 & -> & Hcore & added & Hadd & Hok).
  unfold core_of in Hcore. injection Hcore. intros. subst s1. simpl in *.
  repeat split.
  - repeat match goal with
           | H : _ (tk s2) = _ |- _ => rewrite H
           end.
    rewrite <- !app_assoc. reflexivity.
  - exists added. split; assumption.
  - rewrite Hadd.
    intros Hnot [Hin | Hin]%in_app_or; [exact (Hnot Hin)|].
    rewrite Forall_forall in Hok. apply list_elem_of_In in Hin.
    exact (Hok _ Hin).
Qed.

(** *** Stage 2: the result of [run_potrace] and its temporary files *)

Lemma potrace_cmd_state (i o : string) (s : St) :
  snd (potrace_cmd i o s) = s.
Proof.
  unfold potrace_cmd, stringvar_get, intvar_get, doublevar_get, var_get.
  io_unfold.
  repeat match goal with
         | |- context [match ?x with _ => _ end] =>
             lazymatch x with
             | context [match _ with _ => _ end] => fail
             | _ => destruct x
             end
         end; reflexivity.
Qed.

(** The command line depends on the parameter variables alone. *)
Lemma potrace_cmd_result (i o : string) (s s1 : St) :
  vars (self s1) = vars (self s) ->
  fst (potrace_cmd i o s1) = fst (potrace_cmd i o s).
Proof.
  intros H.
  unfold potrace_cmd, stringvar_get, intvar_get, doublevar_get, var_get.
  io_unfold. cbv beta iota. rewrite ?H.
  repeat match goal with
         | |- context [match ?x with _ => _ end] =>
             lazymatch x with
             | context [match _ with _ => _ end] => fail
             | _ => destruct x; cbv beta iota; rewrite ?H
             end
         end; reflexivity.
Qed.

(** One round of the cleanup loop. *)
Lemma cleanup_path (path : string) (s : St) :
  try_catch (there ← exists_ path; if there : bool then unlink path else mret tt)
    (fun _ => mret tt) s =
  (Ret tt, match files (os s) !! path with
           | Some _ => with_os (fun o => set_files (delete path (files o)) o) s
           | None => s
           end).
Proof.
  unfold exists_, unlink, path_exists. io_unfold. cbv beta iota.
  destruct (files (os s) !! path) as [c|] eqn:Efile.
  - rewrite bool_decide_true by eauto. simpl. rewrite Efile. reflexivity.
  - rewrite bool_decide_false by (intros [? ?]; congruence). simpl.
    destruct (bool_decide (path ∈ dirs (os s))); simpl; rewrite ?Efile;
      reflexivity.
Qed.

(** After the cleanup loop none of its paths names a file, and the other
    files are as they were. *)
Lemma cleanup_files (paths : list string) (s : St) (p : string) :
  files (os (exec (cleanup paths) s)) !! p =
    if bool_decide (p ∈ paths) then None else files (os s) !! p.
Proof.
  revert s. induction paths as [|path rest IH]; intros s; [reflexivity|].
  unfold exec in *. simpl. rewrite bind_unfold, cleanup_path, IH.
  rewrite (bool_decide_ext (p ∈ path :: rest) (p = path \/ p ∈ rest))
    by set_solver.
  destruct (decide (p = path)) as [->|Hne].
  - rewrite (bool_decide_true (path = path \/ _)) by auto.
    destruct (bool_decide (path ∈ rest)); [reflexivity|].
    destruct (files (os s) !! path) eqn:E; simpl;
      [apply lookup_delete_eq | exact E].
  - rewrite (bool_decide_ext (p = path \/ p ∈ rest) (p ∈ rest)) by tauto.
    destruct (bool_decide (p ∈ rest)); [reflexivity|].
    destruct (files (os s) !! path); simpl;
      [apply lookup_delete_ne; congruence | reflexivity].
Qed.

(** [potrace_body], case by case. *)
Lemma potrace_body_unfold (image : Image) (i o : string) (s : St) :
  potrace_body image i o s =
    let s1 := with_os (fun x =>
                set_files (<[i := pil_save "PPM" (potrace_input image)]>
                             (files x)) x) s in
    match fst (potrace_cmd i o s1) with
    | Raise e => (Raise e, s1)
    | Ret cmd =>
        let '(r, o') := subprocess_run cmd (os s1) in
        let s2 := with_ghost (log_call (CallExec cmd))
                    (with_os (fun _ => o') s1) in
        match r with
        | Raise e => (Raise e, s2)
        | Ret (rc, err) =>
            if (rc =? 0) && path_exists o' o then
              match files o' !! o with
              | None => (Raise FileNotFoundError, s2)
              | Some bytes =>
                  match decode_text bytes with
                  | Raise e => (Raise e, s2)
                  | Ret text =>
                      let copy := temp_name ".svg" (files o') in
                      (Ret (Some copy, Some text),
                       with_os (fun x =>
                         set_files (<[copy := encode_utf8 text]>
                                      (<[copy := EmptyString]> (files x))) x)
                         s2)
                  end
              end
            else (Ret (None, None), s2)
        end
    end.
Proof.
  unfold potrace_body. fold (potrace_input image).
  rewrite bind_unfold. unfold write_file at 1, modify at 1. cbv beta iota zeta.
  rewrite bind_unfold.
  match goal with
  | |- context [potrace_cmd i o ?s1] =>
      pose proof (potrace_cmd_state i o s1) as Hst;
      destruct (potrace_cmd i o s1) as [[cmd|e] s1'] eqn:Ecmd;
      simpl in Hst; subst s1'; simpl
  end; [|reflexivity].
  rewrite bind_unfold. unfold run at 1. simpl.
  destruct (subprocess_run cmd _) as [[[rc err]|e] o']; [|reflexivity].
  rewrite bind_unfold. unfold exists_ at 1. rewrite bind_unfold.
  unfold get at 1. cbv beta iota. unfold mret at 1, io_mret, io_ret.
  cbv beta iota. simpl.
  destruct ((rc =? 0) && path_exists o' o); [|reflexivity].
  rewrite bind_unfold. unfold read_file at 1. rewrite bind_unfold.
  unfold get at 1. cbv beta iota. simpl.
  destruct (files o' !! o) as [bytes|]; [|reflexivity].
  unfold mret at 1, io_mret, io_ret. cbv beta iota.
  rewrite bind_unfold. unfold lift at 1. cbv beta iota.
  destruct (decode_text bytes) as [text|e]; reflexivity.
Qed.

Section TempNames.

(** A temporary name is new, and ends with the suffix asked for. *)
Hypothesis temp_name_fresh :
  forall suffix fs, fs !! temp_name suffix fs = None.
Hypothesis temp_name_suffix :
  forall suffix fs, Str.ends_with suffix (temp_name suffix fs) = true.

Lemma svg_is_not_pbm (p q : string) :
  Str.ends_with ".svg" p = true -> Str.ends_with ".pbm" q = true -> p <> q.
Proof.
  intros Hp Hq ->. unfold Str.ends_with in *.
  change (Str.reverse ".svg") with "gvs." in Hp.
  change (Str.reverse ".pbm") with "mbp." in Hq.
  destruct (Str.reverse q) as [|c r]; [discriminate|].
  cbn [Str.prefix_of] in Hp, Hq.
  apply andb_prop in Hp as [Hp _]. apply andb_prop in Hq as [Hq _].
  apply Ascii.eqb_eq in Hp, Hq. congruence.
Qed.

Lemma run_potrace_unfold (image : Image) (s : St) :
  let i := temp_name ".pbm" (files (os s)) in
  let o := temp_name ".svg" (<[i := EmptyString]> (files (os s))) in
  let s2 := with_os (fun x => set_files (<[o := EmptyString]> (files x)) x)
              (with_os (fun x => set_files (<[i := EmptyString]> (files x)) x)
                 (with_ghost (log_call CallRunPotrace) s)) in
  run_potrace (Some image) s =
    (match fst (potrace_body image i o s2) with
     | Ret r => Ret r
     | Raise _ => Ret (None, None)
     end,
     exec (cleanup [i; o]) (snd (potrace_body image i o s2))).
Proof.
  cbv zeta. unfold run_potrace. rewrite bind_unfold. unfold modify at 1.
  cbv beta iota.
  rewrite try_catch_unfold, bind_unfold, mkstemp_unfold, bind_unfold,
    mkstemp_unfold, try_finally_cleanup.
  simpl. destruct (potrace_body _ _ _ _) as [[r|e] s3]; reflexivity.
Qed.

(** C5. [run_potrace] on a bitmap never raises, and returns either
    [(None, None)] or the path of a new file together with the SVG text that
    file holds ([temp_svg.name, svg_content]); that file is neither of the two
    temporary files, which are gone when the function returns, whatever
    happened. The result is [(None, None)] when running potrace raises, when
    it exits non-zero and when its output file is missing; it is the text
    with its copy when potrace exits zero and its output file is there and
    holds text. *)
Theorem C5_run_potrace_result_and_cleanup (s : St) (image : Image) :
  let input_path := temp_name ".pbm" (files (os s)) in
  let output_path :=
    temp_name ".svg" (<[input_path := EmptyString]> (files (os s))) in
  let res := result (run_potrace (Some image)) s in
  let s' := exec (run_potrace (Some image)) s in
  files (os s') !! input_path = None
  /\ files (os s') !! output_path = None
  /\ (res = Ret (None, None)
      \/ exists copy svg_content,
           res = Ret (Some copy, Some svg_content)
           /\ files (os s') !! copy = Some (encode_utf8 svg_content)
           /\ copy <> input_path /\ copy <> output_path)
  /\ forall cmd,
       result (potrace_cmd input_path output_path) s = Ret cmd ->
       match subprocess_run cmd (staged s image input_path output_path) with
       | (Raise _, _) => res = Ret (None, None)
       | (Ret (rc, _), o') =>
           (rc <> 0 \/ path_exists o' output_path = false ->
            res = Ret (None, None))
           /\ (rc = 0 ->
               forall bytes svg_content,
                 files o' !! output_path = Some bytes ->
                 decode_text bytes = Ret svg_content ->
                 res = Ret (Some (temp_name ".svg" (files o')),
                            Some svg_content))
       end.
Proof.
  cbv zeta. unfold result, exec.
  pose proof (run_potrace_unfold image s) as Hrun. cbv zeta in Hrun.
  rewrite Hrun. clear Hrun. cbn [fst snd].
  set (i := temp_name ".pbm" (files (os s))).
  set (o := temp_name ".svg" (<[i:=EmptyString]> (files (os s)))).
  match goal with
  | |- context [match ?b with Ret r => Ret r | Raise _ => _ end] =>
      set (res0 := match b with Ret r => Ret r | Raise _ => Ret (None, None) end)
  end.
  split; [|split].
  - change (files (os (exec (cleanup [i; o]) ?x)) !! i)
      with (files (os (exec (cleanup [i; o]) x)) !! i).
    fold (exec (cleanup [i; o])).
    rewrite cleanup_files, bool_decide_true by set_solver. reflexivity.
  - fold (exec (cleanup [i; o])).
    rewrite cleanup_files, bool_decide_true by set_solver. reflexivity.
  - fold (exec (cleanup [i; o])). subst res0.
    rewrite potrace_body_unfold. cbv zeta.
    match goal with
    | |- context [fst (potrace_cmd i o ?s1)] =>
        rewrite (potrace_cmd_result i o s s1) by reflexivity
    end.
    unfold result.
    destruct (fst (potrace_cmd i o s)) as [cmd|e];
      [|split; [left; reflexivity | discriminate]].
    change (os (with_os _ _)) with (staged s image i o).
    match goal with
    | |- context [match ?b with Ret r => Ret r | Raise _ => _ end] =>
        set (res0 := match b with Ret r => Ret r | Raise _ => Ret (None, None) end)
    end.
    match goal with
    | |- ?shape /\ _ =>
        enough (Hmain : shape /\
                  match subprocess_run cmd (staged s image i o) with
                  | (Raise _, _) => res0 = Ret (None, None)
                  | (Ret (rc, _), o') =>
                      (rc <> 0 \/ path_exists o' o = false ->
                       res0 = Ret (None, None))
                      /\ (rc = 0 ->
                          forall bytes svg_content,
                            files o' !! o = Some bytes ->
                            decode_text bytes = Ret svg_content ->
                            res0 = Ret (Some (temp_name ".svg" (files o')),
                                        Some svg_content))
                  end)
          by (split; [apply Hmain | intros ? [= <-]; apply Hmain])
    end.
    subst res0.
    destruct (subprocess_run cmd (staged s image i o)) as [[[rc err]|e] o'];
      cbn [fst snd].
    2: { split; [left; reflexivity | reflexivity]. }
    destruct (rc =? 0) eqn:Erc; cbn [andb].
    2: { split; [left; reflexivity|].
         apply Z.eqb_neq in Erc. split; [reflexivity | contradiction]. }
    apply Z.eqb_eq in Erc. subst rc.
    destruct (path_exists o' o) eqn:Ethere.
    2: { split; [left; reflexivity|].
         split; [reflexivity|]. intros _ bytes text Hfile.
         unfold path_exists in Ethere. rewrite Hfile in Ethere.
         rewrite bool_decide_true in Ethere by eauto. discriminate. }
    destruct (files o' !! o) as [bytes|] eqn:Efile.
    2: { split; [left; reflexivity|].
         split; [intros [?|?]; [lia | congruence] | discriminate]. }
    destruct (decode_text bytes) as [text|e] eqn:Edec.
    2: { split; [left; reflexivity|].
         split; [intros [?|?]; [lia | congruence]|].
         intros _ ? ? [= <-]. congruence. }
    set (copy := temp_name ".svg" (files o')).
    assert (Hi : copy <> i)
      by (apply svg_is_not_pbm; apply temp_name_suffix).
    assert (Ho : copy <> o).
    { intros Heq. pose proof (temp_name_fresh ".svg" (files o')) as Hfresh.
      fold copy in Hfresh. rewrite Heq in Hfresh. congruence. }
    split.
    + right. exists copy, text. repeat split; try assumption.
      rewrite cleanup_files, bool_decide_false by set_solver.
      simpl. apply lookup_insert_eq.
    + split; [intros [?|?]; [lia | congruence]|].
      intros _ ? ? [= <-] Hd. rewrite Edec in Hd. injection Hd as <-.
      reflexivity.
Qed.

End TempNames.

(** *** The path bridge *)

Lemma length_app (a b : string) :
  String.length (a ++ b) = (String.length a + String.length b)%nat.
Proof. induction a as [|c a IH]; simpl; [reflexivity | rewrite IH; reflexivity]. Qed.

(** The project's temp directory can be had: it is there, or its parent is
    and no file is in the way. *)
Definition project_temp_ready (o : Os) : Prop :=
  wsl_temp_dir ∈ dirs o
  \/ (project_root ∈ dirs o /\ files o !! wsl_temp_dir = None).

Lemma mkdir_project_temp (s : St) :
  project_temp_ready (os s) ->
  exists s1,
    mkdir_exist_ok project_root "temp" s = (Ret tt, s1)
    /\ files (os s1) = files (os s)
    /\ wsl_temp_dir ∈ dirs (os s1)
    /\ (forall d, d ∈ dirs (os s1) -> d = wsl_temp_dir \/ d ∈ dirs (os s)).
Proof.
  intros Hready. unfold mkdir_exist_ok. rewrite bind_unfold. unfold get at 1.
  cbv beta iota. fold wsl_temp_dir.
  destruct (decide (wsl_temp_dir ∈ dirs (os s))) as [Hin|Hout].
  - rewrite bool_decide_true by exact Hin. exists s. auto.
  - rewrite bool_decide_false by exact Hout.
    destruct Hready as [Hin | [Hroot Hfile]]; [contradiction|].
    rewrite Hfile.
    rewrite bool_decide_false by (intros [? ?]; discriminate).
    rewrite bool_decide_true by exact Hroot.
    eexists. split; [reflexivity|]. simpl.
    split; [reflexivity|]. split; [set_solver|]. set_solver.
Qed.

(** C7. A path with one of the substrings [Temp], [temp], [tmp] whose file
    exists is bridged by a copy: the project's temp directory is there
    afterwards, the file [temp_<basename>] in it holds the content of the
    original, and the bridged path is that copy's path with [/] for [\] and
    [/mnt/g] for [G:], so it lies under the project's temp directory and
    depends on the original path through its base name only. A path with none
    of the substrings is bridged by substitution alone, the state
    untouched. *)
Theorem C7_temp_path_is_bridged_by_a_copy (s : St)
    (svg_path content : string) :
  is_temp_path svg_path = true ->
  files (os s) !! svg_path = Some content ->
  project_temp_ready (os s) ->
  let copy :=
    WinPath.join wsl_temp_dir ("temp_" ++ WinPath.basename svg_path) in
  copy ∉ dirs (os s) ->
  let s' := exec (bridge_svg_path svg_path) s in
  result (bridge_svg_path svg_path) s =
    Ret (Str.replace "G:" "/mnt/g" (Str.replace "\" "/" copy))
  /\ Str.replace "G:" "/mnt/g" (Str.replace "\" "/" copy) =
       ("/mnt/g/Claude Wargame Icon Generator/WWII Silhouette Icon System/temp/temp_"
        ++ Str.replace "G:" "/mnt/g"
             (Str.replace "\" "/" (WinPath.basename svg_path)))%string
  /\ wsl_temp_dir ∈ dirs (os s')
  /\ files (os s') !! copy = Some content
  /\ (forall other : string,
        is_temp_path other = false ->
        bridge_svg_path other s =
          (Ret (Str.replace "G:" "/mnt/g"
                  (Str.replace "C:" "/mnt/c" (Str.replace "\" "/" other))),
           s)).
Proof.
  intros Htemp Hfile Hready copy Hcopy. cbv zeta.
  assert (Hother : forall other : string,
             is_temp_path other = false ->
             bridge_svg_path other s =
               (Ret (Str.replace "G:" "/mnt/g"
                       (Str.replace "C:" "/mnt/c"
                          (Str.replace "\" "/" other))), s)).
  { intros other Hno. unfold bridge_svg_path. rewrite Hno. reflexivity. }
  destruct (mkdir_project_temp s Hready) as (s1 & Hmk & Hfiles & Hdir & Hdirs).
  assert (Hcopy1 : copy ∉ dirs (os s1)).
  { intros Hin. destruct (Hdirs _ Hin) as [Heq | Hold]; [|contradiction].
    apply (f_equal String.length) in Heq. unfold copy, WinPath.join in Heq.
    rewrite length_app in Heq. simpl in Heq. lia. }
  assert (Hrun : bridge_svg_path svg_path s =
            (Ret (Str.replace "G:" "/mnt/g" (Str.replace "\" "/" copy)),
             with_os (fun o => set_files (<[copy := content]> (files o)) o)
               s1)).
  { unfold bridge_svg_path. rewrite Htemp.
    rewrite bind_unfold, Hmk. cbv beta iota. fold copy.
    rewrite bind_unfold. unfold copy2. rewrite bind_unfold.
    unfold read_file at 1. rewrite bind_unfold. unfold get at 1.
    cbv beta iota. rewrite Hfiles, Hfile.
    unfold mret at 1, io_mret, io_ret. cbv beta iota.
    rewrite bind_unfold. unfold get at 1. cbv beta iota.
    rewrite bool_decide_false by exact Hcopy1.
    reflexivity. }
  unfold result, exec. rewrite Hrun. cbn [fst snd].
  split; [reflexivity|]. split; [reflexivity|].
  split; [exact Hdir|]. simpl.
  split; [apply lookup_insert_eq | exact Hother].
Qed.

(** *** The parameter variables *)

Ltac vars_assign :=
  idtac;
  match goal with
  | H : vars (self _) = ?m |- vars (self _) = ?m => exact H
  end.

Lemma vars_on_parameter_change (m : gmap string value) :
  preserves (fun s => vars (self s) = m) on_parameter_change.
Proof. unfold on_parameter_change. pres vars_assign. Qed.

Lemma vars_start_processing (m : gmap string value) :
  preserves (fun s => vars (self s) = m) start_processing.
Proof. unfold start_processing. pres vars_assign. Qed.

#[local] Hint Resolve vars_on_parameter_change vars_start_processing : pres.

Lemma on_parameter_change_returns (s : St) :
  result on_parameter_change s = Ret tt.
Proof.
  unfold result, on_parameter_change, after, after_cancel. io_unfold.
  cbv beta iota.
  destruct (live_preview (self s) && _ && _); [|reflexivity].
  destruct (parameter_change_job (self s)); reflexivity.
Qed.

Lemma var_set_traced_run (param : string) (v : value) (s : St) :
  exists s1,
    var_set_traced param v s = (Ret tt, s1)
    /\ vars (self s1) = <[param := v]> (vars (self s)).
Proof.
  unfold var_set_traced. rewrite bind_unfold. unfold var_set, modify at 1.
  cbv beta iota.
  destruct (traced param).
  - match goal with
    | |- context [on_parameter_change ?s0] =>
        pose proof (on_parameter_change_returns s0) as Hret;
        pose proof (vars_on_parameter_change _ s0 eq_refl) as Hvars;
        unfold result, exec in Hret, Hvars;
        destruct (on_parameter_change s0) as [r s1]; simpl in Hret, Hvars;
        subst r; exists s1; split; [reflexivity | exact Hvars]
    end.
  - eexists. split; reflexivity.
Qed.

Definition assign (m : gmap string value) (kv : string * value)
    : gmap string value :=
  <[fst kv := snd kv]> m.

Lemma set_all_run (items : list (string * value)) (s : St) :
  exists s1,
    set_all items s = (Ret tt, s1)
    /\ vars (self s1) = foldl assign (vars (self s)) items.
Proof.
  revert s. induction items as [|[param v] items IH]; intros s.
  - exists s. split; reflexivity.
  - destruct (var_set_traced_run param v s) as (s1 & Hrun & Hvars).
    destruct (IH s1) as (s2 & Hrest & Hvars2).
    exists s2. simpl. rewrite bind_unfold, Hrun. split; [exact Hrest|].
    rewrite Hvars2, Hvars. reflexivity.
Qed.

Lemma reset_parameters_vars (s : St) :
  vars (self (exec reset_parameters s)) =
    foldl assign (vars (self s)) default_values.
Proof.
  destruct (set_all_run default_values s) as (s1 & Hrun & Hvars).
  unfold exec, reset_parameters. rewrite bind_unfold, Hrun.
  rewrite <- Hvars.
  match goal with
  | |- vars (self (snd (?c s1))) = _ =>
      enough (Hp : preserves (fun s0 => vars (self s0) = vars (self s1)) c)
        by exact (Hp s1 eq_refl)
  end.
  pres vars_assign.
Qed.

(** C8. After a preset has been loaded, whichever it was, [reset_parameters]
    leaves every parameter variable at its default: blur 1.0, threshold 0.45,
    scale 2, filter 2, turnpolicy minority, turdsize 2, alphamax 1.0,
    opttolerance 0.2. *)
Theorem C8_reset_restores_every_default (s : St) (preset_name : string) :
  let s' := exec reset_parameters (exec (load_preset preset_name) s) in
  vars (self s') !! "blur" = Some (VFloat (PyFloat.lit "1.0"))
  /\ vars (self s') !! "threshold" = Some (VFloat (PyFloat.lit "0.45"))
  /\ vars (self s') !! "scale" = Some (VInt 2)
  /\ vars (self s') !! "filter" = Some (VInt 2)
  /\ vars (self s') !! "turnpolicy" = Some (VStr "minority")
  /\ vars (self s') !! "turdsize" = Some (VInt 2)
  /\ vars (self s') !! "alphamax" = Some (VFloat (PyFloat.lit "1.0"))
  /\ vars (self s') !! "opttolerance" = Some (VFloat (PyFloat.lit "0.2")).
Proof.
  cbv zeta. rewrite reset_parameters_vars.
  cbv [default_values foldl assign fst snd].
  repeat split;
    repeat (rewrite lookup_insert_ne by discriminate);
    apply lookup_insert_eq.
Qed.

(** *** Debouncing *)

Lemma elem_of_insert_by_due (t u : Timer) (l : list Timer) :
  t ∈ insert_by_due u l <-> t = u \/ t ∈ l.
Proof.
  induction l as [|v l IH]; simpl.
  - set_solver.
  - destruct (due u <=? due v); set_solver.
Qed.

Lemma elem_of_due_timers (t : Timer) (now : Z) (q : list Timer) :
  t ∈ due_timers now q <-> t ∈ q /\ due t <= now.
Proof.
  unfold due_timers.
  assert (H : forall l : list Timer, t ∈ foldr insert_by_due [] l <-> t ∈ l).
  { induction l as [|u l IH]; simpl; [tauto|].
    rewrite elem_of_insert_by_due, IH. set_solver. }
  rewrite H, list_elem_of_filter. tauto.
Qed.

Ltac sched_assign :=
  idtac;
  match goal with
  | H : sched_of _ = ?x |- sched_of _ = ?x => exact H
  end.

Lemma core_sched (s s' : St) :
  core_of s' = core_of s -> sched_of s' = sched_of s.
Proof.
  unfold core_of, sched_of. intros H. injection H. intros.
  repeat match goal with
         | H : ?f (_ s') = _ |- _ => rewrite H; clear H
         end.
  reflexivity.
Qed.

(** A callback other than [start_processing] leaves scheduling alone. *)
Lemma run_callback_quiet (cb : callback) (x : _) :
  is_start cb = false ->
  preserves (fun s => sched_of s = x) (run_callback cb).
Proof.
  intros Hcb. destruct cb; try discriminate; unfold run_callback;
    pres sched_assign.
Qed.

Lemma run_callback_returns (cb : callback) (s : St) :
  result (run_callback cb) s = Ret tt.
Proof.
  unfold result, run_callback. rewrite try_catch_unfold.
  match goal with |- context [match ?c with _ => _ end] => destruct c as [[[]|e] s1] end;
    reflexivity.
Qed.

Lemma pending_sched (j : nat) (tj : Timer) (x r : nat) (s s' : St) :
  sched_of s' = sched_of s -> pending j tj x r s -> pending j tj x r s'.
Proof.
  unfold sched_of, pending. intros H. injection H. intros.
  repeat match goal with
         | H : ?f (_ s') = _ |- _ => rewrite H; clear H
         | H : bool_decide _ = bool_decide _ |- _ => rewrite H; clear H
         end.
  assumption.
Qed.

Lemma fire_skip (t : Timer) (s : St) :
  timer_id t ∉ map timer_id (after_queue (tk s)) -> fire t s = (Ret tt, s).
Proof.
  intros H. unfold fire. rewrite bind_unfold. unfold get at 1.
  cbv beta iota. rewrite bool_decide_false by exact H. reflexivity.
Qed.

(** The state in which the callback of a fired timer starts. *)
Definition taken (t : Timer) (s : St) : St :=
  with_ghost (log_fired (timer_id t))
    (with_tk (fun x =>
       set_after_queue
         (filter (fun u => timer_id u ≠ timer_id t) (after_queue x)) x) s).

Lemma fire_run (t : Timer) (s : St) :
  timer_id t ∈ map timer_id (after_queue (tk s)) ->
  fire t s = run_callback (action t) (taken t s).
Proof.
  intros H. unfold fire. rewrite bind_unfold. unfold get at 1.
  cbv beta iota. rewrite bool_decide_true by exact H. reflexivity.
Qed.

Lemma fire_returns (t : Timer) (s : St) : result (fire t) s = Ret tt.
Proof.
  destruct (decide (timer_id t ∈ map timer_id (after_queue (tk s)))).
  - unfold result. rewrite fire_run by assumption.
    apply run_callback_returns.
  - unfold result. rewrite fire_skip by assumption. reflexivity.
Qed.

Lemma fire_all_cons (t : Timer) (l : list Timer) (s : St) :
  exec (fire_all (t :: l)) s = exec (fire_all l) (exec (fire t) s).
Proof.
  unfold exec. simpl. rewrite bind_unfold.
  pose proof (fire_returns t s) as H. unfold result in H.
  destruct (fire t s) as [r s1]. simpl in *. subst r. reflexivity.
Qed.

(** What may fire while [tj] is pending: [tj] itself, or a timer that is not
    a run of [start_processing] and has another identifier. *)
Definition may_fire (j : nat) (tj : Timer) (x : nat) (t : Timer) : Prop :=
  timer_id t <> x
  /\ (t = tj \/ (is_start (action t) = false /\ timer_id t <> j)).

Lemma taken_pending (j : nat) (tj : Timer) (x r : nat) (t : Timer) (s : St) :
  timer_id tj = j ->
  timer_id t <> x -> timer_id t <> j ->
  pending j tj x r s -> pending j tj x r (taken t s).
Proof.
  intros Hj Hx Hnj (Hlive & Himg & Hjob & Hxf & Hxq & Honly & Hstate).
  unfold pending, taken. simpl.
  repeat split; try assumption.
  - rewrite elem_of_app, list_elem_of_singleton. intros [?|?]; congruence.
  - intros u [_ Hu]%list_elem_of_filter. apply Hxq, Hu.
  - intros u [_ Hu]%list_elem_of_filter. apply Honly, Hu.
  - destruct Hstate as [(Hp & Hr & Hin & Hnf) | (Hp & Hr & Hin & Hno)].
    + left. repeat split; try assumption.
      * apply list_elem_of_filter. split; [congruence | exact Hin].
      * rewrite elem_of_app, list_elem_of_singleton.
        intros [?|?]; [contradiction | congruence].
    + right. repeat split; try assumption.
      * rewrite elem_of_app. left. exact Hin.
      * intros u [_ Hu]%list_elem_of_filter. apply Hno, Hu.
Qed.

Lemma fire_pending (j : nat) (tj : Timer) (x r : nat) (t : Timer) (s : St) :
  timer_id tj = j -> action tj = StartProcessing ->
  may_fire j tj x t ->
  pending j tj x r s ->
  pending j tj x r (exec (fire t) s)
  /\ (t <> tj -> processing (self (exec (fire t) s)) = processing (self s))
  /\ (t = tj -> served j r (exec (fire t) s)).
Proof.
  intros Hj Hact [Hx Ht] Hpend.
  destruct Ht as [-> | [Hquiet Hnj]].
  - (* the pending run itself *)
    destruct Hpend as (Hlive & Himg & Hjob & Hxf & Hxq & Honly & Hstate).
    destruct Hstate as [(Hp & Hr & Hin & Hnf) | (Hp & Hr & Hin & Hno)].
    + assert (Hid : timer_id tj ∈ map timer_id (after_queue (tk s))).
      { apply list_elem_of_In, in_map, list_elem_of_In, Hin. }
      unfold exec. rewrite fire_run by exact Hid. rewrite Hact.
      unfold run_callback. rewrite try_catch_unfold.
      assert (Hidle : processing (self (taken tj s)) = false) by exact Hp.
      pose proof (start_processing_idle _ Hidle) as Hexec.
      unfold exec in Hexec.
      destruct (start_processing (taken tj s)) as [[[]|e] s1];
        simpl in Hexec; subst s1; simpl.
      all: split; [|split; [congruence|]].
      all: try (intros _; repeat split; try assumption;
                try (cbn; congruence);
                cbn; rewrite elem_of_app, list_elem_of_singleton; auto).
      all: unfold pending; cbn; repeat split; try assumption.
      all: try (rewrite elem_of_app, list_elem_of_singleton;
                intros [?|?]; congruence).
      all: try (intros u [_ Hu]%list_elem_of_filter; first [apply Hxq, Hu | apply Honly, Hu]).
      all: right; repeat split; try congruence.
      all: try (rewrite elem_of_app, list_elem_of_singleton; auto).
      all: intros u [Hu _]%list_elem_of_filter; congruence.
    + assert (Hid : timer_id tj ∉ map timer_id (after_queue (tk s))).
      { intros (u & Hu & Huin)%list_elem_of_fmap. apply (Hno u Huin). congruence. }
      unfold exec. rewrite fire_skip by exact Hid. simpl.
      split; [|split; [reflexivity|]].
      * unfold pending. repeat split; try assumption. right. auto.
      * intros _. repeat split; assumption.
  - (* another callback *)
    assert (Hne : t <> tj) by (intros ->; rewrite Hact in Hquiet; discriminate).
    destruct (decide (timer_id t ∈ map timer_id (after_queue (tk s)))) as [Hid|Hid].
    + unfold exec. rewrite fire_run by exact Hid.
      pose proof (run_callback_quiet (action t) (sched_of (taken t s)) Hquiet
                    (taken t s) eq_refl) as Hsched.
      unfold exec in Hsched.
      split; [|split; [|contradiction]].
      * eapply pending_sched; [exact Hsched|].
        apply taken_pending; assumption.
      * intros _. unfold sched_of in Hsched. injection Hsched. intros.
        assumption.
    + unfold exec. rewrite fire_skip by exact Hid. simpl.
      split; [exact Hpend|]. split; [reflexivity | contradiction].
Qed.

Lemma fire_all_pending (j : nat) (tj : Timer) (x r : nat) (l : list Timer) :
  timer_id tj = j -> action tj = StartProcessing ->
  forall s,
    (forall t, t ∈ l -> may_fire j tj x t) ->
    pending j tj x r s ->
    pending j tj x r (exec (fire_all l) s)
    /\ (processing (self s) = true ->
        processing (self (exec (fire_all l) s)) = true)
    /\ (tj ∉ l ->
        processing (self (exec (fire_all l) s)) = processing (self s))
    /\ (tj ∈ l -> processing (self (exec (fire_all l) s)) = true).
Proof.
  intros Hj Hact. induction l as [|t l IH]; intros s Hl Hpend.
  - split; [exact Hpend|]. split; [tauto|]. split; [reflexivity|].
    intros Hin. apply elem_of_nil in Hin. contradiction.
  - rewrite fire_all_cons.
    pose proof (Hl t (list_elem_of_here t l)) as Hmay.
    destruct (fire_pending j tj x r t s Hj Hact Hmay Hpend)
      as (Hp1 & Hsame & Hserved).
    assert (Hl' : forall u, u ∈ l -> may_fire j tj x u)
      by (intros u Hu; apply Hl, list_elem_of_further, Hu).
    destruct (IH (exec (fire t) s) Hl' Hp1) as (Hp2 & Hkeep & Hnot & Hin).
    assert (Hdec : t = tj \/ t <> tj).
    { destruct Hmay as [_ [Heq | [Hq _]]]; [auto|].
      right. intros ->. rewrite Hact in Hq. discriminate. }
    split; [exact Hp2|]. split; [|split].
    + intros Htrue. apply Hkeep.
      destruct Hdec as [Heq | Hne];
        [apply (Hserved Heq) | rewrite (Hsame Hne); exact Htrue].
    + intros [Hne Hnotin]%not_elem_of_cons.
      rewrite (Hnot Hnotin). apply Hsame. congruence.
    + intros [Heq | Hin']%elem_of_cons.
      * apply Hkeep, Hserved. congruence.
      * apply Hin, Hin'.
Qed.

(** Identifiers stay below [n] and the clock at [c] while timers fire. *)
Definition bounded (n : nat) (c : Z) (s : St) : Prop :=
  next_after_id (tk s) = n /\ clock (tk s) = c
  /\ (forall t, t ∈ after_queue (tk s) -> (timer_id t < n)%nat)
  /\ (forall i, i ∈ fired (ghost s) -> (i < n)%nat).

Lemma bounded_sched (n : nat) (c : Z) (s s' : St) :
  sched_of s' = sched_of s -> bounded n c s -> bounded n c s'.
Proof.
  unfold sched_of, bounded. intros H. injection H. intros.
  repeat match goal with
         | H : ?f (_ s') = _ |- _ => rewrite H; clear H
         end.
  assumption.
Qed.

Lemma fire_bounded (n : nat) (c : Z) (t : Timer) :
  preserves (bounded n c) (fire t).
Proof.
  intros s Hb.
  destruct (decide (timer_id t ∈ map timer_id (after_queue (tk s)))) as [Hid|Hid].
  2: { unfold exec. rewrite fire_skip by exact Hid. exact Hb. }
  assert (Htaken : bounded n c (taken t s)).
  { destruct Hb as (Hn & Hc & Hq & Hf). unfold bounded, taken. simpl.
    repeat split; try assumption.
    - intros u [_ Hu]%list_elem_of_filter. apply Hq, Hu.
    - intros i [Hi | ->%list_elem_of_singleton]%elem_of_app; [apply Hf, Hi|].
      apply list_elem_of_fmap in Hid as (u & -> & Hu). apply Hq, Hu. }
  unfold exec. rewrite fire_run by exact Hid.
  destruct (is_start (action t)) eqn:Hstart.
  - destruct (action t); try discriminate.
    unfold run_callback. rewrite try_catch_unfold.
    destruct (processing (self (taken t s))) eqn:Hp.
    + rewrite start_processing_busy by exact Hp. exact Htaken.
    + pose proof (start_processing_idle _ Hp) as Hexec. unfold exec in Hexec.
      destruct (start_processing (taken t s)) as [[[]|e] s1];
        simpl in Hexec; subst s1; exact Htaken.
  - eapply bounded_sched; [|exact Htaken].
    apply (run_callback_quiet (action t) _ Hstart (taken t s) eq_refl).
Qed.

Lemma fire_all_bounded (n : nat) (c : Z) (l : list Timer) :
  preserves (bounded n c) (fire_all l).
Proof.
  induction l as [|t l IH]; intros s Hb; [exact Hb|].
  rewrite fire_all_cons. apply IH, fire_bounded, Hb.
Qed.

Lemma advance_exec (now : Z) (s : St) :
  exec (advance now) s =
    exec (fire_all (due_timers (Z.max (clock (tk s)) now) (after_queue (tk s))))
      (with_tk (fun x => set_clock (Z.max (clock x) now) x) s).
Proof. reflexivity. Qed.

(** What [on_parameter_change] does when live preview is on, an image is
    loaded and no run is in progress. *)
Definition rescheduled (s : St) : St :=
  let i := next_after_id (tk s) in
  with_self (set_parameter_change_job (Some i))
    (with_tk (fun x =>
       set_next_after_id (S i)
         (set_after_queue
            (match parameter_change_job (self s) with
             | Some job => filter (fun t => timer_id t ≠ job) (after_queue x)
             | None => after_queue x
             end ++ [job_timer i (clock (tk s))]) x)) s).

Lemma on_parameter_change_exec (s : St) :
  live_preview (self s) = true ->
  bool_decide (is_Some (current_image (self s))) = true ->
  processing (self s) = false ->
  exec on_parameter_change s = rescheduled s.
Proof.
  intros Hlive Himg Hp. unfold exec, on_parameter_change.
  rewrite bind_unfold. unfold get at 1. cbv beta iota.
  rewrite Hlive, Himg, Hp. cbn [andb negb].
  unfold rescheduled.
  destruct (parameter_change_job (self s)) as [job|]; reflexivity.
Qed.

Lemma pending_may_fire (j : nat) (tj : Timer) (x r : nat) (s : St)
    (t : Timer) :
  pending j tj x r s -> t ∈ after_queue (tk s) -> may_fire j tj x t.
Proof.
  intros (_ & _ & _ & _ & Hxq & Honly & _) Hin. split; [apply Hxq, Hin|].
  destruct (is_start (action t)) eqn:Hstart; [left; apply Honly; auto|].
  destruct (decide (timer_id t = j)) as [Hid|Hid];
    [left; apply Honly; auto | right; auto].
Qed.

(** Serving the timers due by [now] while [tj] is pending. *)
Lemma advance_pending (j : nat) (tj : Timer) (x r n : nat) (now : Z) (s : St) :
  timer_id tj = j -> action tj = StartProcessing ->
  pending j tj x r s ->
  bounded n (clock (tk s)) s ->
  let s' := exec (advance now) s in
  pending j tj x r s'
  /\ bounded n (Z.max (clock (tk s)) now) s'
  /\ (Z.max (clock (tk s)) now < due tj ->
      processing (self s') = processing (self s))
  /\ (tj ∈ after_queue (tk s) -> due tj <= Z.max (clock (tk s)) now ->
      processing (self s') = true).
Proof.
  intros Hj Hact Hpend Hb. cbv zeta. rewrite advance_exec.
  set (c := Z.max (clock (tk s)) now).
  set (sc := with_tk (fun x0 => set_clock (Z.max (clock x0) now) x0) s).
  assert (Hpc : pending j tj x r sc) by exact Hpend.
  assert (Hbc : bounded n c sc).
  { destruct Hb as (Hn & _ & Hq & Hf). repeat split; assumption. }
  assert (Hl : forall t, t ∈ due_timers c (after_queue (tk s)) ->
                         may_fire j tj x t).
  { intros t [Hin _]%elem_of_due_timers.
    apply (pending_may_fire j tj x r sc); assumption. }
  destruct (fire_all_pending j tj x r _ Hj Hact sc Hl Hpc)
    as (Hp & _ & Hnot & Hin).
  split; [exact Hp|]. split; [apply fire_all_bounded, Hbc|]. split.
  - intros Hlate. apply Hnot. intros [_ Hdue]%elem_of_due_timers. lia.
  - intros Hq Hdue. apply Hin, elem_of_due_timers. split; assumption.
Qed.

(** C6. Two parameter changes within the 300 ms window, with live preview
    on, an image loaded and no run in progress: the first schedules a run,
    the second cancels that timer and schedules another, and when the main
    loop has passed the second deadline exactly one pipeline run has been
    started; the first timer never fires. *)
Theorem C6_debounce_one_run (s : St) (t2 T : Z) :
  queue_ok s ->
  live_preview (self s) = true ->
  is_Some (current_image (self s)) ->
  processing (self s) = false ->
  clock (tk s) <= t2 < clock (tk s) + 300 ->
  t2 + 300 <= T ->
  let job1 := next_after_id (tk s) in
  let s1 := exec on_parameter_change s in
  let s2 := exec on_parameter_change (exec (advance t2) s1) in
  let s3 := exec (advance T) s2 in
  parameter_change_job (self s1) = Some job1
  /\ (job_timer job1 (clock (tk s)) ∈ after_queue (tk s1))
  /\ parameter_change_job (self s2) = Some (S job1)
  /\ (forall t, t ∈ after_queue (tk s2) -> timer_id t <> job1)
  /\ (job_timer (S job1) t2 ∈ after_queue (tk s2))
  /\ runs (ghost s3) = S (runs (ghost s))
  /\ (job1 ∉ fired (ghost s3))
  /\ (S job1 ∈ fired (ghost s3)).
Proof.
  intros (Hqid & Hfid & Hqjob) Hlive Himg Hidle Ht2 HT. cbv zeta.
  set (i := next_after_id (tk s)). set (c := clock (tk s)).
  set (r := runs (ghost s)).
  assert (Himg' : bool_decide (is_Some (current_image (self s))) = true)
    by (apply bool_decide_eq_true; exact Himg).
  rewrite (on_parameter_change_exec s Hlive Himg' Hidle).
  set (s1 := rescheduled s).
  set (tj1 := job_timer i c).
  (* after the first event *)
  assert (Hq1 : forall t, t ∈ after_queue (tk s1) ->
                 t = tj1 \/ (t ∈ after_queue (tk s)
                             /\ parameter_change_job (self s)
                                <> Some (timer_id t))).
  { intros t. unfold s1, rescheduled. simpl.
    intros [Hin | ->%list_elem_of_singleton]%elem_of_app; [right | left; reflexivity].
    destruct (parameter_change_job (self s)) as [job|].
    - apply list_elem_of_filter in Hin as [Hne Hin]. split; [exact Hin|].
      congruence.
    - split; [exact Hin | discriminate]. }
  assert (Hp1 : pending i tj1 (S i) r s1).
  { unfold pending. repeat split; try assumption.
    - intros Hin. apply Hfid in Hin. fold i in Hin. lia.
    - intros t [-> | [Hin _]]%Hq1; [simpl; lia|].
      apply Hqid in Hin. fold i in Hin. lia.
    - intros t [-> | [Hin Hjob]]%Hq1 Hor; [reflexivity|]. exfalso.
      destruct Hor as [Hstart | Hid].
      + apply Hjob, Hqjob; assumption.
      + apply Hqid in Hin. fold i in Hin. lia.
    - left. repeat split; try assumption.
      + unfold s1, rescheduled. simpl. apply elem_of_app. right.
        apply list_elem_of_singleton. reflexivity.
      + intros Hin. apply Hfid in Hin. fold i in Hin. lia. }
  assert (Hb1 : bounded (S i) (clock (tk s1)) s1).
  { repeat split.
    - intros t [-> | [Hin _]]%Hq1; [simpl; lia|].
      apply Hqid in Hin. fold i in Hin. lia.
    - intros f Hin. apply Hfid in Hin. fold i in Hin. lia. }
  (* the main loop reaches the second event *)
  destruct (advance_pending i tj1 (S i) r (S i) t2 s1 eq_refl eq_refl Hp1 Hb1)
    as (Hp1' & Hb1' & Hquiet & _).
  set (s1' := exec (advance t2) s1) in *.
  change (clock (tk s1)) with c in *.
  replace (Z.max c t2) with t2 in * by lia.
  assert (Hidle1 : processing (self s1') = false).
  { rewrite Hquiet by (simpl; lia). exact Hidle. }
  destruct Hp1' as (Hlive1 & Himg1 & Hjob1 & Hxf1 & Hxq1 & Honly1 & Hstate1).
  destruct Hstate1 as [(_ & Hr1 & Htj1 & Hnf1) | (Hbusy & _)];
    [|congruence].
  destruct Hb1' as (Hn1 & Hc1 & Hqb1 & Hfb1).
  (* the second event *)
  rewrite (on_parameter_change_exec s1' Hlive1 Himg1 Hidle1).
  set (s2 := rescheduled s1').
  set (tj2 := job_timer (S i) t2).
  assert (Hq2 : forall t, t ∈ after_queue (tk s2) ->
                 t = tj2 \/ (t ∈ after_queue (tk s1') /\ timer_id t <> i)).
  { intros t. unfold s2, rescheduled. simpl. rewrite Hjob1, Hn1, Hc1.
    intros [Hin | ->%list_elem_of_singleton]%elem_of_app;
      [right | left; reflexivity].
    apply list_elem_of_filter in Hin as [Hne Hin]. split; assumption. }
  assert (Htj2 : tj2 ∈ after_queue (tk s2)).
  { unfold s2, rescheduled. simpl. rewrite Hn1, Hc1. apply elem_of_app. right.
    apply list_elem_of_singleton. reflexivity. }
  assert (Hp2 : pending (S i) tj2 i r s2).
  { unfold pending. repeat split; try assumption.
    - unfold s2, rescheduled. simpl. rewrite Hn1. reflexivity.
    - intros t [-> | [_ Hne]]%Hq2; [simpl; lia | exact Hne].
    - intros t [-> | [Hin Hne]]%Hq2 Hor; [reflexivity|]. exfalso.
      destruct Hor as [Hstart | Hid].
      + apply Hne. rewrite (Honly1 t Hin (or_introl Hstart)). reflexivity.
      + apply Hqb1 in Hin. lia.
    - left. repeat split; assumption. }
  assert (Hb2 : bounded (S (S i)) (clock (tk s2)) s2).
  { repeat split.
    - unfold s2, rescheduled. simpl. rewrite Hn1. reflexivity.
    - intros t [-> | [Hin _]]%Hq2; [simpl; lia|].
      apply Hqb1 in Hin. lia.
    - intros f Hin. apply Hfb1 in Hin. lia. }
  (* the main loop passes the second deadline *)
  destruct (advance_pending (S i) tj2 i r (S (S i)) T s2 eq_refl eq_refl
              Hp2 Hb2) as (Hp3 & _ & _ & Hfires).
  set (s3 := exec (advance T) s2) in *.
  assert (Hbusy3 : processing (self s3) = true).
  { apply Hfires; [exact Htj2|]. simpl. lia. }
  destruct Hp3 as (_ & _ & _ & Hxf3 & _ & _ & Hstate3).
  destruct Hstate3 as [(Hfalse & _) | (_ & Hr3 & Hf3 & _)]; [congruence|].
  split; [reflexivity|]. split.
  { unfold s1, rescheduled. simpl. apply elem_of_app. right.
    apply list_elem_of_singleton. reflexivity. }
  split; [unfold s2, rescheduled; simpl; rewrite Hn1; reflexivity|].
  split; [intros t [-> | [_ Hne]]%Hq2; [simpl; lia | exact Hne]|].
  split; [exact Htj2|].
  split; [exact Hr3|]. split; assumption.
Qed.

(** *** Debouncing: what is pending at any time *)

(** The timer queue is in order and no two pending timers share an
    identifier. *)
Definition debounced (s : St) : Prop :=
  queue_ok s /\ NoDup (map timer_id (after_queue (tk s))).

Ltac debounced_assign :=
  idtac;
  match goal with
  | H : debounced _ |- debounced _ => exact H
  end.

Lemma sched_debounced (s s' : St) :
  sched_of s' = sched_of s -> debounced s -> debounced s'.
Proof.
  unfold sched_of, debounced, queue_ok. intros H. injection H. intros.
  repeat match goal with
         | H : ?f (_ s') = _ |- _ => rewrite H; clear H
         end.
  assumption.
Qed.

Lemma debounced_cancelled (P : Timer -> Prop) `{forall t, Decision (P t)}
    (s : St) :
  debounced s ->
  debounced
    (with_tk (fun x => set_after_queue (filter P (after_queue x)) x) s).
Proof.
  intros ((Hlt & Hfired & Hjob) & Hnd). unfold debounced, queue_ok. simpl.
  repeat split.
  - intros t [_ Ht]%list_elem_of_filter. apply Hlt, Ht.
  - exact Hfired.
  - intros t [_ Ht]%list_elem_of_filter. apply Hjob, Ht.
  - eapply sublist_NoDup; [exact Hnd|].
    apply (fmap_sublist timer_id), sublist_filter.
Qed.

(** A new timer gets an identifier that no pending timer has. *)
Lemma debounced_queued (s : St) (ms : Z) (cb : callback)
    (q : list Timer) (job : option nat) :
  NoDup (map timer_id q) ->
  (forall t, t ∈ q -> (timer_id t < next_after_id (tk s))%nat) ->
  (forall i, i ∈ fired (ghost s) -> (i < next_after_id (tk s))%nat) ->
  (forall t, t ∈ q -> is_start (action t) = true -> job = Some (timer_id t)) ->
  (is_start cb = true -> job = Some (next_after_id (tk s))) ->
  debounced
    (with_self (set_parameter_change_job job)
       (with_tk (fun x =>
          set_next_after_id (S (next_after_id (tk s)))
            (set_after_queue
               (q ++ [{| timer_id := next_after_id (tk s);
                         due := clock (tk s) + ms; action := cb |}]) x)) s)).
Proof.
  intros Hnd Hlt Hfired Hjob Hcb. unfold debounced, queue_ok. simpl.
  repeat split.
  - intros t [Ht | ->%list_elem_of_singleton]%elem_of_app; [|simpl; lia].
    apply Hlt in Ht. lia.
  - intros i Hi. apply Hfired in Hi. lia.
  - intros t [Ht | ->%list_elem_of_singleton]%elem_of_app Hstart.
    + apply Hjob; assumption.
    + apply Hcb, Hstart.
  - rewrite map_app. apply NoDup_app. split; [exact Hnd|].
    split; [|apply NoDup_singleton].
    intros i (t & -> & Ht)%list_elem_of_fmap Heq%list_elem_of_singleton.
    apply Hlt in Ht. simpl in Heq. lia.
Qed.

Lemma debounced_after_from_thread (cb : callback) :
  is_start cb = false -> preserves debounced (after_from_thread cb).
Proof.
  intros Hcb s Hs. unfold exec, after_from_thread.
  rewrite bind_unfold. unfold get at 1. cbv beta iota.
  destruct (mainloop (tk s)); [|exact Hs].
  destruct Hs as ((Hlt & Hfired & Hjob) & Hnd).
  apply (debounced_queued s 0 cb (after_queue (tk s))
           (parameter_change_job (self s))); try assumption.
  rewrite Hcb. discriminate.
Qed.

Lemma debounced_on_parameter_change : preserves debounced on_parameter_change.
Proof.
  intros s Hs.
  destruct (live_preview (self s)) eqn:Hlive,
    (bool_decide (is_Some (current_image (self s)))) eqn:Himg,
    (processing (self s)) eqn:Hp.
  all: try (unfold exec, on_parameter_change; rewrite bind_unfold;
            unfold get at 1; cbv beta iota; rewrite Hlive, Himg, Hp;
            exact Hs).
  rewrite on_parameter_change_exec by assumption.
  destruct Hs as ((Hlt & Hfired & Hjob) & Hnd). unfold rescheduled.
  apply (debounced_queued s 300 StartProcessing).
  - destruct (parameter_change_job (self s)); [|exact Hnd].
    eapply sublist_NoDup; [exact Hnd|].
    apply (fmap_sublist timer_id), sublist_filter.
  - intros t Ht. apply Hlt.
    destruct (parameter_change_job (self s)); [|exact Ht].
    apply list_elem_of_filter in Ht as [_ Ht]. exact Ht.
  - exact Hfired.
  - intros t Ht Hstart. exfalso.
    destruct (parameter_change_job (self s)) as [job|] eqn:Ejob.
    + apply list_elem_of_filter in Ht as [Hne Ht].
      specialize (Hjob t Ht Hstart). congruence.
    + specialize (Hjob t Ht Hstart). discriminate.
  - reflexivity.
Qed.

Lemma debounced_start_processing : preserves debounced start_processing.
Proof. unfold start_processing. pres debounced_assign. Qed.

Lemma debounced_framed {A} (c : io A) : framed c -> preserves debounced c.
Proof.
  intros Hc. apply preserves_framed; [exact Hc|].
  intros s s' Hcore. apply sched_debounced, core_sched, Hcore.
Qed.

Lemma debounced_run_mkbitmap : preserves debounced run_mkbitmap.
Proof. apply debounced_framed, framed_run_mkbitmap. Qed.

Lemma debounced_run_potrace (input_image : option Image) :
  preserves debounced (run_potrace input_image).
Proof. apply debounced_framed, framed_run_potrace. Qed.

#[local] Hint Resolve debounced_on_parameter_change debounced_start_processing
  debounced_run_mkbitmap debounced_run_potrace : pres.
#[local] Hint Extern 0 (preserves debounced (after_from_thread _)) =>
  (apply debounced_after_from_thread; reflexivity) : pres.

Lemma debounced_process_pipeline : preserves debounced process_pipeline.
Proof.
  unfold process_pipeline, pipeline_body, pipeline_handler.
  pres debounced_assign.
Qed.

Lemma debounced_run_callback (cb : callback) :
  preserves debounced (run_callback cb).
Proof.
  destruct (is_start cb) eqn:Hcb.
  - destruct cb; try discriminate. unfold run_callback.
    pres debounced_assign.
  - intros s Hs. eapply sched_debounced; [|exact Hs].
    apply (run_callback_quiet cb _ Hcb s eq_refl).
Qed.

Lemma debounced_fire (t : Timer) : preserves debounced (fire t).
Proof.
  intros s Hs.
  destruct (decide (timer_id t ∈ map timer_id (after_queue (tk s)))) as [Hid|Hid].
  - unfold exec. rewrite fire_run by exact Hid.
    apply debounced_run_callback. unfold taken.
    pose proof Hs as ((Hlt & _) & _).
    apply (debounced_cancelled (fun u => timer_id u ≠ timer_id t)) in Hs.
    destruct Hs as ((Hlt' & Hfired & Hjob) & Hnd).
    split; [|exact Hnd]. split; [exact Hlt'|]. split; [|exact Hjob].
    intros i [Hi | ->%list_elem_of_singleton]%elem_of_app; [apply Hfired, Hi|].
    apply list_elem_of_fmap in Hid as (u & -> & Hu). apply Hlt, Hu.
  - unfold exec. rewrite fire_skip by exact Hid. exact Hs.
Qed.

Lemma debounced_fire_all (l : list Timer) : preserves debounced (fire_all l).
Proof.
  induction l as [|t l IH]; intros s Hs; [exact Hs|].
  rewrite fire_all_cons. apply IH, debounced_fire, Hs.
Qed.

Lemma debounced_var_set_traced (name : string) (v : value) :
  preserves debounced (var_set_traced name v).
Proof. unfold var_set_traced. pres debounced_assign. Qed.

#[local] Hint Resolve debounced_var_set_traced : pres.

Lemma debounced_set_all (items : list (string * value)) :
  preserves debounced (set_all items).
Proof.
  induction items as [|[param v] items IH]; simpl; pres debounced_assign.
Qed.

Lemma debounced_apply_preset (preset : list (string * value))
    (params : list string) :
  preserves debounced (apply_preset preset params).
Proof.
  induction params as [|param params IH]; simpl; pres debounced_assign.
Qed.

#[local] Hint Resolve debounced_set_all debounced_apply_preset : pres.

Lemma debounced_handle (e : ui_event) : preserves debounced (handle e).
Proof.
  destruct e; simpl.
  - apply debounced_on_parameter_change.
  - unfold manual_process. pres debounced_assign.
  - unfold reset_parameters. pres debounced_assign.
  - unfold load_preset. pres debounced_assign.
  - unfold load_image. pres debounced_assign.
  - unfold toggle_live_preview. pres debounced_assign.
  - intros s Hs. rewrite advance_exec. apply debounced_fire_all. exact Hs.
Qed.

Lemma debounced_reachable (s0 s : St) :
  rtc step s0 s -> debounced s0 -> debounced s.
Proof.
  induction 1 as [|s1 s2 s3 H12 _ IH]; [tauto|].
  intros Hs. apply IH. destruct H12.
  - apply debounced_handle, Hs.
  - apply debounced_process_pipeline, Hs.
Qed.

(** X10. The debounce holds at any time: from a start where the timer queue
    is in order and the pending timers have distinct identifiers (an empty
    queue, for one), after any sequence of UI events, main loop turns and
    worker runs at most one timer that runs [start_processing] is pending,
    and it is the one [_parameter_change_job] names. *)
Theorem X10_at_most_one_start_processing_is_pending (s0 s : St) :
  debounced s0 ->
  rtc step s0 s ->
  (length (filter (fun t => is_start (action t) = true)
             (after_queue (tk s))) <= 1)%nat
  /\ (forall t, t ∈ after_queue (tk s) -> is_start (action t) = true ->
                parameter_change_job (self s) = Some (timer_id t)).
Proof.
  intros Hs0 Hreach.
  destruct (debounced_reachable s0 s Hreach Hs0) as ((_ & _ & Hjob) & Hnd).
  split; [|exact Hjob].
  assert (Hsub : NoDup (map timer_id
                          (filter (fun t => is_start (action t) = true)
                             (after_queue (tk s))))).
  { eapply sublist_NoDup; [exact Hnd|].
    apply (fmap_sublist timer_id), sublist_filter. }
  assert (Hall : forall t,
             t ∈ filter (fun t => is_start (action t) = true)
                   (after_queue (tk s)) ->
             parameter_change_job (self s) = Some (timer_id t)).
  { intros t [Hstart Ht]%list_elem_of_filter. apply Hjob; assumption. }
  destruct (filter _ (after_queue (tk s))) as [|a [|b l]]; simpl; try lia.
  exfalso.
  pose proof (Hall a (list_elem_of_here _ _)) as Ha.
  pose proof (Hall b (list_elem_of_further _ _ _ (list_elem_of_here _ _))) as Hb.
  simpl in Hsub. apply NoDup_cons in Hsub as [Hnotin _].
  apply Hnotin. replace (timer_id a) with (timer_id b) by congruence.
  apply list_elem_of_here.
Qed.

(** *** The worker, stage by stage *)

(** The timers that callbacks posted one after the other from state [s] get:
    consecutive identifiers, all due at once. *)
Definition posts (s : St) (cbs : list callback) : list Timer :=
  imap (fun k cb => {| timer_id := next_after_id (tk s) + k;
                       due := clock (tk s) + 0; action := cb |}) cbs.

(** The callbacks of a run, in the order of the source. *)
Definition stage1_started : callback :=
  UpdatePipelineStatus "🔄 Stage 1: Running mkbitmap preprocessing...".

Definition stage1_done (img : Image) : list callback :=
  [DisplayImageConsistent img "mkbitmap_canvas" "Mkbitmap Result";
   UpdatePipelineStatus "✅ Stage 1: Mkbitmap preprocessing complete";
   UpdatePipelineStatus "🔄 Stage 2: Running potrace vector tracing..."].

Definition stage1_failed : list callback :=
  [UpdatePipelineStatus "❌ Stage 1: Mkbitmap preprocessing failed";
   SetStatus "❌ Mkbitmap failed"].

Definition stage2_done (svg_content : string) : list callback :=
  [UpdatePipelineStatus "🔄 Stage 3: Generating SVG preview...";
   DisplaySvgResults svg_content;
   UpdatePipelineStatus "🔄 Stage 4: Auto-populating final icon preview...";
   DisplayFinalIconPreview;
   UpdatePipelineStatus
     "✅ V3 Full pipeline complete! All 4 panels populated automatically.";
   SetStatus "✅ All Stages Complete! Live preview active across all 4 panels"].

Definition stage2_failed : list callback :=
  [UpdatePipelineStatus "❌ Stage 2: Potrace tracing failed";
   SetStatus "❌ Potrace failed"].

(** The state in which [run_potrace] starts on the result [img] of Stage 1,
    from the state [s2] in which [run_mkbitmap] ended. *)
Definition stage2_start (img : Image) (s2 : St) : St :=
  foldl (fun s cb => posted cb s)
    (with_self (set_mkbitmap_result (Some img)) s2) (stage1_done img).

Lemma after_from_thread_bind {B} (cb : callback) (k : nat -> io B) (s : St) :
  mainloop (tk s) = true ->
  (after_from_thread cb ≫= k) s = k (next_after_id (tk s)) (posted cb s).
Proof.
  intros H. rewrite bind_unfold, after_from_thread_ok by exact H. reflexivity.
Qed.

Lemma run_mkbitmap_returns (s : St) : exists r, result run_mkbitmap s = Ret r.
Proof.
  unfold result, run_mkbitmap. rewrite bind_unfold. unfold modify at 1.
  rewrite bind_unfold. unfold get at 1. cbv beta iota.
  destruct (current_image _); [|eexists; reflexivity].
  rewrite try_catch_unfold.
  match goal with
  | |- context [match ?c with _ => _ end] => destruct c as [[r|e] s1]
  end; eexists; reflexivity.
Qed.

Lemma run_potrace_returns (input_image : option Image) (s : St) :
  exists r, result (run_potrace input_image) s = Ret r.
Proof.
  unfold result, run_potrace. rewrite bind_unfold. unfold modify at 1.
  destruct input_image; [|eexists; reflexivity].
  rewrite try_catch_unfold.
  match goal with
  | |- context [match ?c with _ => _ end] => destruct c as [[r|e] s1]
  end; eexists; reflexivity.
Qed.

Lemma core_tk (s s' : St) :
  core_of s' = core_of s ->
  mainloop (tk s') = mainloop (tk s)
  /\ after_queue (tk s') = after_queue (tk s)
  /\ next_after_id (tk s') = next_after_id (tk s)
  /\ clock (tk s') = clock (tk s).
Proof. unfold core_of. intros H. injection H. intros. auto. Qed.

(** The [try] block of the worker while the main loop takes its messages:
    where it ends, by the results of the two stages. *)
Lemma pipeline_run (s : St) :
  mainloop (tk s) = true ->
  let s1 := posted stage1_started s in
  let s2 := exec run_mkbitmap s1 in
  try_catch pipeline_body pipeline_handler s =
    (Ret tt,
     match result run_mkbitmap s1 with
     | Ret (Some img) =>
         let s3 := stage2_start img s2 in
         let s4 := exec (run_potrace (Some img)) s3 in
         match result (run_potrace (Some img)) s3 with
         | Ret (svg_path, svg_content) =>
             if truthy svg_path && truthy svg_content
             then foldl (fun s cb => posted cb s)
                    (with_self (set_potrace_svg svg_path svg_content) s4)
                    (stage2_done (default EmptyString svg_content))
             else foldl (fun s cb => posted cb s) s4 stage2_failed
         | Raise _ => s4
         end
     | _ => foldl (fun s cb => posted cb s) s2 stage1_failed
     end).
Proof.
  intros Hloop. cbv zeta.
  set (s1 := posted stage1_started s).
  assert (Hloop1 : mainloop (tk s1) = true) by exact Hloop.
  pose proof (framed_core run_mkbitmap s1 framed_run_mkbitmap) as Hcore.
  apply core_tk in Hcore as (Hloop2 & _).
  rewrite Hloop1 in Hloop2.
  destruct (run_mkbitmap_returns s1) as [r1 Hr1].
  rewrite Hr1.
  unfold pipeline_body. rewrite try_catch_unfold.
  rewrite after_from_thread_bind by exact Hloop. fold stage1_started. fold s1.
  rewrite bind_unfold.
  unfold result, exec in *.
  destruct (run_mkbitmap s1) as [r s2]. simpl in Hr1, Hloop2 |- *. subst r.
  destruct r1 as [img|].
  2: { rewrite !after_from_thread_bind by exact Hloop2. reflexivity. }
  rewrite bind_unfold. unfold modify at 1.
  set (s2' := with_self (set_mkbitmap_result (Some img)) s2).
  assert (Hloop2' : mainloop (tk s2') = true) by exact Hloop2.
  rewrite !after_from_thread_bind by exact Hloop2'.
  change (posted _ (posted _ (posted _ s2'))) with (stage2_start img s2).
  set (s3 := stage2_start img s2).
  assert (Hloop3 : mainloop (tk s3) = true) by exact Hloop2.
  pose proof (framed_core (run_potrace (Some img)) s3
                (framed_run_potrace (Some img))) as Hcore.
  apply core_tk in Hcore as (Hloop4 & _).
  rewrite Hloop3 in Hloop4.
  destruct (run_potrace_returns (Some img) s3) as [[svg_path svg_content] Hr2].
  rewrite bind_unfold.
  unfold result, exec in *.
  destruct (run_potrace (Some img) s3) as [r s4]. simpl in Hr2, Hloop4 |- *.
  subst r.
  destruct (truthy svg_path && truthy svg_content).
  - rewrite bind_unfold. unfold modify at 1.
    set (s4' := with_self (set_potrace_svg svg_path svg_content) s4).
    assert (Hloop4' : mainloop (tk s4') = true) by exact Hloop4.
    rewrite !after_from_thread_bind by exact Hloop4'. reflexivity.
  - rewrite !after_from_thread_bind by exact Hloop4. reflexivity.
Qed.

(** Posting callbacks one after the other: the queue grows by their timers
    and nothing else changes. *)
Lemma posted_all (cbs : list callback) (s : St) :
  let s' := foldl (fun s cb => posted cb s) s cbs in
  after_queue (tk s') = after_queue (tk s) ++ posts s cbs
  /\ next_after_id (tk s') = (next_after_id (tk s) + length cbs)%nat
  /\ clock (tk s') = clock (tk s)
  /\ self s' = self s /\ os s' = os s /\ ghost s' = ghost s.
Proof.
  cbv zeta. revert s. induction cbs as [|cb cbs IH]; intros s.
  - unfold posts. simpl. rewrite app_nil_r, Nat.add_0_r. repeat split.
  - simpl. destruct (IH (posted cb s)) as (Hq & Hn & Hc & Hself & Hos & Hg).
    rewrite Hq, Hn, Hc, Hself, Hos, Hg. simpl.
    repeat split; [|lia].
    rewrite <- app_assoc. f_equal. unfold posts. simpl.
    rewrite Nat.add_0_r. f_equal.
    apply imap_ext. intros k cb' _. simpl. f_equal. lia.
Qed.

Lemma posts_app (s : St) (a b : list callback) :
  posts s (a ++ b) =
    posts s a ++
    imap (fun k cb => {| timer_id := next_after_id (tk s) + (length a + k);
                         due := clock (tk s) + 0; action := cb |}) b.
Proof. unfold posts. rewrite imap_app. reflexivity. Qed.

(** The three texts a run of the worker can end on. *)
Definition final_status (msg : string) : Prop :=
  msg = "✅ All Stages Complete! Live preview active across all 4 panels"
  \/ msg = "❌ Potrace failed"
  \/ msg = "❌ Mkbitmap failed".

Definition is_set_status (cb : callback) : bool :=
  match cb with
  | SetStatus _ => true
  | _ => false
  end.

(** The results of the two stages, as the object keeps them. *)
Definition stage_results (s : St)
    : option Image * option string * option string :=
  (mkbitmap_result (self s), potrace_svg_path (self s),
   potrace_svg_content (self s)).

Lemma core_stage_results (s s' : St) :
  core_of s' = core_of s -> stage_results s' = stage_results s.
Proof.
  unfold core_of, stage_results. intros H. injection H. intros. congruence.
Qed.

(** What the worker has posted and stored when it ends, the main loop
    running. *)
Lemma process_pipeline_posts (s : St) :
  mainloop (tk s) = true ->
  let s' := exec process_pipeline s in
  let s1 := posted stage1_started s in
  exists cbs,
    after_queue (tk s') = after_queue (tk s) ++ posts s (stage1_started :: cbs)
    /\ next_after_id (tk s') = (next_after_id (tk s) + S (length cbs))%nat
    /\ clock (tk s') = clock (tk s)
    /\ match result run_mkbitmap s1 with
       | Ret (Some img) =>
           match result (run_potrace (Some img))
                   (stage2_start img (exec run_mkbitmap s1)) with
           | Ret (svg_path, svg_content) =>
               if truthy svg_path && truthy svg_content
               then cbs = stage1_done img
                            ++ stage2_done (default EmptyString svg_content)
                    /\ stage_results s' = (Some img, svg_path, svg_content)
               else cbs = stage1_done img ++ stage2_failed
                    /\ stage_results s' =
                         (Some img, potrace_svg_path (self s),
                          potrace_svg_content (self s))
           | Raise _ => False
           end
       | _ => cbs = stage1_failed /\ stage_results s' = stage_results s
       end.
Proof.
  intros Hloop. cbv zeta. rewrite process_pipeline_exec. unfold exec.
  rewrite (pipeline_run s Hloop). cbv zeta. cbn [snd].
  fold (exec run_mkbitmap (posted stage1_started s)).
  change (tk (with_ghost thread_finished (with_self (set_processing false) ?x)))
    with (tk x).
  change (stage_results
            (with_ghost thread_finished (with_self (set_processing false) ?x)))
    with (stage_results x).
  set (s1 := posted stage1_started s).
  pose proof (framed_core run_mkbitmap s1 framed_run_mkbitmap) as Hcore2.
  pose proof (core_stage_results _ _ Hcore2) as Hres2.
  apply core_tk in Hcore2 as (_ & Hq2 & Hn2 & Hc2).
  set (s2 := exec run_mkbitmap s1) in *.
  assert (Hone : forall cbs s3,
             after_queue (tk s3) = after_queue (tk s1) ++ posts s1 cbs ->
             after_queue (tk s3) =
               after_queue (tk s) ++ posts s (stage1_started :: cbs)).
  { intros cbs s3 ->. simpl. rewrite <- app_assoc. f_equal.
    unfold posts. simpl. rewrite Nat.add_0_r. f_equal.
    apply imap_ext. intros k cb _. simpl. f_equal. lia. }
  assert (Hself : forall cbs x,
             stage_results (foldl (fun s cb => posted cb s) x cbs) =
               stage_results x).
  { intros cbs x. destruct (posted_all cbs x) as (_ & _ & _ & Hs & _).
    cbv zeta in Hs. unfold stage_results. rewrite Hs. reflexivity. }
  destruct (run_mkbitmap_returns s1) as [r1 Hr1]. rewrite Hr1.
  destruct r1 as [img|]; cbv beta iota.
  2: { exists stage1_failed.
       destruct (posted_all stage1_failed s2) as (Hq & Hn & Hc & _).
       cbv zeta in Hq, Hn, Hc.
       split; [apply Hone; rewrite Hq, Hq2; f_equal; unfold posts;
               rewrite Hn2, Hc2; reflexivity|].
       split; [rewrite Hn, Hn2; simpl; lia|].
       split; [rewrite Hc, Hc2; reflexivity|].
       split; [reflexivity|]. rewrite Hself. exact Hres2. }
  set (s3 := stage2_start img s2).
  destruct (posted_all (stage1_done img)
              (with_self (set_mkbitmap_result (Some img)) s2))
    as (Hq3 & Hn3 & Hc3 & Hs3 & _).
  cbv zeta in Hq3, Hn3, Hc3, Hs3.
  fold (stage2_start img s2) in Hq3, Hn3, Hc3, Hs3.
  fold s3 in Hq3, Hn3, Hc3, Hs3.
  change (after_queue (tk (with_self _ s2))) with (after_queue (tk s2)) in Hq3.
  change (next_after_id (tk (with_self _ s2)))
    with (next_after_id (tk s2)) in Hn3.
  change (clock (tk (with_self _ s2))) with (clock (tk s2)) in Hc3.
  assert (Hp3 : posts (with_self (set_mkbitmap_result (Some img)) s2)
                  (stage1_done img) = posts s1 (stage1_done img)).
  { unfold posts. simpl. rewrite Hn2, Hc2. reflexivity. }
  rewrite Hp3, Hq2 in Hq3. rewrite Hn2 in Hn3. rewrite Hc2 in Hc3.
  assert (Hres3 : stage_results s3 =
                    (Some img, potrace_svg_path (self s),
                     potrace_svg_content (self s))).
  { unfold stage_results in *. rewrite Hs3. simpl.
    injection Hres2. intros -> -> _. reflexivity. }
  pose proof (framed_core (run_potrace (Some img)) s3
                (framed_run_potrace (Some img))) as Hcore4.
  pose proof (core_stage_results _ _ Hcore4) as Hres4.
  apply core_tk in Hcore4 as (_ & Hq4 & Hn4 & Hc4).
  set (s4 := exec (run_potrace (Some img)) s3) in *.
  assert (Htwo : forall cbs s5 s4',
             after_queue (tk s4') = after_queue (tk s4) ->
             next_after_id (tk s4') = next_after_id (tk s4) ->
             clock (tk s4') = clock (tk s4) ->
             after_queue (tk s5) = after_queue (tk s4') ++ posts s4' cbs ->
             after_queue (tk s5) =
               after_queue (tk s1) ++ posts s1 (stage1_done img ++ cbs)).
  { intros cbs s5 s4' Hq Hn Hc ->. rewrite Hq, Hq4, Hq3, <- app_assoc.
    f_equal. rewrite posts_app. f_equal. unfold posts.
    rewrite Hn, Hn4, Hn3, Hc, Hc4, Hc3.
    apply imap_ext. intros k cb _. simpl. f_equal. lia. }
  destruct (run_potrace_returns (Some img) s3) as [[svg_path svg_content] Hr2].
  rewrite Hr2. cbv beta iota.
  destruct (truthy svg_path && truthy svg_content).
  - exists (stage1_done img ++ stage2_done (default EmptyString svg_content)).
    destruct (posted_all (stage2_done (default EmptyString svg_content))
                (with_self (set_potrace_svg svg_path svg_content) s4))
      as (Hq & Hn & Hc & _).
    cbv zeta in Hq, Hn, Hc.
    split; [apply Hone; eapply Htwo; [| | |exact Hq]; reflexivity|].
    split; [rewrite Hn; simpl; rewrite Hn4, Hn3; simpl; lia|].
    split; [rewrite Hc; simpl; rewrite Hc4, Hc3; reflexivity|].
    split; [reflexivity|]. rewrite Hself.
    unfold stage_results in *. simpl. rewrite Hres3 in Hres4.
    injection Hres4. intros _ _ ->. reflexivity.
  - exists (stage1_done img ++ stage2_failed).
    destruct (posted_all stage2_failed s4) as (Hq & Hn & Hc & _).
    cbv zeta in Hq, Hn, Hc.
    split; [apply Hone; eapply Htwo; [| | |exact Hq]; reflexivity|].
    split; [rewrite Hn; simpl; rewrite Hn4, Hn3; simpl; lia|].
    split; [rewrite Hc; simpl; rewrite Hc4, Hc3; reflexivity|].
    split; [reflexivity|]. rewrite Hself, Hres4. exact Hres3.
Qed.

Lemma process_pipeline_returns (s : St) :
  mainloop (tk s) = true -> result process_pipeline s = Ret tt.
Proof.
  intros Hloop. unfold result, process_pipeline, try_finally.
  rewrite (pipeline_run s Hloop). reflexivity.
Qed.

(** X11. While the main loop takes its messages the worker ends normally,
    with [processing] false, and the last thing it posts is the one
    [status_var.set] of the run, with one of three texts: all stages
    complete, potrace failed, mkbitmap failed. The texts of the [except]
    block are not posted: the stage functions keep their exceptions to
    themselves. *)
Theorem X11_worker_ends_on_a_final_status (s : St) :
  mainloop (tk s) = true ->
  let s' := exec process_pipeline s in
  result process_pipeline s = Ret tt
  /\ processing (self s') = false
  /\ exists cbs msg,
       after_queue (tk s') =
         after_queue (tk s) ++ posts s (cbs ++ [SetStatus msg])
       /\ final_status msg
       /\ Forall (fun cb => is_set_status cb = false /\ is_start cb = false)
            cbs.
Proof.
  intros Hloop. cbv zeta.
  split; [apply process_pipeline_returns, Hloop|].
  split; [apply process_pipeline_resets|].
  destruct (process_pipeline_posts s Hloop) as (cbs & -> & _ & _ & Hcase).
  cbv zeta in Hcase.
  destruct (result run_mkbitmap _) as [[img|]|e].
  - destruct (result (run_potrace _) _) as [[svg_path svg_content]|e];
      [|contradiction].
    destruct (truthy svg_path && truthy svg_content);
      destruct Hcase as [-> _].
    + eexists (removelast (stage1_started :: stage1_done img ++ stage2_done _)), _.
      split; [reflexivity|]. split; [left; reflexivity|].
      repeat constructor.
    + eexists (removelast (stage1_started :: stage1_done img ++ stage2_failed)), _.
      split; [reflexivity|]. split; [right; left; reflexivity|].
      repeat constructor.
  - destruct Hcase as [-> _].
    eexists (removelast (stage1_started :: stage1_failed)), _.
    split; [reflexivity|]. split; [right; right; reflexivity|].
    repeat constructor.
  - destruct Hcase as [-> _].
    eexists (removelast (stage1_started :: stage1_failed)), _.
    split; [reflexivity|]. split; [right; right; reflexivity|].
    repeat constructor.
Qed.

(** X12. A run in which both stages give a result, the main loop running:
    the object then holds the bitmap of this run and the path and the text of
    its SVG, and the worker has posted, in this order and all due at once, the
    Stage 1 message, the bitmap for the second panel, the Stage 1 and Stage 2
    messages, the Stage 3 message, the SVG for the third panel, the Stage 4
    message, the final icon preview, the completion message and the status
    text. *)
Theorem X12_a_full_run_stores_and_shows_both_results (s : St) (img : Image)
    (svg_path svg_content : string) :
  mainloop (tk s) = true ->
  let s1 := posted stage1_started s in
  result run_mkbitmap s1 = Ret (Some img) ->
  result (run_potrace (Some img)) (stage2_start img (exec run_mkbitmap s1)) =
    Ret (Some svg_path, Some svg_content) ->
  svg_path <> EmptyString ->
  svg_content <> EmptyString ->
  let s' := exec process_pipeline s in
  mkbitmap_result (self s') = Some img
  /\ potrace_svg_path (self s') = Some svg_path
  /\ potrace_svg_content (self s') = Some svg_content
  /\ after_queue (tk s') =
       after_queue (tk s) ++
       posts s (stage1_started :: stage1_done img ++ stage2_done svg_content)
  /\ processing (self s') = false.
Proof.
  intros Hloop s1 Hr1 Hr2 Hpath Htext. cbv zeta.
  destruct (process_pipeline_posts s Hloop) as (cbs & Hq & _ & _ & Hcase).
  cbv zeta in Hcase. fold s1 in Hcase. rewrite Hr1, Hr2 in Hcase.
  assert (Htruthy : truthy (Some svg_path) && truthy (Some svg_content) = true).
  { destruct svg_path, svg_content; try contradiction; reflexivity. }
  rewrite Htruthy in Hcase. destruct Hcase as [-> Hres].
  unfold stage_results in Hres. injection Hres. intros H3 H2 H1.
  repeat split; try assumption.
  apply process_pipeline_resets.
Qed.

(** X13. A run in which Stage 1 gives a bitmap and the trace does not give
    both a path and a text (potrace failed, or wrote an empty document), the
    main loop running: the object holds the new bitmap next to the SVG path
    and text it had before the run, and the worker has posted the Stage 1
    messages with the bitmap, the Stage 2 message, its failure and the status
    "Potrace failed"; nothing of Stage 3 or 4 is posted. *)
Theorem X13_a_failed_trace_keeps_the_bitmap_and_the_old_svg (s : St)
    (img : Image) (traced : option string * option string) :
  mainloop (tk s) = true ->
  let s1 := posted stage1_started s in
  result run_mkbitmap s1 = Ret (Some img) ->
  result (run_potrace (Some img)) (stage2_start img (exec run_mkbitmap s1)) =
    Ret traced ->
  truthy (fst traced) && truthy (snd traced) = false ->
  let s' := exec process_pipeline s in
  mkbitmap_result (self s') = Some img
  /\ potrace_svg_path (self s') = potrace_svg_path (self s)
  /\ potrace_svg_content (self s') = potrace_svg_content (self s)
  /\ after_queue (tk s') =
       after_queue (tk s) ++
       posts s (stage1_started :: stage1_done img ++ stage2_failed)
  /\ processing (self s') = false.
Proof.
  intros Hloop s1 Hr1 Hr2 Hfalsy. cbv zeta.
  destruct (process_pipeline_posts s Hloop) as (cbs & Hq & _ & _ & Hcase).
  cbv zeta in Hcase. fold s1 in Hcase. rewrite Hr1, Hr2 in Hcase.
  destruct traced as [svg_path svg_content]. cbn [fst snd] in Hfalsy.
  rewrite Hfalsy in Hcase. destruct Hcase as [-> Hres].
  unfold stage_results in Hres. injection Hres. intros H3 H2 H1.
  repeat split; try assumption.
  apply process_pipeline_resets.
Qed.

(** X14. A worker that runs when the main loop does not: [root.after] raises
    in the [try] block and again in the [except] block, so the exception
    leaves the thread; no stage function is entered, no program is run, no
    file and no timer is touched, and [processing] is false at the end. *)
Theorem X14_worker_without_main_loop (s : St) :
  mainloop (tk s) = false ->
  process_pipeline s =
    (Raise RuntimeError,
     with_ghost thread_finished (with_self (set_processing false) s)).
Proof.
  intros Hloop.
  assert (Hoff : forall cb, after_from_thread cb s = (Raise RuntimeError, s)).
  { intros cb. unfold after_from_thread. rewrite bind_unfold.
    unfold get at 1. cbv beta iota. rewrite Hloop. reflexivity. }
  unfold process_pipeline, try_finally. rewrite try_catch_unfold.
  unfold pipeline_body. rewrite bind_unfold, Hoff.
  unfold pipeline_handler. rewrite bind_unfold, Hoff. reflexivity.
Qed.

(** *** Stage 1: the result of [run_mkbitmap] and its temporary files *)

Lemma mkbitmap_cmd_state (i o : string) (s : St) :
  snd (mkbitmap_cmd i o s) = s.
Proof.
  unfold mkbitmap_cmd, intvar_get, doublevar_get, var_get.
  io_unfold.
  repeat match goal with
         | |- context [match ?x with _ => _ end] =>
             lazymatch x with
             | context [match _ with _ => _ end] => fail
             | _ => destruct x
             end
         end; reflexivity.
Qed.

(** [mkbitmap_body], case by case. *)
Lemma mkbitmap_body_unfold (img : Image) (i o : string) (s : St) :
  mkbitmap_body img i o s =
    let s1 := with_os (fun x =>
                set_files (<[i := pil_save "BMP" img]> (files x)) x) s in
    match fst (mkbitmap_cmd i o s1) with
    | Raise e => (Raise e, s1)
    | Ret cmd =>
        let '(r, o') := subprocess_run cmd (os s1) in
        let s2 := with_ghost (log_call (CallExec cmd))
                    (with_os (fun _ => o') s1) in
        match r with
        | Raise e => (Raise e, s2)
        | Ret (rc, err) =>
            if (rc =? 0) && path_exists o' o then
              match files o' !! o with
              | None => (Raise FileNotFoundError, s2)
              | Some bytes =>
                  match pil_open bytes with
                  | Raise e => (Raise e, s2)
                  | Ret opened => (Ret (Some (pil_convert "L" opened)), s2)
                  end
              end
            else (Ret None, s2)
        end
    end.
Proof.
  unfold mkbitmap_body.
  rewrite bind_unfold. unfold write_file at 1, modify at 1. cbv beta iota zeta.
  rewrite bind_unfold.
  match goal with
  | |- context [mkbitmap_cmd i o ?s1] =>
      pose proof (mkbitmap_cmd_state i o s1) as Hst;
      destruct (mkbitmap_cmd i o s1) as [[cmd|e] s1'] eqn:Ecmd;
      simpl in Hst; subst s1'; simpl
  end; [|reflexivity].
  rewrite bind_unfold. unfold run at 1. simpl.
  destruct (subprocess_run cmd _) as [[[rc err]|e] o']; [|reflexivity].
  rewrite bind_unfold. unfold exists_ at 1. rewrite bind_unfold.
  unfold get at 1. cbv beta iota. unfold mret at 1, io_mret, io_ret.
  cbv beta iota. simpl.
  destruct ((rc =? 0) && path_exists o' o); [|reflexivity].
  rewrite bind_unfold. unfold read_file at 1. rewrite bind_unfold.
  unfold get at 1. cbv beta iota. simpl.
  destruct (files o' !! o) as [bytes|]; [|reflexivity].
  unfold mret at 1, io_mret, io_ret. cbv beta iota.
  rewrite bind_unfold. unfold lift at 1. cbv beta iota.
  destruct (pil_open bytes) as [opened|e]; reflexivity.
Qed.

Lemma run_mkbitmap_unfold (image : Image) (s : St) :
  current_image (self s) = Some image ->
  let i := temp_name ".bmp" (files (os s)) in
  let o := temp_name ".pbm" (<[i := EmptyString]> (files (os s))) in
  let s2 := with_os (fun x => set_files (<[o := EmptyString]> (files x)) x)
              (with_os (fun x => set_files (<[i := EmptyString]> (files x)) x)
                 (with_ghost (log_call CallRunMkbitmap) s)) in
  run_mkbitmap s =
    (match fst (mkbitmap_body (pil_convert "L" image) i o s2) with
     | Ret r => Ret r
     | Raise _ => Ret None
     end,
     exec (cleanup [i; o])
       (snd (mkbitmap_body (pil_convert "L" image) i o s2))).
Proof.
  intros Himg. cbv zeta. unfold run_mkbitmap. rewrite bind_unfold.
  unfold modify at 1. cbv beta iota. rewrite bind_unfold. unfold get at 1.
  cbv beta iota.
  change (current_image (self (with_ghost _ s))) with (current_image (self s)).
  rewrite Himg.
  rewrite try_catch_unfold, bind_unfold, mkstemp_unfold, bind_unfold,
    mkstemp_unfold, try_finally_cleanup.
  simpl. destruct (mkbitmap_body _ _ _ _) as [[r|e] s3]; reflexivity.
Qed.

Ltac self_assign :=
  idtac;
  match goal with
  | H : self _ = ?x |- self _ = ?x => exact H
  end.

Lemma self_run_mkbitmap (x : Self) :
  preserves (fun s => self s = x) run_mkbitmap.
Proof. unfold run_mkbitmap. pres self_assign. Qed.

(** X15. [run_mkbitmap] with an image loaded: it never raises and changes no
    attribute of the object; its two temporary files are gone when it
    returns, whatever happened. The result is [None] when running mkbitmap
    raises, when it exits non-zero and when its output file is missing; when
    it exits zero and the output file is there, the result is that file
    opened and converted to mode L ([None] if it cannot be opened), and every
    other file is as mkbitmap left it. *)
Theorem X15_run_mkbitmap_result_and_cleanup (s : St) (image : Image) :
  current_image (self s) = Some image ->
  let input_path := temp_name ".bmp" (files (os s)) in
  let output_path :=
    temp_name ".pbm" (<[input_path := EmptyString]> (files (os s))) in
  let res := result run_mkbitmap s in
  let s' := exec run_mkbitmap s in
  files (os s') !! input_path = None
  /\ files (os s') !! output_path = None
  /\ self s' = self s
  /\ (exists r, res = Ret r)
  /\ forall cmd,
       result (mkbitmap_cmd input_path output_path) s = Ret cmd ->
       match subprocess_run cmd
               (mkbitmap_staged s image input_path output_path) with
       | (Raise _, _) => res = Ret None
       | (Ret (rc, _), o') =>
           (rc <> 0 \/ path_exists o' output_path = false -> res = Ret None)
           /\ (rc = 0 ->
               forall bytes,
                 files o' !! output_path = Some bytes ->
                 res = Ret (match pil_open bytes with
                            | Ret opened => Some (pil_convert "L" opened)
                            | Raise _ => None
                            end)
                 /\ forall p, p <> input_path -> p <> output_path ->
                              files (os s') !! p = files o' !! p)
       end.
Proof.
  intros Himg. cbv zeta.
  split; [|split; [|split; [|split]]].
  3: apply (self_run_mkbitmap (self s) s eq_refl).
  3: apply run_mkbitmap_returns.
  all: unfold result, exec.
  all: pose proof (run_mkbitmap_unfold image s Himg) as Hrun;
    cbv zeta in Hrun; rewrite Hrun; clear Hrun; cbn [fst snd].
  all: set (i := temp_name ".bmp" (files (os s)));
    set (o := temp_name ".pbm" (<[i:=EmptyString]> (files (os s)))).
  - fold (exec (cleanup [i; o])).
    rewrite cleanup_files, bool_decide_true by set_solver. reflexivity.
  - fold (exec (cleanup [i; o])).
    rewrite cleanup_files, bool_decide_true by set_solver. reflexivity.
  - fold (exec (cleanup [i; o])).
    rewrite mkbitmap_body_unfold. cbv zeta.
    match goal with
    | |- context [fst (mkbitmap_cmd i o ?s1)] =>
        rewrite (mkbitmap_cmd_result i o s s1) by reflexivity
    end.
    unfold result. intros cmd Hcmd. rewrite Hcmd.
    change (os (with_os _ _)) with (mkbitmap_staged s image i o).
    destruct (subprocess_run cmd (mkbitmap_staged s image i o))
      as [[[rc err]|e] o']; cbn [fst snd]; [|reflexivity].
    destruct (rc =? 0) eqn:Erc; cbn [andb].
    2: { apply Z.eqb_neq in Erc. split; [reflexivity | contradiction]. }
    apply Z.eqb_eq in Erc. subst rc.
    destruct (path_exists o' o) eqn:Ethere.
    2: { split; [reflexivity|]. intros _ bytes Hfile.
         unfold path_exists in Ethere. rewrite Hfile in Ethere.
         rewrite bool_decide_true in Ethere by eauto. discriminate. }
    split; [intros [?|?]; [lia | congruence]|].
    intros _ bytes Hfile. rewrite Hfile.
    split.
    + destruct (pil_open bytes); reflexivity.
    + intros p Hi Ho.
      rewrite cleanup_files, bool_decide_false by set_solver.
      destruct (pil_open bytes); reflexivity.
Qed.

(** *** Reset and presets with live preview on *)

Lemma exec_bind {A B} (c : io A) (k : A -> io B) (s : St) (a : A) :
  result c s = Ret a -> exec (c ≫= k) s = exec (k a) (exec c s).
Proof.
  unfold result, exec. intros H. rewrite bind_unfold.
  destruct (c s) as [r s1]. simpl in H. subst r. reflexivity.
Qed.

(** Live preview is on, an image is loaded and no run is in progress. *)
Definition ready (s : St) : Prop :=
  live_preview (self s) = true
  /\ bool_decide (is_Some (current_image (self s))) = true
  /\ processing (self s) = false.

(** What a parameter change leaves alone, next to the order of the timer
    queue. *)
Definition settled (c : Z) (r : nat) (f : list nat) (s : St) : Prop :=
  ready s /\ debounced s
  /\ clock (tk s) = c /\ runs (ghost s) = r /\ fired (ghost s) = f.

(** A run of [start_processing] is scheduled as timer [j]. *)
Definition armed (c : Z) (r : nat) (f : list nat) (j : nat) (s : St) : Prop :=
  settled c r f s
  /\ parameter_change_job (self s) = Some j
  /\ job_timer j c ∈ after_queue (tk s)
  /\ j ∉ f.

Lemma armed_on_parameter_change (c : Z) (r : nat) (f : list nat) (s : St) :
  settled c r f s ->
  armed c r f (next_after_id (tk s)) (exec on_parameter_change s).
Proof.
  intros (Hready & Hdeb & Hc & Hr & Hf).
  pose proof (debounced_on_parameter_change s Hdeb) as Hdeb1.
  destruct Hready as (Hlive & Himg & Hidle).
  rewrite on_parameter_change_exec in * by assumption.
  split; [|split; [|split]].
  - split; [|split; [exact Hdeb1|]]; repeat split; assumption.
  - reflexivity.
  - unfold rescheduled. simpl. rewrite Hc. apply elem_of_app. right.
    apply list_elem_of_singleton. reflexivity.
  - intros Hin. destruct Hdeb as ((_ & Hfired & _) & _).
    rewrite <- Hf in Hin. apply Hfired in Hin. lia.
Qed.

Lemma settled_on_parameter_change (c : Z) (r : nat) (f : list nat) :
  preserves (settled c r f) on_parameter_change.
Proof. intros s Hs. apply (armed_on_parameter_change c r f s Hs). Qed.

Lemma settled_var_set_traced (c : Z) (r : nat) (f : list nat)
    (name : string) (v : value) :
  preserves (settled c r f) (var_set_traced name v).
Proof.
  unfold var_set_traced, var_set. apply preserves_bind.
  - apply preserves_modify. intros s Hs. exact Hs.
  - intros _. destruct (traced name);
      [apply settled_on_parameter_change | apply preserves_ret].
Qed.

Lemma settled_set_all (c : Z) (r : nat) (f : list nat)
    (items : list (string * value)) :
  preserves (settled c r f) (set_all items).
Proof.
  induction items as [|[param v] items IH]; simpl; [apply preserves_ret|].
  apply preserves_bind; [apply settled_var_set_traced | intros _; exact IH].
Qed.

Lemma settled_apply_preset (c : Z) (r : nat) (f : list nat)
    (preset : list (string * value)) (params : list string) :
  preserves (settled c r f) (apply_preset preset params).
Proof.
  induction params as [|param params IH]; simpl; [apply preserves_ret|].
  apply preserves_bind; [|intros _; exact IH].
  destruct (assoc param preset);
    [apply settled_var_set_traced | apply preserves_ret].
Qed.

Lemma apply_preset_returns (preset : list (string * value))
    (params : list string) (s : St) :
  result (apply_preset preset params) s = Ret tt.
Proof.
  revert s. induction params as [|param params IH]; intros s; [reflexivity|].
  unfold result in *. simpl. rewrite bind_unfold.
  destruct (assoc param preset) as [v|].
  - destruct (var_set_traced_run param v s) as (s1 & -> & _). apply IH.
  - apply IH.
Qed.

Lemma set_all_returns (items : list (string * value)) (s : St) :
  result (set_all items) s = Ret tt.
Proof.
  destruct (set_all_run items s) as (s1 & H & _). unfold result.
  rewrite H. reflexivity.
Qed.

(** The run started at once, with the scheduled one still pending. *)
Definition started (c : Z) (r : nat) (f : list nat) (j : nat) (s : St)
    : Prop :=
  live_preview (self s) = true
  /\ bool_decide (is_Some (current_image (self s))) = true
  /\ processing (self s) = true
  /\ debounced s
  /\ clock (tk s) = c /\ runs (ghost s) = S r /\ fired (ghost s) = f
  /\ parameter_change_job (self s) = Some j
  /\ job_timer j c ∈ after_queue (tk s)
  /\ j ∉ f.

(** The end of [reset_parameters] and of [load_preset]: the labels are
    refreshed, the texts set, and the pipeline started. *)
Lemma started_at_once (c : Z) (r : nat) (f : list nat) (s : St)
    (texts : io unit) :
  (forall x, texts x = (Ret tt, exec texts x)) ->
  (forall x, sched_of (exec texts x) = sched_of x) ->
  settled c r f s ->
  let tail :=
    _ ← on_parameter_change;
    _ ← texts;
    s ← get;
    if live_preview (self s) && bool_decide (is_Some (current_image (self s)))
    then start_processing else mret tt in
  started c r f (next_after_id (tk s)) (exec tail s).
Proof.
  intros Hret Hsched Hs. cbv zeta.
  pose proof (armed_on_parameter_change c r f s Hs) as Harmed.
  rewrite (exec_bind _ _ s tt) by apply on_parameter_change_returns.
  set (s1 := exec on_parameter_change s) in *.
  rewrite (exec_bind _ _ s1 tt) by (unfold result; rewrite Hret; reflexivity).
  specialize (Hsched s1).
  set (s2 := exec texts s1) in *.
  destruct Harmed as (((Hlive & Himg & Hidle) & Hdeb & Hc & Hr & Hf)
                      & Hjob & Hin & Hnf).
  assert (Hdeb2 : debounced s2) by (eapply sched_debounced; eassumption).
  unfold sched_of in Hsched. injection Hsched.
  intros Hf2 Hr2 Hc2 Hn2 Hq2 Hjob2 Himg2 Hlive2 Hidle2.
  rewrite (exec_bind _ _ s2 s2) by reflexivity.
  change (exec get s2) with s2. rewrite Hlive2, Himg2, Hlive, Himg.
  cbn [andb].
  rewrite start_processing_idle by congruence.
  unfold started. simpl.
  split; [congruence|]. split; [congruence|]. split; [reflexivity|].
  split; [exact Hdeb2|]. split; [congruence|]. split; [congruence|].
  split; [congruence|]. split; [congruence|].
  split; [rewrite Hq2; exact Hin | exact Hnf].
Qed.

Ltac steady_assign :=
  idtac;
  match goal with
  | H : ?P _ = ?x |- ?P _ = ?x => exact H
  end.

(** What the worker leaves alone. *)
Definition steady (s : St) :=
  (live_preview (self s), current_image (self s),
   parameter_change_job (self s), clock (tk s), runs (ghost s),
   fired (ghost s)).

Lemma steady_process_pipeline (x : _) :
  preserves (fun s => steady s = x) process_pipeline.
Proof.
  unfold process_pipeline, pipeline_body, pipeline_handler, run_mkbitmap,
    run_potrace.
  pres steady_assign.
Qed.

(** The worker takes no timer from the queue. *)
Lemma queued_process_pipeline (t : Timer) :
  preserves (fun s => t ∈ after_queue (tk s)) process_pipeline.
Proof.
  unfold process_pipeline, pipeline_body, pipeline_handler, run_mkbitmap,
    run_potrace.
  pres ltac:(first [assumption
                   | simpl; apply elem_of_app; left; assumption]).
Qed.

Lemma NoDup_timer_id (q : list Timer) (t u : Timer) :
  NoDup (map timer_id q) -> t ∈ q -> u ∈ q -> timer_id t = timer_id u -> t = u.
Proof.
  induction q as [|v q IH]; intros Hnd Ht Hu Hid; [inversion Ht|].
  simpl in Hnd. apply NoDup_cons in Hnd as [Hv Hnd].
  apply elem_of_cons in Ht as [-> | Ht]; apply elem_of_cons in Hu as [-> | Hu].
  - reflexivity.
  - exfalso. apply Hv. rewrite Hid.
    apply list_elem_of_fmap. exists u. split; [reflexivity | exact Hu].
  - exfalso. apply Hv. rewrite <- Hid.
    apply list_elem_of_fmap. exists t. split; [reflexivity | exact Ht].
  - apply IH; assumption.
Qed.

(** After the worker has ended, the scheduled run is served as soon as the
    main loop reaches its time, and starts the pipeline again. *)
Lemma started_twice (c : Z) (r : nat) (f : list nat) (j : nat) (s : St)
    (T : Z) :
  started c r f j s ->
  c + 300 <= T ->
  let s2 := exec process_pipeline s in
  let s3 := exec (advance T) s2 in
  processing (self s2) = false
  /\ runs (ghost s2) = S r
  /\ job_timer j c ∈ after_queue (tk s2)
  /\ processing (self s3) = true
  /\ runs (ghost s3) = S (S r)
  /\ j ∈ fired (ghost s3).
Proof.
  intros (Hlive & Himg & Hbusy & Hdeb & Hc & Hr & Hf & Hjob & Hin & Hnf) HT.
  cbv zeta.
  pose proof (steady_process_pipeline (steady s) s eq_refl) as Hsteady.
  pose proof (queued_process_pipeline (job_timer j c) s Hin) as Hin2.
  pose proof (debounced_process_pipeline s Hdeb) as Hdeb2.
  pose proof (process_pipeline_resets s) as Hidle2.
  cbv beta in Hsteady, Hin2.
  set (s2 := exec process_pipeline s) in *.
  unfold steady in Hsteady. injection Hsteady.
  intros Hf2 Hr2 Hc2 Hjob2 Himg2 Hlive2.
  destruct Hdeb2 as ((Hlt & Hfired & Hstart) & Hnd).
  set (n := next_after_id (tk s2)) in *.
  assert (Hp : pending j (job_timer j c) n (S r) s2).
  { unfold pending.
    split; [congruence|]. split; [rewrite Himg2; exact Himg|].
    split; [congruence|].
    split; [intros Hx; apply Hfired in Hx; lia|].
    split; [intros t Ht; apply Hlt in Ht; lia|].
    split.
    - intros t Ht Hor.
      apply (NoDup_timer_id (after_queue (tk s2))); try assumption.
      destruct Hor as [Hst | Hid]; [|exact Hid].
      specialize (Hstart t Ht Hst). simpl. congruence.
    - left. split; [exact Hidle2|]. split; [congruence|].
      split; [exact Hin2|]. congruence. }
  assert (Hb : bounded n (clock (tk s2)) s2).
  { repeat split; assumption. }
  destruct (advance_pending j (job_timer j c) n (S r) n T s2 eq_refl eq_refl
              Hp Hb) as (Hp3 & _ & _ & Hfires).
  cbv zeta in Hp3, Hfires.
  set (s3 := exec (advance T) s2) in *.
  assert (Hbusy3 : processing (self s3) = true).
  { apply Hfires; [exact Hin2|]. simpl. lia. }
  destruct Hp3 as (_ & _ & _ & _ & _ & _ & Hstate3).
  destruct Hstate3 as [(Hfalse & _) | (_ & Hr3 & Hf3 & _)]; [congruence|].
  split; [exact Hidle2|]. split; [congruence|]. split; [exact Hin2|].
  split; [exact Hbusy3|]. split; assumption.
Qed.

Lemma texts_return (a b : string) (x : St) :
  (_ ← update_pipeline_status a; status_var_set b) x =
    (Ret tt, exec (_ ← update_pipeline_status a; status_var_set b) x).
Proof. reflexivity. Qed.

(** X16. Reset, and loading a preset, with live preview on, an image loaded
    and no run in progress: the handler starts the pipeline at once and
    leaves the run that its parameter changes scheduled pending, due 300 ms
    later. When the worker has ended by then, that timer starts the pipeline
    a second time: one click, two runs. *)
Theorem X16_reset_and_presets_run_the_pipeline_twice (s : St) (e : ui_event)
    (T : Z) :
  e = ResetParameters
  \/ (exists preset_name,
        e = LoadPreset preset_name /\ is_Some (assoc preset_name presets)) ->
  debounced s ->
  live_preview (self s) = true ->
  is_Some (current_image (self s)) ->
  processing (self s) = false ->
  clock (tk s) + 300 <= T ->
  let s1 := exec (handle e) s in
  let s2 := exec process_pipeline s1 in
  let s3 := exec (advance T) s2 in
  processing (self s1) = true
  /\ runs (ghost s1) = S (runs (ghost s))
  /\ (exists j, parameter_change_job (self s1) = Some j
                /\ job_timer j (clock (tk s)) ∈ after_queue (tk s1)
                /\ job_timer j (clock (tk s)) ∈ after_queue (tk s2)
                /\ j ∈ fired (ghost s3))
  /\ processing (self s2) = false
  /\ runs (ghost s2) = S (runs (ghost s))
  /\ processing (self s3) = true
  /\ runs (ghost s3) = S (S (runs (ghost s))).
Proof.
  intros He Hdeb Hlive Himg Hidle HT. cbv zeta.
  set (c := clock (tk s)). set (r := runs (ghost s)).
  set (f := fired (ghost s)).
  assert (Hs : settled c r f s).
  { split; [|split; [exact Hdeb | repeat split]].
    split; [exact Hlive|]. split; [|exact Hidle].
    apply bool_decide_eq_true. exact Himg. }
  assert (Hstarted : exists j, started c r f j (exec (handle e) s)).
  { destruct He as [-> | (preset_name & -> & [[[name description] preset] Hp])].
    - simpl. unfold reset_parameters.
      rewrite (exec_bind _ _ s tt) by apply set_all_returns.
      pose proof (settled_set_all c r f default_values s Hs) as Hs1.
      eexists.
      apply (started_at_once c r f _
               (status_var_set "Parameters reset to defaults"));
        [reflexivity | reflexivity | exact Hs1].
    - simpl. unfold load_preset. rewrite Hp.
      rewrite (exec_bind _ _ s tt) by apply apply_preset_returns.
      pose proof (settled_apply_preset c r f preset preset_params s Hs) as Hs1.
      eexists.
      pose proof (started_at_once c r f _
               (_ ← update_pipeline_status
                      ("📋 Applied preset: " ++ name ++ " - " ++ description);
                status_var_set ("Loaded " ++ name ++ " preset"))
               (texts_return _ _) (fun x => eq_refl) Hs1) as H.
      cbv zeta in H. exact H. }
  destruct Hstarted as (j & Hstarted).
  destruct (started_twice c r f j _ T Hstarted HT)
    as (Hidle2 & Hr2 & Hin2 & Hbusy3 & Hr3 & Hf3).
  destruct Hstarted as (_ & _ & Hbusy & _ & _ & Hr1 & _ & Hjob & Hin & _).
  split; [exact Hbusy|]. split; [exact Hr1|].
  split; [exists j; repeat split; assumption|].
  repeat split; assumption.
Qed.

(** *** [verify_tools] *)

(** [sep.join(parts)] *)
Fixpoint join (sep : string) (parts : list string) : string :=
  match parts with
  | [] => EmptyString
  | [p] => p
  | p :: rest => (p ++ sep ++ join sep rest)%string
  end.

(** Lines 828-833, for one tool: the program is run with [--version] and its
    exit status is not looked at; any exception marks the tool as missing. *)
Definition tool_mark (tool : string) : io string :=
  try_catch (_ ← run [tool; "--version"]; mret ("✅ " ++ tool)%string)
            (fun _ => mret ("❌ " ++ tool)%string).

(** Lines 823-847. The result tells whether the "Tools Missing" warning is
    shown. *)
Definition verify_tools : io bool :=
  mkbitmap_mark ← tool_mark "mkbitmap";
  potrace_mark ← tool_mark "potrace";
  s ← get;
  let wsl_mark :=
    if wsl_available (self s) then "✅ WSL2 SVG" else "⚠️ WSL2 not available" in
  let tools_status := [mkbitmap_mark; potrace_mark; wsl_mark] in
  _ ← status_var_set (join " | " tools_status);
  mret (Str.contains "❌" (join " " tools_status)).

(** The call returned: the program could be started and ended in time. *)
Definition completed (r : outcome (Z * string)) : bool :=
  match r with
  | Ret _ => true
  | Raise _ => false
  end.

Lemma tool_mark_run (tool : string) (s : St) :
  tool_mark tool s =
    (Ret ((if completed (fst (subprocess_run [tool; "--version"] (os s)))
           then "✅ " else "❌ ") ++ tool)%string,
     with_ghost (log_call (CallExec [tool; "--version"]))
       (with_os (fun _ => snd (subprocess_run [tool; "--version"] (os s))) s)).
Proof.
  unfold tool_mark. rewrite try_catch_unfold, bind_unfold. unfold run.
  destruct (subprocess_run _ (os s)) as [[r|e] o']; reflexivity.
Qed.

(** X17. [verify_tools] shows the "Tools Missing" warning exactly when
    mkbitmap or potrace could not be run with [--version] (the call raised:
    no such program, or a timeout). The exit status of a tool that ran plays
    no part, and neither does WSL2: without it the status line says so, but
    no warning is shown. The function never raises, and it runs the two
    commands in this order, potrace on the file system mkbitmap left. *)
Theorem X17_verify_tools_warns_when_a_tool_cannot_be_run (s : St) :
  let mkbitmap_run := subprocess_run ["mkbitmap"; "--version"] (os s) in
  let potrace_run := subprocess_run ["potrace"; "--version"] (snd mkbitmap_run) in
  let s' := exec verify_tools s in
  result verify_tools s =
    Ret (negb (completed (fst mkbitmap_run) && completed (fst potrace_run)))
  /\ os s' = snd potrace_run
  /\ self s' = self s
  /\ calls (ghost s') =
       calls (ghost s) ++ [CallExec ["mkbitmap"; "--version"];
                           CallExec ["potrace"; "--version"]]
  /\ (completed (fst mkbitmap_run) && completed (fst potrace_run) = true ->
      status_var (tk s') =
        if wsl_available (self s)
        then "✅ mkbitmap | ✅ potrace | ✅ WSL2 SVG"
        else "✅ mkbitmap | ✅ potrace | ⚠️ WSL2 not available").
Proof.
  cbv zeta. unfold result, exec, verify_tools.
  rewrite bind_unfold, tool_mark_run, bind_unfold, tool_mark_run.
  cbn [os with_os with_ghost].
  destruct (subprocess_run ["mkbitmap"; "--version"] (os s)) as [r1 o1].
  cbn [fst snd].
  destruct (subprocess_run ["potrace"; "--version"] o1) as [r2 o2].
  unfold status_var_set. io_unfold.
  cbn [fst snd self tk ghost os with_tk with_ghost with_os].
  destruct (completed r1), (completed r2), (wsl_available (self s)).
  all: cbn [andb negb].
  all: (split; [vm_compute; reflexivity|]).
  all: (split; [reflexivity|]). all: (split; [reflexivity|]).
  all: (split; [cbn [calls log_call]; rewrite <- app_assoc; reflexivity|]).
  all: first [intros H; discriminate H | intros _; vm_compute; reflexivity].
Qed.

(** *** Batch processing: what is saved for an image *)

Section Batch.

(** What a file opened with [open(path, 'w', encoding='utf-8')] holds after
    [f.write(text)]. *)
Variable written_text : string -> string.

(** [self.output_dir] *)
Definition output_dir : string :=
  WinPath.join (WinPath.join project_root "wwii_icons") "silhouettes".

(** [with open(str(directory / name), 'w', encoding='utf-8') as f:
    f.write(text)]: the directory must be there, and the name must not be
    that of a directory. *)
Definition write_text (directory name text : string) : io unit :=
  s ← get;
  let path := WinPath.join directory name in
  if negb (bool_decide (directory ∈ dirs (os s))) then raise FileNotFoundError
  else if bool_decide (path ∈ dirs (os s))
       then raise (PyException "PermissionError")
  else write_file path (written_text text).

(** [output_name = image_file.stem + "_silhouette"] and
    [f"{output_name}.svg"] *)
Definition silhouette_name (file_stem : string) : string :=
  ((file_stem ++ "_silhouette") ++ ".svg")%string.

(** The line a file gets in the results box. *)
Inductive batch_line : Type :=
  | BatchSaved (name : string)
  | BatchFailed (name : string).

(** Lines 703-716 of [run_batch_processing]: the result for the file with
    the given name and stem is saved, or the file counted as failed. An
    exception goes to the [except] of the loop body. *)
Definition batch_save_result (file_name file_stem : string) : io batch_line :=
  s ← get;
  if truthy (potrace_svg_content (self s)) then
    _ ← write_text output_dir (silhouette_name file_stem)
          (default EmptyString (potrace_svg_content (self s)));
    mret (BatchSaved (silhouette_name file_stem))
  else mret (BatchFailed file_name).

(** X18. Batch processing, for a file that starts no run: when [load_image]
    fails to open the file, or live preview is off, [processing] is false
    when [load_image] returns, so the wait loop is not entered, and what
    is saved under the file's name is the SVG text the object held before,
    from an earlier image; the file is counted as saved. No run of the
    pipeline was started for it. *)
Theorem X18_batch_saves_the_previous_svg_when_no_run_starts (s : St)
    (file_name file_stem : string) (opened : outcome Image)
    (previous : string) :
  processing (self s) = false ->
  potrace_svg_content (self s) = Some previous ->
  previous <> EmptyString ->
  output_dir ∈ dirs (os s) ->
  WinPath.join output_dir (silhouette_name file_stem) ∉ dirs (os s) ->
  (exists e, opened = Raise e) \/ live_preview (self s) = false ->
  let s1 := exec (load_image file_name opened) s in
  let s2 := exec (batch_save_result file_name file_stem) s1 in
  processing (self s1) = false
  /\ runs (ghost s1) = runs (ghost s)
  /\ result (batch_save_result file_name file_stem) s1 =
       Ret (BatchSaved (silhouette_name file_stem))
  /\ files (os s2) !! WinPath.join output_dir (silhouette_name file_stem)
       = Some (written_text previous).
Proof.
  intros Hidle Hsvg Hne Hdir Hnodir Hcase. cbv zeta.
  assert (Hload : processing (self (exec (load_image file_name opened) s))
                  = false
                  /\ runs (ghost (exec (load_image file_name opened) s))
                     = runs (ghost s)
                  /\ potrace_svg_content
                       (self (exec (load_image file_name opened) s))
                     = Some previous
                  /\ os (exec (load_image file_name opened) s) = os s).
  { destruct Hcase as [[e ->] | Hoff].
    - repeat split; assumption.
    - destruct opened as [image|e]; [|repeat split; assumption].
      unfold exec, load_image, update_pipeline_status, status_var_set.
      io_unfold. cbn [fst snd self tk ghost os with_tk with_self].
      cbn [live_preview set_current_image]. rewrite Hoff.
      repeat split; assumption. }
  set (s1 := exec (load_image file_name opened) s) in *. clearbody s1.
  destruct Hload as (Hidle1 & Hruns1 & Hsvg1 & Hos1).
  split; [exact Hidle1|]. split; [exact Hruns1|].
  unfold result, exec, batch_save_result, write_text, write_file.
  io_unfold. cbv beta iota. cbn [fst snd].
  rewrite Hsvg1. destruct previous as [|c rest]; [contradiction|].
  cbn [truthy default]. cbv beta iota. rewrite Hos1.
  rewrite (bool_decide_true _ Hdir), (bool_decide_false _ Hnodir).
  cbn [negb fst snd os with_os files set_files].
  split; [reflexivity|]. apply lookup_insert_eq.
Qed.

End Batch.

End Tools.

(** ** The properties at work on the concrete surroundings *)

Lemma demo_stem_length (n : nat) : String.length (Demo.stem n) = n.
Proof. induction n as [|n IH]; simpl; [reflexivity | rewrite IH; reflexivity]. Qed.

Lemma demo_temp_name_fresh (suffix : string) (fs : gmap string string) :
  fs !! Demo.temp_name suffix fs = None.
Proof.
  destruct (fs !! Demo.temp_name suffix fs) as [c|] eqn:E; [|reflexivity].
  exfalso.
  assert (Hin : String.length (Demo.temp_name suffix fs)
                ∈ String.length <$> (map_to_list fs).*1).
  { apply list_elem_of_fmap. eexists. split; [reflexivity|].
    apply list_elem_of_fmap. exists (Demo.temp_name suffix fs, c).
    split; [reflexivity|]. apply elem_of_map_to_list. exact E. }
  apply max_list_elem_of_le in Hin. fold (Demo.longest fs) in Hin.
  unfold Demo.temp_name in Hin. rewrite length_app, demo_stem_length in Hin.
  lia.
Qed.

Lemma list_ascii_of_string_app (a b : string) :
  list_ascii_of_string (a ++ b) =
    (list_ascii_of_string a ++ list_ascii_of_string b)%list.
Proof. induction a as [|c a IH]; simpl; [reflexivity | rewrite IH; reflexivity]. Qed.

Lemma string_of_list_ascii_app (a b : list ascii) :
  string_of_list_ascii (a ++ b) =
    (string_of_list_ascii a ++ string_of_list_ascii b)%string.
Proof. induction a as [|c a IH]; simpl; [reflexivity | rewrite IH; reflexivity]. Qed.

Lemma prefix_of_app (p q : string) : Str.prefix_of p (p ++ q) = true.
Proof.
  induction p as [|c p IH]; simpl; [reflexivity|].
  rewrite Ascii.eqb_refl. exact IH.
Qed.

Lemma ends_with_app (stem suffix : string) :
  Str.ends_with suffix (stem ++ suffix) = true.
Proof.
  unfold Str.ends_with, Str.reverse.
  rewrite list_ascii_of_string_app, rev_app_distr, string_of_list_ascii_app.
  apply prefix_of_app.
Qed.

Lemma demo_temp_name_suffix (suffix : string) (fs : gmap string string) :
  Str.ends_with suffix (Demo.temp_name suffix fs) = true.
Proof. apply ends_with_app. Qed.

Lemma demo_tool_exits_1_failed (output_path : string) (cmd : list string)
    (o : Os) :
  tool_failed output_path (Demo.tool_exits 1 cmd o).
Proof. left. discriminate. Defined.

Lemma demo_idle_queue_ok : queue_ok Demo.idle.
Proof.
  unfold queue_ok. simpl. split; [|split]; intros ? H;
    apply elem_of_nil in H; destruct H.
Defined.

Definition demo_process_pipeline
    (tool : list string -> Os -> outcome (Z * string) * Os) : io unit :=
  process_pipeline Demo.pil_convert Demo.pil_save Demo.pil_open Demo.str_float
    Demo.decode_text Demo.encode_utf8 Demo.temp_name tool.

Definition demo_run_potrace
    (tool : list string -> Os -> outcome (Z * string) * Os)
    : option Image -> io (option string * option string) :=
  run_potrace Demo.pil_convert Demo.pil_save Demo.str_float Demo.decode_text
    Demo.encode_utf8 Demo.temp_name tool.

Definition demo_advance : Z -> io unit :=
  advance Demo.pil_open Demo.decode_text Demo.encode_utf8 Demo.et_fromstring
    Demo.temp_name (Demo.tool_exits 1).

(** mkbitmap exits with 1 on the loaded image: the worker ends with the flag
    cleared and the two failure messages posted. *)
Lemma C4_mkbitmap_failure_witness :
  let input_path := Demo.temp_name ".bmp" (files (os Demo.idle)) in
  let output_path :=
    Demo.temp_name ".pbm"
      (<[input_path := EmptyString]> (files (os Demo.idle))) in
  mainloop (tk Demo.idle) = true
  /\ (forall image cmd,
        current_image (self Demo.idle) = Some image ->
        result (mkbitmap_cmd Demo.str_float input_path output_path) Demo.idle
          = Ret cmd ->
        tool_failed output_path
          (Demo.tool_exits 1 cmd
             (mkbitmap_staged Demo.pil_convert Demo.pil_save Demo.idle image
                input_path output_path)))
  /\ map action
       (after_queue (tk (exec (demo_process_pipeline (Demo.tool_exits 1))
                           Demo.idle))) =
       [UpdatePipelineStatus "🔄 Stage 1: Running mkbitmap preprocessing...";
        UpdatePipelineStatus "❌ Stage 1: Mkbitmap preprocessing failed";
        SetStatus "❌ Mkbitmap failed"]
  /\ processing
       (self (exec (demo_process_pipeline (Demo.tool_exits 1)) Demo.idle)) =
     false.
Proof.
  cbv zeta.
  assert (Hfails : forall image cmd,
            current_image (self Demo.idle) = Some image ->
            result (mkbitmap_cmd Demo.str_float
                      (Demo.temp_name ".bmp" (files (os Demo.idle)))
                      (Demo.temp_name ".pbm"
                         (<[Demo.temp_name ".bmp" (files (os Demo.idle))
                            := EmptyString]> (files (os Demo.idle)))))
              Demo.idle = Ret cmd ->
            tool_failed
              (Demo.temp_name ".pbm"
                 (<[Demo.temp_name ".bmp" (files (os Demo.idle))
                    := EmptyString]> (files (os Demo.idle))))
              (Demo.tool_exits 1 cmd
                 (mkbitmap_staged Demo.pil_convert Demo.pil_save Demo.idle
                    image
                    (Demo.temp_name ".bmp" (files (os Demo.idle)))
                    (Demo.temp_name ".pbm"
                       (<[Demo.temp_name ".bmp" (files (os Demo.idle))
                          := EmptyString]> (files (os Demo.idle)))))))
    by (intros; apply demo_tool_exits_1_failed).
  split; [reflexivity|]. split; [exact Hfails|].
  pose proof (C4_mkbitmap_failure_stops_pipeline Demo.pil_convert
                Demo.pil_save Demo.pil_open Demo.str_float Demo.decode_text
                Demo.encode_utf8 Demo.temp_name (Demo.tool_exits 1)
                Demo.idle eq_refl Hfails) as H.
  cbv zeta in H. destruct H as (_ & Hq & _ & _ & Hp).
  split; [|exact Hp].
  unfold demo_process_pipeline. rewrite Hq. reflexivity.
Defined.

(** potrace writes an SVG on the loaded image: both temporary files are gone
    afterwards. *)
Lemma C5_run_potrace_witness :
  (forall suffix fs, fs !! Demo.temp_name suffix fs = None)
  /\ (forall suffix fs,
        Str.ends_with suffix (Demo.temp_name suffix fs) = true)
  /\ let input_path := Demo.temp_name ".pbm" (files (os Demo.idle)) in
     let output_path :=
       Demo.temp_name ".svg"
         (<[input_path := EmptyString]> (files (os Demo.idle))) in
     let s' := exec (demo_run_potrace (Demo.tool_writes "<svg/>")
                       (Some Demo.image)) Demo.idle in
     files (os s') !! input_path = None
     /\ files (os s') !! output_path = None.
Proof.
  split; [exact demo_temp_name_fresh|]. split; [exact demo_temp_name_suffix|].
  pose proof (C5_run_potrace_result_and_cleanup Demo.pil_convert Demo.pil_save
                Demo.pil_open Demo.str_float Demo.decode_text Demo.encode_utf8
                Demo.et_fromstring Demo.temp_name
                (Demo.tool_writes "<svg/>") demo_temp_name_fresh
                demo_temp_name_suffix Demo.idle Demo.image) as H.
  cbv zeta in *. destruct H as (Hin & Hout & _).
  split; [exact Hin | exact Hout].
Defined.

(** Two changes 100 ms apart, the main loop looked at after 400 ms: one run. *)
Lemma C6_debounce_witness :
  queue_ok Demo.idle
  /\ live_preview (self Demo.idle) = true
  /\ is_Some (current_image (self Demo.idle))
  /\ processing (self Demo.idle) = false
  /\ clock (tk Demo.idle) <= 100 < clock (tk Demo.idle) + 300
  /\ 100 + 300 <= 400
  /\ runs (ghost (exec (demo_advance 400)
                    (exec on_parameter_change
                       (exec (demo_advance 100)
                          (exec on_parameter_change Demo.idle))))) = 1%nat.
Proof.
  assert (Himg : is_Some (current_image (self Demo.idle)))
    by (exists Demo.image; reflexivity).
  assert (Hwin : clock (tk Demo.idle) <= 100 < clock (tk Demo.idle) + 300)
    by (simpl; lia).
  assert (Hlate : 100 + 300 <= 400) by lia.
  repeat (split; [first [exact demo_idle_queue_ok | reflexivity | assumption]|]).
  pose proof (C6_debounce_one_run Demo.pil_open Demo.decode_text
                Demo.encode_utf8 Demo.et_fromstring Demo.temp_name
                (Demo.tool_exits 1) Demo.idle 100 400 demo_idle_queue_ok
                eq_refl Himg eq_refl Hwin Hlate) as H.
  cbv zeta in H. destruct H as (_ & _ & _ & _ & _ & Hruns & _).
  exact Hruns.
Defined.

(** A file in [C:\Temp] is copied into the project's temp directory, which is
    created on the way. *)
Lemma C7_temp_path_witness :
  is_temp_path "C:\Temp\tmpq.svg" = true
  /\ files (os Demo.idle) !! "C:\Temp\tmpq.svg" = Some "<svg/>"
  /\ project_temp_ready (os Demo.idle)
  /\ result (bridge_svg_path "C:\Temp\tmpq.svg") Demo.idle =
       Ret "/mnt/g/Claude Wargame Icon Generator/WWII Silhouette Icon System/temp/temp_tmpq.svg".
Proof.
  assert (Hready : project_temp_ready (os Demo.idle)).
  { right. split; [|reflexivity].
    change (project_root ∈ ({[ project_root ]} : gset string)).
    apply elem_of_singleton. reflexivity. }
  assert (Hnodir : WinPath.join wsl_temp_dir
                     ("temp_" ++ WinPath.basename "C:\Temp\tmpq.svg")
                   ∉ dirs (os Demo.idle)).
  { change (dirs (os Demo.idle)) with ({[ project_root ]} : gset string).
    intros Hin. apply elem_of_singleton in Hin. discriminate Hin. }
  split; [reflexivity|]. split; [reflexivity|]. split; [exact Hready|].
  pose proof (C7_temp_path_is_bridged_by_a_copy Demo.idle "C:\Temp\tmpq.svg"
                "<svg/>" eq_refl eq_refl Hready Hnodir) as H.
  cbv zeta in H. destruct H as (Hres & _). rewrite Hres. reflexivity.
Defined.

(** ** The preview size *)

(** C9. An SVG of intrinsic size 200 x 100 in the 400 x 300 box: the two
    axis scales are 2.0 and 3.0, the scale factor is 2.0, and the final size
    is 400 x 200. *)
Theorem C9_preview_200x100_in_400x300 :
  let w := Py.PyFloat (PyFloat.lit "200") in
  let h := Py.PyFloat (PyFloat.lit "100") in
  svg_intrinsic_size (Ret {[ "width" := "200"; "height" := "100" ]}) = (w, h)
  /\ Py.truediv (Py.PyInt 400) w = Ret (PyFloat.lit "2.0")
  /\ Py.truediv (Py.PyInt 300) h = Ret (PyFloat.lit "3.0")
  /\ scale_factor_of w h (400, 300) = Ret (PyFloat.lit "2.0")
  /\ preview_dimensions w h (400, 300) = Ret (400, 200).
Proof. vm_compute. repeat split. Qed.

(** C1, at the input where the code leaves the claim: an SVG of intrinsic
    size 97 x 10, as potrace writes it, gets 399 x 41 in the 400 x 300 box.
    The width scale [400 / 97] is the smaller one; [97 * (400 / 97)] is
    399.99999999999994 in binary64 and [int] truncates it, so neither axis
    reaches its side of the box. *)
Theorem C1_preview_97x10_fills_neither_axis :
  let w := Py.PyFloat (PyFloat.lit "97") in
  let h := Py.PyFloat (PyFloat.lit "10") in
  svg_intrinsic_size
    (Ret {[ "width" := "97.000000pt"; "height" := "10.000000pt" ]}) = (w, h)
  /\ Py.positive (PyFloat.lit "97") = true
  /\ Py.positive (PyFloat.lit "10") = true
  /\ Py.mul w (Py.PyFloat (Py.fdiv (PyFloat.lit "400") (PyFloat.lit "97"))) =
       Ret (S754_finite false 7036874417766399 (-44))
  /\ preview_dimensions w h target_canvas_size = Ret (399, 41)
  /\ 399 <> fst target_canvas_size
  /\ 41 <> snd target_canvas_size.
Proof. vm_compute. repeat split; discriminate. Qed.

(** The size extraction, attribute by attribute. *)

Lemma intrinsic_size_without_attributes (root : Element) :
  root !! "width" = None -> root !! "height" = None ->
  svg_intrinsic_size (Ret root) =
    (Py.PyFloat (PyFloat.lit "100"), Py.PyFloat (PyFloat.lit "100")).
Proof.
  intros Hw Hh. unfold svg_intrinsic_size. simpl.
  unfold extract_dimensions, attr_get. rewrite Hw, Hh. reflexivity.
Qed.

Example intrinsic_size_first_numeric_token :
  svg_intrinsic_size
    (Ret {[ "width" := "12.5px"; "height" := "x30pt 7"; "viewBox" := "0 0 1 1" ]})
  = (Py.PyFloat (PyFloat.lit "12.5"), Py.PyFloat (PyFloat.lit "30")).
Proof. vm_compute. reflexivity. Qed.

Example intrinsic_size_from_viewbox_when_no_digit :
  svg_intrinsic_size
    (Ret {[ "width" := "auto"; "height" := "auto"; "viewBox" := "0 0 200 50" ]})
  = (Py.PyFloat (PyFloat.lit "200"), Py.PyFloat (PyFloat.lit "50")).
Proof. vm_compute. reflexivity. Qed.

Example intrinsic_size_default :
  svg_intrinsic_size (Raise (PyException "ParseError"))
  = (Py.PyInt 100, Py.PyInt 100).
Proof. reflexivity. Qed.

(** C2, at the input where the code leaves the claim: a root element with a
    [viewBox] and neither [width] nor [height]. The defaults ['100'] of
    [root.get] match the pattern, so the size is 100 x 100 and the [viewBox]
    branch, which would give 200 x 50, is not reached. *)
Theorem C2_viewbox_is_ignored_without_attributes :
  let root : Element := {[ "viewBox" := "0 0 200 50" ]} in
  root !! "width" = None
  /\ root !! "height" = None
  /\ svg_intrinsic_size (Ret root) =
       (Py.PyFloat (PyFloat.lit "100"), Py.PyFloat (PyFloat.lit "100"))
  /\ svg_intrinsic_size (Ret root) <>
       (Py.PyFloat (PyFloat.lit "200"), Py.PyFloat (PyFloat.lit "50")).
Proof. vm_compute. repeat split. discriminate. Qed.

(** ** Rounding in binary64

    What [SpecFloat]'s rounding does to a positive value in the normal range:
    the mantissa is cut to 53 digits and moves up by at most one unit in the
    last place. The lemmas below follow [shr], [shr_fexp] and
    [binary_round_aux] as they are defined. *)

Lemma digits2_pos_spec (p : positive) :
  2 ^ (Z.pos (digits2_pos p) - 1) <= Z.pos p < 2 ^ Z.pos (digits2_pos p).
Proof.
  induction p as [p IH|p IH|]; cbn [digits2_pos].
  - rewrite Pos2Z.inj_succ.
    replace (Z.succ (Z.pos (digits2_pos p)) - 1) with (Z.succ (Z.pos (digits2_pos p) - 1)) by lia.
    rewrite !Z.pow_succ_r by lia. lia.
  - rewrite Pos2Z.inj_succ.
    replace (Z.succ (Z.pos (digits2_pos p)) - 1) with (Z.succ (Z.pos (digits2_pos p) - 1)) by lia.
    rewrite !Z.pow_succ_r by lia. lia.
  - simpl. lia.
Qed.

Lemma Zdigits2_spec (m : Z) :
  0 < m -> 2 ^ (Zdigits2 m - 1) <= m < 2 ^ Zdigits2 m.
Proof. destruct m as [|p|p]; try lia. intros _. apply digits2_pos_spec. Qed.

Lemma Zdigits2_pos (m : Z) : 0 < m -> 0 < Zdigits2 m.
Proof. destruct m; simpl; lia. Qed.

Lemma Zdigits2_unique (m d : Z) :
  2 ^ (d - 1) <= m < 2 ^ d -> 0 < m -> Zdigits2 m = d.
Proof.
  intros [Hlo Hhi] Hm.
  pose proof (Zdigits2_spec m Hm) as [Hlo' Hhi'].
  pose proof (Zdigits2_pos m Hm) as Hd.
  assert (0 < d).
  { destruct (Z_lt_le_dec 0 d); [assumption|].
    destruct (Z.eq_dec d 0) as [->|Hnz]; [simpl in Hhi; lia|].
    rewrite Z.pow_neg_r in Hhi by lia. lia. }
  destruct (Z_lt_le_dec (Zdigits2 m) d) as [Hlt|Hge].
  - assert (2 ^ Zdigits2 m <= 2 ^ (d - 1)) by (apply Z.pow_le_mono_r; lia). lia.
  - destruct (Z_lt_le_dec d (Zdigits2 m)) as [Hlt|Hge']; [|lia].
    assert (2 ^ d <= 2 ^ (Zdigits2 m - 1)) by (apply Z.pow_le_mono_r; lia). lia.
Qed.

(** [shr] is an iterated halving that remembers whether a one was dropped. *)
Lemma iter_pos_nat {A} (f : A -> A) (p : positive) (x : A) :
  SpecFloat.iter_pos f p x = Nat.iter (Pos.to_nat p) f x.
Proof.
  revert x. induction p as [p IH|p IH|]; intros x; cbn [SpecFloat.iter_pos].
  - rewrite !IH, Pos2Nat.inj_xI.
    replace (S (2 * Pos.to_nat p)) with (Pos.to_nat p + S (Pos.to_nat p))%nat
      by lia.
    rewrite Nat.iter_add, Nat.iter_succ_r. reflexivity.
  - rewrite !IH, Pos2Nat.inj_xO.
    replace (2 * Pos.to_nat p)%nat with (Pos.to_nat p + Pos.to_nat p)%nat
      by lia.
    rewrite Nat.iter_add. reflexivity.
  - reflexivity.
Qed.

Definition inexact (mrs : shr_record) : bool := shr_r mrs || shr_s mrs.

Lemma shr_1_spec (mrs : shr_record) :
  0 <= shr_m mrs ->
  shr_m (shr_1 mrs) = shr_m mrs / 2
  /\ inexact (shr_1 mrs) = inexact mrs || Z.odd (shr_m mrs).
Proof.
  destruct mrs as [m r s]. unfold inexact. simpl. intros Hm.
  destruct m as [|p|p]; try lia.
  - simpl. split; [reflexivity|]. destruct r, s; reflexivity.
  - destruct p as [p|p|]; simpl.
    + split; [rewrite Pos2Z.inj_xI; apply Z.div_unique with 1; lia|].
      destruct r, s; reflexivity.
    + split; [rewrite Pos2Z.inj_xO; apply Z.div_unique with 0; lia|].
      destruct r, s; reflexivity.
    + split; [reflexivity|]. destruct r, s; reflexivity.
Qed.

Lemma shr_iter_spec (k : nat) (mrs : shr_record) :
  0 <= shr_m mrs ->
  shr_m (Nat.iter k shr_1 mrs) = shr_m mrs / 2 ^ Z.of_nat k
  /\ inexact (Nat.iter k shr_1 mrs) =
       inexact mrs || negb (shr_m mrs mod 2 ^ Z.of_nat k =? 0).
Proof.
  intros Hm. induction k as [|k [IHm IHi]].
  - simpl. rewrite Z.div_1_r, Z.mod_1_r. simpl. rewrite orb_false_r. auto.
  - rewrite Nat.iter_succ.
    assert (H0 : 0 <= shr_m (Nat.iter k shr_1 mrs)).
    { rewrite IHm. apply Z.div_pos; [assumption|]. apply Z.pow_pos_nonneg; lia. }
    destruct (shr_1_spec _ H0) as [Hm1 Hi1].
    rewrite Hm1, Hi1, IHm, IHi. rewrite Nat2Z.inj_succ, Z.pow_succ_r by lia.
    set (P := 2 ^ Z.of_nat k) in *.
    assert (HP : 0 < P) by (apply Z.pow_pos_nonneg; lia).
    split.
    + rewrite Z.div_div by lia. f_equal. lia.
    + rewrite <- orb_assoc. f_equal.
      pose proof (Z.div_mod (shr_m mrs) P ltac:(lia)) as Hdm.
      pose proof (Z.mod_pos_bound (shr_m mrs) P HP) as Hb.
      set (q := shr_m mrs / P) in *. set (r := shr_m mrs mod P) in *.
      pose proof (Z.mod_pos_bound q 2 ltac:(lia)) as Hq2.
      assert (Hmod : shr_m mrs mod (2 * P) = r + P * (q mod 2)).
      { symmetry. apply Z.mod_unique with (q / 2).
        - left. nia.
        - pose proof (Z.div_mod q 2 ltac:(lia)). nia. }
      rewrite Hmod. rewrite Zodd_mod.
      destruct (Z.eqb_spec r 0) as [Hr|Hr]; simpl.
      * rewrite Hr. destruct (Z.eqb_spec (q mod 2) 1) as [Hq|Hq].
        -- rewrite Hq. destruct (Z.eqb_spec (0 + P * 1) 0); [lia|reflexivity].
        -- assert (Hz : q mod 2 = 0) by lia. rewrite Hz.
           destruct (Z.eqb_spec (0 + P * 0) 0); [reflexivity|lia].
      * destruct (Z.eqb_spec (r + P * (q mod 2)) 0); [nia|reflexivity].
Qed.

Abbreviation emin := (SpecFloat.emin Py.prec Py.emax).
Abbreviation fexp := (SpecFloat.fexp Py.prec Py.emax).

Lemma shr_spec (mrs : shr_record) (e n : Z) :
  0 <= shr_m mrs -> 0 <= n ->
  shr_m (fst (shr mrs e n)) = shr_m mrs / 2 ^ n
  /\ inexact (fst (shr mrs e n)) =
       inexact mrs || negb (shr_m mrs mod 2 ^ n =? 0)
  /\ snd (shr mrs e n) = e + n.
Proof.
  intros Hm Hn. destruct n as [|p|p]; try lia.
  - simpl. rewrite Z.div_1_r, Z.mod_1_r, orb_false_r, Z.add_0_r. auto.
  - cbn [shr fst snd]. rewrite iter_pos_nat.
    destruct (shr_iter_spec (Pos.to_nat p) mrs Hm) as [H1 H2].
    rewrite positive_nat_Z in H1, H2. auto.
Qed.

Definition is_exact (l : location) : bool :=
  match l with loc_Exact => true | _ => false end.

Lemma record_of_loc_spec (m : Z) (l : location) :
  shr_m (shr_record_of_loc m l) = m
  /\ inexact (shr_record_of_loc m l) = negb (is_exact l).
Proof. destruct l as [|[]]; split; reflexivity. Qed.

Lemma loc_of_record_spec (mrs : shr_record) :
  is_exact (loc_of_shr_record mrs) = negb (inexact mrs).
Proof. destruct mrs as [m [] []]; reflexivity. Qed.

Lemma round_nearest_even_spec (m : Z) (l : location) :
  m <= round_nearest_even m l <= m + 1
  /\ (is_exact l = true -> round_nearest_even m l = m).
Proof.
  destruct l as [|[]]; simpl; try (split; [lia | auto; discriminate]).
  destruct (Z.even m); split; try lia; discriminate.
Qed.

(** [shr_fexp] where no precision is lost to underflow. *)
Lemma shr_fexp_spec (m e : Z) (l : location) :
  0 < m -> Py.prec <= Zdigits2 m -> emin <= Zdigits2 m + e - Py.prec ->
  let n := Zdigits2 m - Py.prec in
  shr_m (fst (shr_fexp Py.prec Py.emax m e l)) = m / 2 ^ n
  /\ inexact (fst (shr_fexp Py.prec Py.emax m e l)) =
       negb (is_exact l) || negb (m mod 2 ^ n =? 0)
  /\ snd (shr_fexp Py.prec Py.emax m e l) = e + n
  /\ 2 ^ (Py.prec - 1) <= m / 2 ^ n < 2 ^ Py.prec.
Proof.
  intros Hm Hd He n. unfold shr_fexp.
  replace (SpecFloat.fexp Py.prec Py.emax (Zdigits2 m + e) - e) with n
    by (unfold SpecFloat.fexp, SpecFloat.emin, n in *; lia).
  destruct (record_of_loc_spec m l) as [Hrm Hri].
  destruct (shr_spec (shr_record_of_loc m l) e n) as (H1 & H2 & H3);
    [rewrite Hrm; lia | unfold n; lia |].
  rewrite Hrm, Hri in *. repeat split; try assumption.
  - destruct (Zdigits2_spec m Hm) as [Hlo _].
    replace (Zdigits2 m - 1) with (Py.prec - 1 + n) in Hlo by (unfold n; lia).
    rewrite Z.pow_add_r in Hlo by (unfold n, Py.prec in *; lia).
    apply Z.div_le_lower_bound; [apply Z.pow_pos_nonneg; unfold n; lia | lia].
  - destruct (Zdigits2_spec m Hm) as [_ Hhi].
    replace (Zdigits2 m) with (Py.prec + n) in Hhi by (unfold n; lia).
    rewrite Z.pow_add_r in Hhi by (unfold n, Py.prec in *; lia).
    apply Z.div_lt_upper_bound; [apply Z.pow_pos_nonneg; unfold n; lia | lia].
Qed.

(** The result of rounding [mx * 2 ^ ex], from the quotient [q] that [shr]
    leaves: [q] itself or [q + 1], renormalised when [q + 1] is [2 ^ 53]. *)
Lemma binary_round_aux_normal (mx ex : Z) (lx : location) :
  0 < mx ->
  Py.prec <= Zdigits2 mx ->
  emin <= Zdigits2 mx + ex - Py.prec ->
  Zdigits2 mx + ex <= Py.emax - 1 ->
  let n := Zdigits2 mx - Py.prec in
  let g := ex + n in
  let q := mx / 2 ^ n in
  exists m e,
    binary_round_aux Py.prec Py.emax false mx ex lx = S754_finite false m e
    /\ 2 ^ (Py.prec - 1) <= Z.pos m < 2 ^ Py.prec
    /\ g <= e <= g + 1
    /\ q <= Z.pos m * 2 ^ (e - g) <= q + 1
    /\ (is_exact lx = true -> mx mod 2 ^ n = 0 -> Z.pos m * 2 ^ (e - g) = q)
    /\ 2 ^ (Py.prec - 1) <= q.
Proof.
  intros Hm Hd Hlo Hhi n g q.
  destruct (shr_fexp_spec mx ex lx Hm Hd Hlo) as (H1 & H2 & H3 & Hq).
  fold n q in H1, H2, H3, Hq. fold g in H3.
  unfold binary_round_aux.
  destruct (shr_fexp Py.prec Py.emax mx ex lx) as [mrs' e']. cbn [fst snd] in *.
  subst e'. rewrite H1.
  destruct (round_nearest_even_spec q (loc_of_shr_record mrs')) as [Hr Hre].
  rewrite loc_of_record_spec, H2 in Hre.
  set (m2 := round_nearest_even q (loc_of_shr_record mrs')) in *.
  assert (Hpos : 0 < 2 ^ (Py.prec - 1)) by (apply Z.pow_pos_nonneg; unfold Py.prec; lia).
  assert (Hcase : m2 < 2 ^ Py.prec \/ m2 = 2 ^ Py.prec) by lia.
  destruct Hcase as [Hlt | Heq].
  - (* no carry *)
    assert (Hd2 : Zdigits2 m2 = Py.prec) by (apply Zdigits2_unique; lia).
    unfold shr_fexp. rewrite Hd2.
    replace (SpecFloat.fexp Py.prec Py.emax (Py.prec + g) - g) with 0
      by (unfold SpecFloat.fexp, SpecFloat.emin, g, n in *; lia).
    cbn [shr shr_record_of_loc shr_m].
    destruct m2 as [|p|p] eqn:E; try lia.
    replace (g <=? Py.emax - Py.prec) with true
      by (symmetry; apply Z.leb_le; unfold g, n; lia).
    exists p, g. rewrite Z.sub_diag, Z.mul_1_r.
    repeat split; try lia.
    intros Hex Hmod. apply Hre. rewrite Hex, Hmod. reflexivity.
  - (* the mantissa was rounded up to a power of two *)
    assert (Hd2 : Zdigits2 m2 = Py.prec + 1).
    { apply Zdigits2_unique; [|lia]. rewrite Heq.
      replace (Py.prec + 1 - 1) with Py.prec by lia.
      split; [lia|]. apply Z.pow_lt_mono_r; unfold Py.prec; lia. }
    unfold shr_fexp. rewrite Hd2.
    replace (SpecFloat.fexp Py.prec Py.emax (Py.prec + 1 + g) - g) with 1
      by (unfold SpecFloat.fexp, SpecFloat.emin, g, n in *; lia).
    destruct (shr_spec (shr_record_of_loc m2 loc_Exact) g 1) as (S1 & _ & S3);
      [simpl; lia | lia |].
    destruct (shr (shr_record_of_loc m2 loc_Exact) g 1) as [mrs2 e2].
    cbn [fst snd] in *. subst e2. rewrite S1. cbn [shr_record_of_loc shr_m].
    rewrite Heq. change (2 ^ Py.prec / 2 ^ 1) with (2 ^ (Py.prec - 1)).
    change (2 ^ (Py.prec - 1)) with (Z.pos (2 ^ 52)%positive) at 1.
    cbv beta iota.
    replace (g + 1 <=? Py.emax - Py.prec) with true
      by (symmetry; apply Z.leb_le; unfold g, n; lia).
    exists (2 ^ 52)%positive, (g + 1).
    replace (g + 1 - g) with 1 by lia.
    change (Z.pos (2 ^ 52) * 2 ^ 1) with (2 ^ Py.prec).
    change (Z.pos (2 ^ 52)) with (2 ^ (Py.prec - 1)).
    assert (2 ^ (Py.prec - 1) < 2 ^ Py.prec) by (apply Z.pow_lt_mono_r; unfold Py.prec; lia).
    repeat split; try lia.
    + intros Hex Hmod. rewrite <- Heq. apply Hre. rewrite Hex, Hmod. reflexivity.
Qed.

(** A normal mantissa: exactly [Py.prec] binary digits. *)
Definition normal (m : positive) : Prop := 2 ^ 52 <= Z.pos m < 2 ^ 53.

Lemma normal_digits (m : positive) : normal m -> Zdigits2 (Z.pos m) = Py.prec.
Proof. intros H. apply Zdigits2_unique; unfold normal, Py.prec in *; simpl; lia. Qed.

Lemma iter_xO (k p : positive) :
  Z.pos (Pos.iter xO p k) = Z.pos p * 2 ^ Z.pos k.
Proof.
  induction k as [|k IH] using Pos.peano_ind.
  - simpl. lia.
  - rewrite Pos.iter_succ, Pos2Z.inj_xO, IH, Pos2Z.inj_succ, Z.pow_succ_r by lia.
    ring.
Qed.

(** Rounding a value that needs no rounding. *)
Lemma binary_round_aux_exact (m : positive) (e : Z) :
  normal m -> emin <= e -> e <= Py.emax - Py.prec - 1 ->
  binary_round_aux Py.prec Py.emax false (Z.pos m) e loc_Exact = S754_finite false m e.
Proof.
  intros Hn Hlo Hhi. pose proof (normal_digits m Hn) as Hd.
  destruct (binary_round_aux_normal (Z.pos m) e loc_Exact) as (m' & e' & Hr & Hn' & He & Hv & Hex & _);
    try (rewrite ?Hd; unfold Py.prec, Py.emax in *; lia).
  rewrite Hd, Z.sub_diag, Z.add_0_r in *. simpl (2 ^ 0) in *.
  rewrite Z.div_1_r, Z.mod_1_r in *.
  specialize (Hex eq_refl eq_refl). rewrite Hr.
  assert (e' = e).
  { destruct (Z.eq_dec e' e) as [|Hne]; [assumption|].
    replace (e' - e) with 1 in Hex by lia. unfold normal, Py.prec in *.
    simpl in Hn, Hn', Hex. lia. }
  subst e'. rewrite Z.sub_diag in Hex. simpl in Hex. f_equal. lia.
Qed.

(** An int below [2 ^ 53] converts without rounding. *)
Lemma binary_normalize_int (N : Z) :
  0 < N < 2 ^ 53 ->
  exists m e,
    binary_normalize Py.prec Py.emax N 0 false = S754_finite false m e
    /\ normal m /\ -52 <= e <= 0 /\ Z.pos m = N * 2 ^ (- e).
Proof.
  intros HN. destruct N as [|p|p]; try lia.
  pose proof (digits2_pos_spec p) as Hd.
  set (d := Z.pos (digits2_pos p)) in *.
  assert (Hd53 : 1 <= d <= 53).
  { split; [unfold d; lia|].
    destruct (Z_le_gt_dec d 53) as [|Hgt]; [assumption|].
    assert (2 ^ 53 <= 2 ^ (d - 1)) by (apply Z.pow_le_mono_r; lia). lia. }
  cbn [binary_normalize]. unfold binary_round. fold d.
  replace (SpecFloat.fexp Py.prec Py.emax (d + 0)) with (d - 53)
    by (unfold SpecFloat.fexp, SpecFloat.emin, Py.prec, Py.emax; lia).
  unfold shl_align.
  destruct (d - 53 - 0) as [|k|k] eqn:Ek; try lia.
  - assert (d = 53) by lia.
    assert (Hn : normal p) by (unfold normal; replace 52 with (d - 1) by lia;
                               replace 53 with d by lia; exact Hd).
    rewrite binary_round_aux_exact; [|assumption|unfold SpecFloat.emin, Py.prec, Py.emax; lia
                        |unfold Py.prec, Py.emax; lia].
    exists p, 0. repeat split; try lia; apply Hn.
  - assert (Hk : Z.pos k = 53 - d) by lia.
    pose proof (iter_xO k p) as Hi. rewrite Hk in Hi.
    assert (Hn : normal (Pos.iter xO p k)).
    { assert (E1 : 2 ^ 52 = 2 ^ (d - 1) * 2 ^ (53 - d))
        by (rewrite <- Z.pow_add_r by lia; f_equal; lia).
      assert (E2 : 2 ^ 53 = 2 ^ d * 2 ^ (53 - d))
        by (rewrite <- Z.pow_add_r by lia; f_equal; lia).
      assert (0 < 2 ^ (53 - d)) by (apply Z.pow_pos_nonneg; lia).
      unfold normal. rewrite Hi, E1, E2. nia. }
    rewrite binary_round_aux_exact; [|assumption|unfold SpecFloat.emin, Py.prec, Py.emax; lia
                        |unfold Py.prec, Py.emax; lia].
    exists (Pos.iter xO p k), (d - 53). repeat split; try lia; try apply Hn.
    rewrite Hi. f_equal. f_equal. lia.
Qed.

(** ** Values on a fixed grid

    The floats of these computations are positive and of moderate size, so
    their values are integers once counted in units of [2 ^ (- grid)]. *)

Definition grid : Z := 1200.

Definition units (x : spec_float) : Z :=
  match x with
  | S754_finite false m e => Z.pos m * 2 ^ (e + grid)
  | _ => 0
  end.

Lemma pow2_add (a b c : Z) : 0 <= a -> 0 <= b -> c = a + b -> 2 ^ c = 2 ^ a * 2 ^ b.
Proof. intros Ha Hb ->. apply Z.pow_add_r; assumption. Qed.

Lemma pow2_pos (a : Z) : 0 <= a -> 0 < 2 ^ a.
Proof. intros Ha. apply Z.pow_pos_nonneg; lia. Qed.

(** The same on the grid: the result is at most one part in [2 ^ 52] above
    the value, stays below every multiple [K] of the rounding step that the
    value is below, and is the value itself when nothing is cut off. *)
Lemma binary_round_aux_bound (mx ex : Z) (lx : location) :
  0 < mx ->
  Py.prec <= Zdigits2 mx ->
  emin <= Zdigits2 mx + ex - Py.prec ->
  Zdigits2 mx + ex <= Py.emax - 1 ->
  - grid <= ex ->
  let n := Zdigits2 mx - Py.prec in
  exists m e,
    binary_round_aux Py.prec Py.emax false mx ex lx = S754_finite false m e
    /\ normal m
    /\ ex + n <= e <= ex + n + 1
    /\ 2 ^ 52 * (Z.pos m * 2 ^ (e + grid)) <= (2 ^ 52 + 1) * (mx * 2 ^ (ex + grid))
    /\ (forall K, mx < K * 2 ^ n -> Z.pos m * 2 ^ (e + grid) <= K * 2 ^ (ex + n + grid))
    /\ (is_exact lx = true -> mx mod 2 ^ n = 0 ->
        Z.pos m * 2 ^ (e + grid) = mx * 2 ^ (ex + grid)).
Proof.
  intros Hm Hd Hlo Hhi Hex n.
  destruct (binary_round_aux_normal mx ex lx Hm Hd Hlo Hhi)
    as (m & e & Hr & Hn & He & Hv & Hx & Hq).
  fold n in He, Hv, Hx, Hq.
  set (q := mx / 2 ^ n) in *.
  assert (Hn0 : 0 <= n) by (unfold n; lia).
  assert (HPn : 0 < 2 ^ n) by (apply pow2_pos; lia).
  assert (HE : 0 < 2 ^ (ex + grid)) by (apply pow2_pos; lia).
  assert (Hqm : q * 2 ^ n <= mx).
  { unfold q. rewrite Z.mul_comm. apply Z.mul_div_le. assumption. }
  assert (E1 : 2 ^ (e + grid) = 2 ^ (e - (ex + n)) * (2 ^ n * 2 ^ (ex + grid))).
  { rewrite <- (pow2_add n (ex + grid) (ex + n + grid)) by lia.
    apply pow2_add; lia. }
  set (X := Z.pos m * 2 ^ (e - (ex + n))) in *.
  assert (EX : Z.pos m * 2 ^ (e + grid) = X * (2 ^ n * 2 ^ (ex + grid))).
  { rewrite E1. unfold X. ring. }
  exists m, e. split; [assumption|]. split; [exact Hn|]. split; [lia|].
  rewrite EX. change (2 ^ (Py.prec - 1)) with (2 ^ 52) in Hq.
  split; [|split].
  - assert (H1 : 2 ^ 52 * X <= (2 ^ 52 + 1) * q) by lia.
    assert (H2 : 2 ^ 52 * X * 2 ^ n <= (2 ^ 52 + 1) * q * 2 ^ n)
      by (apply Z.mul_le_mono_nonneg_r; lia).
    assert (H3 : 2 ^ 52 * X * 2 ^ n <= (2 ^ 52 + 1) * mx) by nia.
    assert (H4 : 2 ^ 52 * X * 2 ^ n * 2 ^ (ex + grid)
                 <= (2 ^ 52 + 1) * mx * 2 ^ (ex + grid))
      by (apply Z.mul_le_mono_nonneg_r; lia).
    lia.
  - intros K HK.
    assert (q < K).
    { unfold q. apply Z.div_lt_upper_bound; [assumption | lia]. }
    rewrite (pow2_add n (ex + grid) (ex + n + grid)) by lia.
    assert (X <= K) by lia.
    rewrite Z.mul_assoc, (Z.mul_assoc K).
    apply Z.mul_le_mono_nonneg_r; [lia|].
    apply Z.mul_le_mono_nonneg_r; lia.
  - intros Hx1 Hx2. specialize (Hx Hx1 Hx2). rewrite Hx.
    assert (mx = q * 2 ^ n).
    { unfold q. rewrite (Z.div_mod mx (2 ^ n)) at 1 by lia. rewrite Hx2. ring. }
    lia.
Qed.

(** [ranged k x]: a positive normal float whose exponent is within [k] of
    zero. *)
Definition ranged (k : Z) (x : spec_float) : Prop :=
  exists m e, x = S754_finite false m e /\ normal m /\ - k <= e <= k.

Lemma ranged_mono (k k' : Z) (x : spec_float) :
  k <= k' -> ranged k x -> ranged k' x.
Proof.
  intros Hk (m & e & -> & Hn & He). exists m, e. repeat split; try apply Hn; lia.
Qed.

Lemma digits_between (x lo hi : Z) :
  0 <= lo -> 2 ^ lo <= x < 2 ^ hi -> lo < Zdigits2 x <= hi.
Proof.
  intros Hlo [H1 H2].
  assert (Hx : 0 < x) by (pose proof (pow2_pos lo Hlo); lia).
  destruct (Zdigits2_spec x Hx) as [H3 H4].
  pose proof (Zdigits2_pos x Hx) as Hd.
  split.
  - destruct (Z_lt_le_dec lo (Zdigits2 x)) as [|Hc]; [assumption|].
    assert (2 ^ Zdigits2 x <= 2 ^ lo) by (apply Z.pow_le_mono_r; lia). lia.
  - destruct (Z_le_gt_dec (Zdigits2 x) hi) as [|Hc]; [assumption|].
    assert (0 <= hi).
    { destruct (Z_le_gt_dec 0 hi); [assumption|].
      rewrite Z.pow_neg_r in H2 by lia. lia. }
    assert (2 ^ hi <= 2 ^ (Zdigits2 x - 1)) by (apply Z.pow_le_mono_r; lia). lia.
Qed.

(** The product: at most one part in [2 ^ 52] above the exact one, and never
    above the first factor when the second is at most [1.0]. *)
Lemma fmul_spec (ka kb : Z) (a b : spec_float) :
  ranged ka a -> ranged kb b -> 0 <= ka -> 0 <= kb -> ka + kb <= 800 ->
  ranged (ka + kb + 54) (SFmul Py.prec Py.emax a b)
  /\ 2 ^ 52 * (units (SFmul Py.prec Py.emax a b) * 2 ^ grid)
     <= (2 ^ 52 + 1) * (units a * units b)
  /\ (units b <= 2 ^ grid -> units (SFmul Py.prec Py.emax a b) <= units a).
Proof.
  intros (ma & ea & -> & Hna & Hea) (mb & eb & -> & Hnb & Heb) Hka Hkb Hk.
  cbn [SFmul xorb units].
  assert (Hmx : 2 ^ 104 <= Z.pos (ma * mb) < 2 ^ 106).
  { rewrite Pos2Z.inj_mul. unfold normal in *.
    change (2 ^ 104) with (2 ^ 52 * 2 ^ 52).
    change (2 ^ 106) with (2 ^ 53 * 2 ^ 53). nia. }
  assert (Hd : 104 < Zdigits2 (Z.pos (ma * mb)) <= 106)
    by (apply digits_between; [lia | exact Hmx]).
  destruct (binary_round_aux_bound (Z.pos (ma * mb)) (ea + eb) loc_Exact)
    as (m & e & Hr & Hn & He & Hrel & Hcap & Hexact);
    try (unfold Py.prec, Py.emax, SpecFloat.emin, grid in *; lia).
  set (n := Zdigits2 (Z.pos (ma * mb)) - Py.prec) in *.
  assert (Hn2 : 52 <= n <= 53) by (unfold n, Py.prec; lia).
  rewrite Hr. cbn [units].
  assert (HEa : 0 < 2 ^ (ea + grid)) by (apply pow2_pos; unfold grid; lia).
  assert (HEb : 0 < 2 ^ (eb + grid)) by (apply pow2_pos; unfold grid; lia).
  assert (HG : 0 < 2 ^ grid) by (apply pow2_pos; unfold grid; lia).
  assert (Eab : 2 ^ (ea + eb + grid) * 2 ^ grid = 2 ^ (ea + grid) * 2 ^ (eb + grid)).
  { rewrite <- !Z.pow_add_r by (unfold grid; lia). f_equal. lia. }
  split; [|split].
  - exists m, e. split; [reflexivity|]. split; [exact Hn|]. lia.
  - rewrite Pos2Z.inj_mul in Hrel.
    replace ((2 ^ 52 + 1) * (Z.pos ma * 2 ^ (ea + grid) * (Z.pos mb * 2 ^ (eb + grid))))
      with ((2 ^ 52 + 1) * (Z.pos ma * Z.pos mb * 2 ^ (ea + eb + grid)) * 2 ^ grid)
      by (replace (Z.pos ma * 2 ^ (ea + grid) * (Z.pos mb * 2 ^ (eb + grid)))
            with (Z.pos ma * Z.pos mb * (2 ^ (ea + grid) * 2 ^ (eb + grid))) by ring;
          rewrite <- Eab; ring).
    rewrite Z.mul_assoc. apply Z.mul_le_mono_nonneg_r; [lia | exact Hrel].
  - intros Hb.
    assert (Heb52 : eb <= -52).
    { destruct (Z_le_gt_dec eb (-52)) as [|Hc]; [assumption|].
      assert (2 ^ (grid + 1) <= 2 ^ 52 * 2 ^ (eb + grid)).
      { rewrite <- Z.pow_add_r by (unfold grid; lia).
        apply Z.pow_le_mono_r; unfold grid; lia. }
      assert (2 ^ (grid + 1) = 2 * 2 ^ grid)
        by (apply Z.pow_succ_r; unfold grid; lia).
      assert (2 ^ 52 * 2 ^ (eb + grid) <= Z.pos mb * 2 ^ (eb + grid))
        by (apply Z.mul_le_mono_nonneg_r; [lia | apply Hnb]).
      lia. }
    destruct (Z.eq_dec eb (-52)) as [E52 | N52].
    + (* the factor is 1.0 *)
      subst eb.
      assert (Z.pos mb = 2 ^ 52).
      { assert (E : 2 ^ grid = 2 ^ 52 * 2 ^ (-52 + grid))
          by (rewrite <- Z.pow_add_r by (unfold grid; lia); f_equal; lia).
        rewrite E in Hb. apply Z.mul_le_mono_pos_r in Hb; [|lia].
        unfold normal in Hnb. lia. }
      assert (Hmx' : Z.pos (ma * mb) = Z.pos ma * 2 ^ 52)
        by (rewrite Pos2Z.inj_mul; congruence).
      assert (E105 : Zdigits2 (Z.pos (ma * mb)) = 105).
      { apply Zdigits2_unique; [|lia]. rewrite Hmx'. unfold normal in Hna.
        change (2 ^ (105 - 1)) with (2 ^ 52 * 2 ^ 52).
        change (2 ^ 105) with (2 ^ 53 * 2 ^ 52). lia. }
      assert (En : n = 52) by (unfold n, Py.prec; lia).
      rewrite Hexact; [| reflexivity |].
      * rewrite Hmx'. rewrite <- Z.mul_assoc.
        rewrite <- Z.pow_add_r by (unfold grid; lia).
        replace (52 + (ea + -52 + grid)) with (ea + grid) by lia. lia.
      * rewrite En, Hmx'. apply Z.mod_mul. lia.
    + (* the factor is below 1.0 *)
      assert (Hnn : 0 <= - eb - n) by lia.
      specialize (Hcap (Z.pos ma * 2 ^ (- eb - n))).
      replace (Z.pos ma * 2 ^ (- eb - n) * 2 ^ (ea + eb + n + grid))
        with (Z.pos ma * 2 ^ (ea + grid)) in Hcap.
      * apply Hcap. rewrite <- Z.mul_assoc, <- Z.pow_add_r by lia.
        replace (- eb - n + n) with (- eb) by lia.
        rewrite Pos2Z.inj_mul.
        assert (2 ^ 53 <= 2 ^ (- eb)) by (apply Z.pow_le_mono_r; lia).
        apply Z.mul_lt_mono_pos_l; [lia | unfold normal in *; lia].
      * rewrite <- Z.mul_assoc, <- Z.pow_add_r by (unfold grid; lia).
        do 2 f_equal. lia.
Qed.

Lemma div_core_normal (ma mb : positive) (ea eb : Z) :
  normal ma -> normal mb -> -1000 <= ea - eb ->
  SFdiv_core_binary Py.prec Py.emax (Z.pos ma) ea (Z.pos mb) eb
  = ((Z.pos ma * 2 ^ 53) / Z.pos mb, ea - eb - 53,
     new_location (Z.pos mb) ((Z.pos ma * 2 ^ 53) mod Z.pos mb)).
Proof.
  intros Hna Hnb He. unfold SFdiv_core_binary.
  rewrite (normal_digits ma Hna), (normal_digits mb Hnb).
  replace (Z.min (SpecFloat.fexp Py.prec Py.emax (Py.prec + ea - (Py.prec + eb))) (ea - eb))
    with (ea - eb - 53)
    by (unfold SpecFloat.fexp, SpecFloat.emin, Py.prec, Py.emax; lia).
  replace (ea - eb - (ea - eb - 53)) with 53 by lia.
  cbv beta iota zeta. rewrite Z.shiftl_mul_pow2 by lia.
  unfold Z.div, Z.modulo.
  destruct (Z.div_eucl (Z.pos ma * 2 ^ 53) (Z.pos mb)) as [q r]. reflexivity.
Qed.

(** The quotient: at most one part in [2 ^ 52] above the exact one. *)
Lemma fdiv_spec (ka kb : Z) (a b : spec_float) :
  ranged ka a -> ranged kb b -> 0 <= ka -> 0 <= kb -> ka + kb <= 800 ->
  ranged (ka + kb + 53) (SFdiv Py.prec Py.emax a b)
  /\ 2 ^ 52 * (units b * units (SFdiv Py.prec Py.emax a b))
     <= (2 ^ 52 + 1) * (units a * 2 ^ grid).
Proof.
  intros (ma & ea & -> & Hna & Hea) (mb & eb & -> & Hnb & Heb) Hka Hkb Hk.
  cbn [SFdiv xorb units].
  rewrite div_core_normal by (assumption || lia).
  set (Q := Z.pos ma * 2 ^ 53 / Z.pos mb).
  assert (HQ : 2 ^ 52 <= Q < 2 ^ 54).
  { unfold Q, normal in *. split.
    - apply Z.div_le_lower_bound; [lia|]. lia.
    - apply Z.div_lt_upper_bound; [lia|]. lia. }
  assert (HQm : Q * Z.pos mb <= Z.pos ma * 2 ^ 53).
  { unfold Q. rewrite Z.mul_comm. apply Z.mul_div_le. lia. }
  assert (Hd : 52 < Zdigits2 Q <= 54) by (apply digits_between; [lia | exact HQ]).
  destruct (binary_round_aux_bound Q (ea - eb - 53)
              (new_location (Z.pos mb) ((Z.pos ma * 2 ^ 53) mod Z.pos mb)))
    as (m & e & Hr & Hn & He & Hrel & _ & _);
    try (unfold Py.prec, Py.emax, SpecFloat.emin, grid in *; lia).
  rewrite Hr. cbn [units]. split.
  - exists m, e. split; [reflexivity|]. split; [exact Hn|].
    unfold Py.prec in *. lia.
  - assert (HEb : 0 < 2 ^ (eb + grid)) by (apply pow2_pos; unfold grid; lia).
    assert (E : 2 ^ 53 * 2 ^ (ea - eb - 53 + grid) * 2 ^ (eb + grid)
                = 2 ^ (ea + grid) * 2 ^ grid).
    { rewrite <- !Z.pow_add_r by (unfold grid; lia). f_equal. lia. }
    set (V := Z.pos m * 2 ^ (e + grid)) in *.
    set (E0 := 2 ^ (ea - eb - 53 + grid)) in *.
    assert (H0 : 0 < E0) by (apply pow2_pos; unfold grid; lia).
    assert (H1 : 2 ^ 52 * V * Z.pos mb <= (2 ^ 52 + 1) * (Q * E0) * Z.pos mb)
      by (apply Z.mul_le_mono_nonneg_r; lia).
    assert (H2 : Q * Z.pos mb * E0 <= Z.pos ma * 2 ^ 53 * E0)
      by (apply Z.mul_le_mono_nonneg_r; lia).
    assert (H3 : 2 ^ 52 * V * Z.pos mb <= (2 ^ 52 + 1) * (Z.pos ma * 2 ^ 53 * E0))
      by lia.
    assert (H4 : 2 ^ 52 * V * Z.pos mb * 2 ^ (eb + grid)
                 <= (2 ^ 52 + 1) * (Z.pos ma * 2 ^ 53 * E0) * 2 ^ (eb + grid))
      by (apply Z.mul_le_mono_nonneg_r; lia).
    replace ((2 ^ 52 + 1) * (Z.pos ma * 2 ^ 53 * E0) * 2 ^ (eb + grid))
      with ((2 ^ 52 + 1) * (Z.pos ma * (2 ^ 53 * E0 * 2 ^ (eb + grid)))) in H4 by ring.
    rewrite E in H4. lia.
Qed.

(** ** The float operations of the display computation *)

Lemma float_of_int_spec (N : Z) :
  0 < N < 2 ^ 53 ->
  exists f, Py.float_of_int N = Ret f /\ ranged 52 f /\ units f = N * 2 ^ grid.
Proof.
  intros HN. destruct (binary_normalize_int N HN) as (m & e & Hf & Hn & He & Hv).
  exists (S754_finite false m e). unfold Py.float_of_int. rewrite Hf.
  split; [reflexivity|]. split.
  - exists m, e. split; [reflexivity|]. split; [exact Hn | lia].
  - cbn [units]. rewrite Hv, <- Z.mul_assoc, <- Z.pow_add_r by (unfold grid; lia).
    do 2 f_equal. lia.
Qed.

Lemma one_spec : ranged 52 Py.one /\ units Py.one = 2 ^ grid.
Proof.
  split.
  - exists 4503599627370496%positive, (-52). split; [reflexivity|].
    split; [unfold normal; simpl; lia | lia].
  - reflexivity.
Qed.

Lemma units_lt_exponent (ma mb : positive) (ea eb : Z) :
  normal ma -> normal mb -> - grid <= ea -> ea < eb ->
  Z.pos ma * 2 ^ (ea + grid) < Z.pos mb * 2 ^ (eb + grid).
Proof.
  intros Ha Hb Hg He.
  assert (H0 : 0 < 2 ^ (ea + grid)) by (apply pow2_pos; lia).
  assert (H1 : 2 ^ (ea + grid + 1) <= 2 ^ (eb + grid))
    by (apply Z.pow_le_mono_r; lia).
  assert (H2 : 2 ^ (ea + grid + 1) = 2 * 2 ^ (ea + grid))
    by (apply Z.pow_succ_r; lia).
  unfold normal in *. nia.
Qed.

Lemma flt_spec (k : Z) (a b : spec_float) :
  ranged k a -> ranged k b -> k <= grid ->
  Py.flt a b = (units a <? units b).
Proof.
  intros (ma & ea & -> & Hna & Hea) (mb & eb & -> & Hnb & Heb) Hk.
  unfold Py.flt, SFltb, SFcompare. cbn [units].
  destruct (Z.compare_spec ea eb) as [E | L | G].
  - subst eb. change (Pos.compare_cont Eq ma mb) with (Pos.compare ma mb).
    assert (0 < 2 ^ (ea + grid)) by (apply pow2_pos; lia).
    destruct (Pos.compare_spec ma mb) as [E | L | G]; symmetry.
    + subst. apply Z.ltb_irrefl.
    + apply Z.ltb_lt. nia.
    + apply Z.ltb_ge. nia.
  - symmetry. apply Z.ltb_lt. apply units_lt_exponent; (assumption || lia).
  - symmetry. apply Z.ltb_ge. apply Z.lt_le_incl.
    apply units_lt_exponent; (assumption || lia).
Qed.

Lemma min2_spec (k : Z) (a b : spec_float) :
  ranged k a -> ranged k b -> k <= grid ->
  ranged k (Py.min2 a b)
  /\ units (Py.min2 a b) <= units a
  /\ units (Py.min2 a b) <= units b.
Proof.
  intros Ha Hb Hk. unfold Py.min2. rewrite (flt_spec k b a Hb Ha Hk).
  destruct (Z.ltb_spec (units b) (units a)); repeat split; (assumption || lia).
Qed.

Lemma int_of_float_spec (k : Z) (x : spec_float) :
  ranged k x -> k <= grid ->
  exists z, Py.int_of_float x = Ret z /\ 0 <= z /\ z * 2 ^ grid <= units x.
Proof.
  intros (m & e & -> & Hn & He) Hk. cbn [Py.int_of_float units].
  destruct (Z.leb_spec 0 e) as [Hpos | Hneg].
  - exists (Z.pos m * 2 ^ e). split; [reflexivity|].
    pose proof (pow2_pos e Hpos). split; [lia|].
    rewrite <- Z.mul_assoc, <- Z.pow_add_r by (unfold grid; lia). lia.
  - exists (Z.pos m / 2 ^ (- e)). split; [reflexivity|].
    assert (Hp : 0 < 2 ^ (- e)) by (apply pow2_pos; lia).
    split; [apply Z.div_pos; lia|].
    assert (Hd : Z.pos m / 2 ^ (- e) * 2 ^ (- e) <= Z.pos m)
      by (rewrite Z.mul_comm; apply Z.mul_div_le; assumption).
    assert (E : 2 ^ grid = 2 ^ (- e) * 2 ^ (e + grid))
      by (apply pow2_add; lia).
    assert (0 < 2 ^ (e + grid)) by (apply pow2_pos; lia).
    rewrite E, Z.mul_assoc. apply Z.mul_le_mono_nonneg_r; lia.
Qed.

(** [available / size] for two ints: the quotient, at most one part in [2^52]
    above the exact one. *)
Lemma ratio_spec (A W : Z) :
  0 < A < 2 ^ 53 -> 0 < W < 2 ^ 53 ->
  exists r,
    Py.truediv (Py.PyInt A) (Py.PyInt W) = Ret r
    /\ ranged 157 r
    /\ 2 ^ 52 * (W * units r) <= (2 ^ 52 + 1) * (A * 2 ^ grid).
Proof.
  intros HA HW.
  destruct (float_of_int_spec A HA) as (fa & Efa & Ra & Ua).
  destruct (float_of_int_spec W HW) as (fw & Efw & Rw & Uw).
  unfold Py.truediv. cbn [Py.to_float]. rewrite Efa, Efw.
  cbn [mbind outcome_bind].
  assert (Hz : Py.is_zero fw = false)
    by (destruct Rw as (m & e & -> & _); reflexivity).
  rewrite Hz. exists (Py.fdiv fa fw). split; [reflexivity|].
  destruct (fdiv_spec 52 52 fa fw Ra Rw) as [Rr Hr]; try lia.
  split; [exact Rr|]. fold (Py.fdiv fa fw) in Hr. rewrite Ua, Uw in Hr.
  assert (HG : 0 < 2 ^ grid) by (apply pow2_pos; unfold grid; lia).
  apply (Z.mul_le_mono_pos_r _ _ (2 ^ grid) HG).
  lia.
Qed.

(** [int(size * scale_factor)] for a scale factor that is at most [1.0] and
    at most (one part in [2^52] above) [available / size]. *)
Lemma scaled_axis (W A : Z) (s : spec_float) :
  0 < W < 2 ^ 53 -> 0 < A < 2 ^ 50 ->
  ranged 157 s ->
  units s <= 2 ^ grid ->
  2 ^ 52 * (W * units s) <= (2 ^ 52 + 1) * (A * 2 ^ grid) ->
  exists wf z,
    Py.mul (Py.PyInt W) (Py.PyFloat s) = Ret wf
    /\ Py.int_of_float wf = Ret z
    /\ 0 <= z <= W /\ z <= A.
Proof.
  intros HW HA Rs Hs1 HsA.
  destruct (float_of_int_spec W HW) as (fw & Efw & Rw & Uw).
  unfold Py.mul. cbn [Py.to_float]. rewrite Efw. cbn [mbind outcome_bind mret outcome_ret].
  destruct (fmul_spec 52 157 fw s Rw Rs) as (Rp & Hrel & Hcap); try lia.
  fold (Py.fmul fw s) in Rp, Hrel, Hcap.
  destruct (int_of_float_spec _ (Py.fmul fw s) Rp) as (z & Ez & Hz0 & Hz);
    [unfold grid; lia|].
  exists (Py.fmul fw s), z. split; [reflexivity|]. split; [exact Ez|].
  specialize (Hcap Hs1). rewrite Uw in Hcap, Hrel.
  assert (HG : 0 < 2 ^ grid) by (apply pow2_pos; unfold grid; lia).
  set (G := 2 ^ grid) in *. set (U := units (Py.fmul fw s)) in *.
  set (S := units s) in *.
  assert (HzW : z <= W).
  { apply (Z.mul_le_mono_pos_r _ _ G HG). lia. }
  split; [lia|].
  assert (H1 : 2 ^ 52 * U <= (2 ^ 52 + 1) * (W * S)).
  { apply (Z.mul_le_mono_pos_r _ _ G HG). lia. }
  assert (H2 : 2 ^ 52 * (2 ^ 52 * (z * G)) <= (2 ^ 52 + 1) * ((2 ^ 52 + 1) * (A * G)))
    by lia.
  assert (H3 : 2 ^ 52 * (2 ^ 52 * z) <= (2 ^ 52 + 1) * ((2 ^ 52 + 1) * A)).
  { apply (Z.mul_le_mono_pos_r _ _ G HG). lia. }
  lia.
Qed.

(** ** [display_image_consistent] never enlarges *)

Lemma available_range (winfo least : Z) :
  20 < least < 2 ^ 50 -> winfo < 2 ^ 50 ->
  0 < Py.max2 winfo least - 2 * 10 < 2 ^ 50.
Proof. intros Hl Hw. unfold Py.max2. destruct (Z.ltb_spec winfo least); lia. Qed.

(** C10. For every image of positive width and height,
    [display_image_consistent] computes a size that exceeds neither the
    image's own size (the [1.0] in [min(width_ratio, height_ratio, 1.0)]) nor
    the available area of the canvas ([canvas_width - 2 * padding] by
    [canvas_height - 2 * padding]), and centres it. The sizes are those that
    ints and floats agree on: an image below [2 ^ 53] pixels a side, where
    [int] to [float] is exact, and a canvas below [2 ^ 50]. The preview size of
    [convert_svg_to_png_wsl2] has no such cap: an SVG of 200 x 100 is enlarged
    to 400 x 200. *)
Theorem C10_display_never_upscales
    (winfo_width winfo_height : Z) (image : Image) :
  0 < width image < 2 ^ 53 ->
  0 < height image < 2 ^ 53 ->
  winfo_width < 2 ^ 50 ->
  winfo_height < 2 ^ 50 ->
  let canvas_width := Py.max2 winfo_width 390 in
  let canvas_height := Py.max2 winfo_height 290 in
  exists new_width new_height,
    display_geometry winfo_width winfo_height image =
      Ret (new_width, new_height,
           (canvas_width - new_width) / 2, (canvas_height - new_height) / 2)
    /\ 0 <= new_width <= width image
    /\ 0 <= new_height <= height image
    /\ new_width <= canvas_width - 20
    /\ new_height <= canvas_height - 20
    /\ exists final_width final_height,
         preview_dimensions (Py.PyFloat (PyFloat.lit "200"))
           (Py.PyFloat (PyFloat.lit "100")) target_canvas_size
         = Ret (final_width, final_height)
         /\ 200 < final_width /\ 100 < final_height.
Proof.
  intros HW HH Hww Hwh canvas_width canvas_height.
  unfold display_geometry. cbv zeta. fold canvas_width canvas_height.
  assert (HA : 0 < canvas_width - 2 * 10 < 2 ^ 50)
    by (apply available_range; lia).
  assert (HB : 0 < canvas_height - 2 * 10 < 2 ^ 50)
    by (apply available_range; lia).
  set (A := canvas_width - 2 * 10) in *. set (B := canvas_height - 2 * 10) in *.
  destruct (ratio_spec A (width image)) as (rw & Erw & Rrw & Hrw); try lia.
  destruct (ratio_spec B (height image)) as (rh & Erh & Rrh & Hrh); try lia.
  rewrite Erw, Erh. cbn [mbind outcome_bind].
  destruct one_spec as [R1 U1].
  destruct (min2_spec 157 rw rh Rrw Rrh) as (R2 & L2w & L2h); [unfold grid; lia|].
  destruct (min2_spec 157 (Py.min2 rw rh) Py.one R2)
    as (R3 & L3 & L31); [eapply ranged_mono; [|exact R1]; lia | unfold grid; lia |].
  fold (Py.min3 rw rh Py.one) in R3, L3, L31.
  set (s := Py.min3 rw rh Py.one) in *. rewrite U1 in L31.
  assert (HG : 0 < 2 ^ grid) by (apply pow2_pos; unfold grid; lia).
  destruct (scaled_axis (width image) A s) as (wf & nw & Ewf & Enw & Hnw & HnwA);
    try (assumption || lia).
  { assert (width image * units s <= width image * units rw)
      by (apply Z.mul_le_mono_nonneg_l; lia). lia. }
  destruct (scaled_axis (height image) B s) as (hf & nh & Ehf & Enh & Hnh & HnhB);
    try (assumption || lia).
  { assert (height image * units s <= height image * units rh)
      by (apply Z.mul_le_mono_nonneg_l; lia). lia. }
  rewrite Ewf. cbn [mbind outcome_bind]. rewrite Enw. cbn [mbind outcome_bind].
  rewrite Ehf. cbn [mbind outcome_bind]. rewrite Enh. cbn [mbind outcome_bind].
  exists nw, nh. split; [reflexivity|].
  split; [lia|]. split; [lia|]. split; [unfold A in *; lia|].
  split; [unfold B in *; lia|].
  exists 400, 200. split; [vm_compute; reflexivity | lia].
Qed.

Example display_200x100_is_not_enlarged :
  display_geometry 400 300
    {| width := 200; height := 100; mode := "RGB"; pixels := [] |}
  = Ret (200, 100, 100, 100).
Proof. vm_compute. reflexivity. Qed.

Example display_800x200_is_reduced :
  display_geometry 400 300
    {| width := 800; height := 200; mode := "RGB"; pixels := [] |}
  = Ret (380, 95, 10, 102).
Proof. vm_compute. reflexivity. Qed.

Lemma C10_display_witness :
  let image := {| width := 800; height := 200; mode := "RGB"; pixels := [] |} in
  (0 < width image < 2 ^ 53)
  /\ (0 < height image < 2 ^ 53)
  /\ 400 < 2 ^ 50
  /\ 300 < 2 ^ 50
  /\ exists new_width new_height,
       display_geometry 400 300 image =
         Ret (new_width, new_height,
              (Py.max2 400 390 - new_width) / 2, (Py.max2 300 290 - new_height) / 2)
       /\ 0 <= new_width <= width image
       /\ 0 <= new_height <= height image
       /\ new_width <= Py.max2 400 390 - 20
       /\ new_height <= Py.max2 300 290 - 20
       /\ exists final_width final_height,
            preview_dimensions (Py.PyFloat (PyFloat.lit "200"))
              (Py.PyFloat (PyFloat.lit "100")) target_canvas_size
            = Ret (final_width, final_height)
            /\ 200 < final_width /\ 100 < final_height.
Proof.
  intros image.
  assert (H1 : 0 < width image < 2 ^ 53) by (simpl; lia).
  assert (H2 : 0 < height image < 2 ^ 53) by (simpl; lia).
  assert (H3 : 400 < 2 ^ 50) by lia.
  assert (H4 : 300 < 2 ^ 50) by lia.
  split; [exact H1|]. split; [exact H2|]. split; [exact H3|]. split; [exact H4|].
  exact (C10_display_never_upscales 400 300 image H1 H2 H3 H4).
Defined.


(** ** Rounding from below *)

(** The result of rounding is at least every multiple [K] of the rounding
    step that the value reaches, and at most one part in [2 ^ 52] below the
    value. *)
Lemma binary_round_aux_lower (mx ex : Z) (lx : location) :
  0 < mx ->
  Py.prec <= Zdigits2 mx ->
  emin <= Zdigits2 mx + ex - Py.prec ->
  Zdigits2 mx + ex <= Py.emax - 1 ->
  - grid <= ex ->
  let n := Zdigits2 mx - Py.prec in
  exists m e,
    binary_round_aux Py.prec Py.emax false mx ex lx = S754_finite false m e
    /\ normal m
    /\ ex + n <= e <= ex + n + 1
    /\ (forall K, K * 2 ^ n <= mx ->
          K * 2 ^ (ex + n + grid) <= Z.pos m * 2 ^ (e + grid))
    /\ 2 ^ 52 * (mx * 2 ^ (ex + grid)) <= (2 ^ 52 + 1) * (Z.pos m * 2 ^ (e + grid)).
Proof.
  intros Hm Hd Hlo Hhi Hex n.
  destruct (binary_round_aux_normal mx ex lx Hm Hd Hlo Hhi)
    as (m & e & Hr & Hn & He & Hv & _ & Hq).
  fold n in He, Hv, Hq.
  set (q := mx / 2 ^ n) in *.
  assert (Hn0 : 0 <= n) by (unfold n; lia).
  assert (HPn : 0 < 2 ^ n) by (apply pow2_pos; lia).
  assert (HE : 0 < 2 ^ (ex + grid)) by (apply pow2_pos; lia).
  assert (Hqm : mx < (q + 1) * 2 ^ n).
  { unfold q. pose proof (Z.mod_pos_bound mx (2 ^ n) HPn) as Hmod.
    rewrite (Z.div_mod mx (2 ^ n)) at 1 by lia. lia. }
  assert (E1 : 2 ^ (e + grid) = 2 ^ (e - (ex + n)) * (2 ^ n * 2 ^ (ex + grid))).
  { rewrite <- (pow2_add n (ex + grid) (ex + n + grid)) by lia.
    apply pow2_add; lia. }
  set (X := Z.pos m * 2 ^ (e - (ex + n))) in *.
  assert (EX : Z.pos m * 2 ^ (e + grid) = X * (2 ^ n * 2 ^ (ex + grid))).
  { rewrite E1. unfold X. ring. }
  exists m, e. split; [assumption|]. split; [exact Hn|]. split; [lia|].
  rewrite EX. change (2 ^ (Py.prec - 1)) with (2 ^ 52) in Hq.
  split.
  - intros K HK.
    assert (K <= q) by (unfold q; apply Z.div_le_lower_bound; lia).
    rewrite (pow2_add n (ex + grid) (ex + n + grid)) by lia.
    rewrite Z.mul_assoc, (Z.mul_assoc X).
    apply Z.mul_le_mono_nonneg_r; [lia|].
    apply Z.mul_le_mono_nonneg_r; lia.
  - assert (H1 : 2 ^ 52 * mx <= (2 ^ 52 + 1) * (q * 2 ^ n)).
    { assert (2 ^ 52 * 2 ^ n <= q * 2 ^ n)
        by (apply Z.mul_le_mono_nonneg_r; lia).
      lia. }
    assert (H2 : q * 2 ^ n <= X * 2 ^ n)
      by (apply Z.mul_le_mono_nonneg_r; lia).
    assert (H3 : 2 ^ 52 * mx * 2 ^ (ex + grid)
                 <= (2 ^ 52 + 1) * (X * 2 ^ n) * 2 ^ (ex + grid))
      by (apply Z.mul_le_mono_nonneg_r; lia).
    lia.
Qed.

(** The product from below. *)
Lemma fmul_lower (ka kb : Z) (a b : spec_float) :
  ranged ka a -> ranged kb b -> 0 <= ka -> 0 <= kb -> ka + kb <= 800 ->
  2 ^ 52 * (units a * units b)
  <= (2 ^ 52 + 1) * (units (SFmul Py.prec Py.emax a b) * 2 ^ grid).
Proof.
  intros (ma & ea & -> & Hna & Hea) (mb & eb & -> & Hnb & Heb) Hka Hkb Hk.
  cbn [SFmul xorb units].
  assert (Hmx : 2 ^ 104 <= Z.pos (ma * mb) < 2 ^ 106).
  { rewrite Pos2Z.inj_mul. unfold normal in *.
    change (2 ^ 104) with (2 ^ 52 * 2 ^ 52).
    change (2 ^ 106) with (2 ^ 53 * 2 ^ 53). nia. }
  assert (Hd : 104 < Zdigits2 (Z.pos (ma * mb)) <= 106)
    by (apply digits_between; [lia | exact Hmx]).
  destruct (binary_round_aux_lower (Z.pos (ma * mb)) (ea + eb) loc_Exact)
    as (m & e & Hr & Hn & He & _ & Hrel);
    try (unfold Py.prec, Py.emax, SpecFloat.emin, grid in *; lia).
  rewrite Hr. cbn [units].
  assert (HG : 0 < 2 ^ grid) by (apply pow2_pos; unfold grid; lia).
  assert (Eab : 2 ^ (ea + eb + grid) * 2 ^ grid = 2 ^ (ea + grid) * 2 ^ (eb + grid)).
  { rewrite <- !Z.pow_add_r by (unfold grid; lia). f_equal. lia. }
  rewrite Pos2Z.inj_mul in Hrel.
  replace (2 ^ 52 * (Z.pos ma * 2 ^ (ea + grid) * (Z.pos mb * 2 ^ (eb + grid))))
    with (2 ^ 52 * (Z.pos ma * Z.pos mb * 2 ^ (ea + eb + grid)) * 2 ^ grid)
    by (replace (Z.pos ma * 2 ^ (ea + grid) * (Z.pos mb * 2 ^ (eb + grid)))
          with (Z.pos ma * Z.pos mb * (2 ^ (ea + grid) * 2 ^ (eb + grid))) by ring;
        rewrite <- Eab; ring).
  rewrite (Z.mul_assoc (2 ^ 52 + 1)).
  apply Z.mul_le_mono_nonneg_r; [lia | exact Hrel].
Qed.

(** Multiplying by [1.0] changes nothing. *)
Lemma fmul_one (k : Z) (a : spec_float) :
  ranged k a -> 0 <= k <= 700 ->
  units (SFmul Py.prec Py.emax a Py.one) = units a.
Proof.
  intros (ma & ea & -> & Hna & Hea) Hk.
  unfold Py.one. cbn [SFmul xorb units].
  assert (Hmx : Z.pos (ma * 4503599627370496) = Z.pos ma * 2 ^ 52)
    by (rewrite Pos2Z.inj_mul; reflexivity).
  assert (E105 : Zdigits2 (Z.pos (ma * 4503599627370496)) = 105).
  { apply Zdigits2_unique; [|lia]. rewrite Hmx. unfold normal in Hna.
    change (2 ^ (105 - 1)) with (2 ^ 52 * 2 ^ 52).
    change (2 ^ 105) with (2 ^ 53 * 2 ^ 52). lia. }
  destruct (binary_round_aux_bound (Z.pos (ma * 4503599627370496)) (ea + -52)
              loc_Exact)
    as (m & e & Hr & Hn & He & _ & _ & Hexact);
    try (rewrite ?E105; unfold Py.prec, Py.emax, SpecFloat.emin, grid in *; lia).
  rewrite Hr. cbn [units]. rewrite Hexact; [|reflexivity|].
  - rewrite Hmx, <- Z.mul_assoc, <- Z.pow_add_r by (unfold grid; lia).
    do 2 f_equal. lia.
  - rewrite E105, Hmx. change (105 - Py.prec) with 52. apply Z.mod_mul. lia.
Qed.

(** The quotient from below, and at least [1.0] when the dividend is at
    least the divisor. *)
Lemma fdiv_lower (ka kb : Z) (a b : spec_float) :
  ranged ka a -> ranged kb b -> 0 <= ka -> 0 <= kb -> ka + kb <= 800 ->
  2 ^ 104 * (units a * 2 ^ grid)
  <= (2 ^ 52 + 1) * ((2 ^ 52 + 1) * (units b * units (SFdiv Py.prec Py.emax a b)))
  /\ (units b <= units a -> 2 ^ grid <= units (SFdiv Py.prec Py.emax a b)).
Proof.
  intros (ma & ea & -> & Hna & Hea) (mb & eb & -> & Hnb & Heb) Hka Hkb Hk.
  cbn [SFdiv xorb units].
  rewrite div_core_normal by (assumption || lia).
  set (Q := Z.pos ma * 2 ^ 53 / Z.pos mb).
  assert (HQ : 2 ^ 52 <= Q < 2 ^ 54).
  { unfold Q, normal in *. split.
    - apply Z.div_le_lower_bound; [lia|]. lia.
    - apply Z.div_lt_upper_bound; [lia|]. lia. }
  assert (HQm : Z.pos ma * 2 ^ 53 < (Q + 1) * Z.pos mb).
  { unfold Q. pose proof (Z.mod_pos_bound (Z.pos ma * 2 ^ 53) (Z.pos mb)) as Hmod.
    rewrite (Z.div_mod (Z.pos ma * 2 ^ 53) (Z.pos mb)) at 1 by lia. lia. }
  assert (Hd : 52 < Zdigits2 Q <= 54) by (apply digits_between; [lia | exact HQ]).
  destruct (binary_round_aux_lower Q (ea - eb - 53)
              (new_location (Z.pos mb) ((Z.pos ma * 2 ^ 53) mod Z.pos mb)))
    as (m & e & Hr & Hn & He & Hfloor & Hrel);
    try (unfold Py.prec, Py.emax, SpecFloat.emin, grid in *; lia).
  rewrite Hr. cbn [units].
  assert (HEa : 0 < 2 ^ (ea + grid)) by (apply pow2_pos; unfold grid; lia).
  assert (HEb : 0 < 2 ^ (eb + grid)) by (apply pow2_pos; unfold grid; lia).
  assert (HG : 0 < 2 ^ grid) by (apply pow2_pos; unfold grid; lia).
  set (V := Z.pos m * 2 ^ (e + grid)) in *.
  set (E0 := 2 ^ (ea - eb - 53 + grid)) in *.
  assert (H0 : 0 < E0) by (apply pow2_pos; unfold grid; lia).
  assert (E : 2 ^ 53 * E0 * 2 ^ (eb + grid) = 2 ^ (ea + grid) * 2 ^ grid).
  { unfold E0. rewrite <- !Z.pow_add_r by (unfold grid; lia). f_equal. lia. }
  split.
  - assert (H1 : 2 ^ 52 * (Z.pos ma * 2 ^ 53) <= (2 ^ 52 + 1) * (Q * Z.pos mb))
      by nia.
    assert (H2 : 2 ^ 52 * (Z.pos ma * 2 ^ 53) * E0
                 <= (2 ^ 52 + 1) * (Q * Z.pos mb) * E0)
      by (apply Z.mul_le_mono_nonneg_r; lia).
    assert (H3 : 2 ^ 52 * (Q * E0) * Z.pos mb <= (2 ^ 52 + 1) * V * Z.pos mb)
      by (apply Z.mul_le_mono_nonneg_r; lia).
    assert (H4 : 2 ^ 104 * (Z.pos ma * 2 ^ 53 * E0)
                 <= (2 ^ 52 + 1) * ((2 ^ 52 + 1) * (V * Z.pos mb))).
    { change (2 ^ 104) with (2 ^ 52 * 2 ^ 52). lia. }
    assert (H5 : 2 ^ 104 * (Z.pos ma * 2 ^ 53 * E0) * 2 ^ (eb + grid)
                 <= (2 ^ 52 + 1) * ((2 ^ 52 + 1) * (V * Z.pos mb)) * 2 ^ (eb + grid))
      by (apply Z.mul_le_mono_nonneg_r; lia).
    replace (2 ^ 104 * (Z.pos ma * 2 ^ 53 * E0) * 2 ^ (eb + grid))
      with (2 ^ 104 * (Z.pos ma * (2 ^ 53 * E0 * 2 ^ (eb + grid)))) in H5 by ring.
    rewrite E in H5. lia.
  - intros Hle.
    destruct (Z_le_gt_dec (-52) e) as [Hbig | Hsmall].
    + (* the exponent alone puts the quotient at 1.0 or above *)
      assert (2 ^ grid <= 2 ^ 52 * 2 ^ (e + grid)).
      { rewrite <- Z.pow_add_r by (unfold grid; lia).
        apply Z.pow_le_mono_r; unfold grid; lia. }
      etransitivity; [eassumption|]. unfold V.
      apply Z.mul_le_mono_nonneg_r; [|apply Hn].
      apply Z.lt_le_incl, pow2_pos. unfold grid. lia.
    + set (n := Zdigits2 Q - Py.prec) in *.
      assert (Hk0 : 0 <= - (ea - eb - 53) - n) by lia.
      specialize (Hfloor (2 ^ (- (ea - eb - 53) - n))).
      replace (2 ^ (- (ea - eb - 53) - n) * 2 ^ (ea - eb - 53 + n + grid))
        with (2 ^ grid) in Hfloor
        by (rewrite <- Z.pow_add_r by (unfold grid, n, Py.prec in *; lia);
            f_equal; lia).
      apply Hfloor.
      rewrite <- Z.pow_add_r by (unfold n, Py.prec in *; lia).
      replace (- (ea - eb - 53) - n + n) with (53 - ea + eb) by lia.
      unfold Q. apply Z.div_le_lower_bound; [lia|].
      assert (E2 : 2 ^ (53 - ea + eb) * 2 ^ (ea + grid) = 2 ^ 53 * 2 ^ (eb + grid)).
      { rewrite <- !Z.pow_add_r by (unfold grid, n, Py.prec in *; lia).
        f_equal. lia. }
      assert (H6 : Z.pos mb * 2 ^ (53 - ea + eb) * 2 ^ (ea + grid)
                   <= Z.pos ma * 2 ^ 53 * 2 ^ (ea + grid)).
      { rewrite <- Z.mul_assoc, E2.
        replace (Z.pos mb * (2 ^ 53 * 2 ^ (eb + grid)))
          with (2 ^ 53 * (Z.pos mb * 2 ^ (eb + grid))) by ring.
        replace (Z.pos ma * 2 ^ 53 * 2 ^ (ea + grid))
          with (2 ^ 53 * (Z.pos ma * 2 ^ (ea + grid))) by ring.
        apply Z.mul_le_mono_nonneg_l; [lia | exact Hle]. }
      apply Z.mul_le_mono_pos_r in H6; lia.
Qed.

(** [int(x)] is the floor of a positive [x]. *)
Lemma int_of_float_floor (k : Z) (x : spec_float) :
  ranged k x -> k <= grid ->
  exists z, Py.int_of_float x = Ret z
            /\ 0 <= z /\ z * 2 ^ grid <= units x < (z + 1) * 2 ^ grid.
Proof.
  intros (m & e & -> & Hn & He) Hk. cbn [Py.int_of_float units].
  destruct (Z.leb_spec 0 e) as [Hpos | Hneg].
  - exists (Z.pos m * 2 ^ e). split; [reflexivity|].
    pose proof (pow2_pos e Hpos).
    assert (HG : 0 < 2 ^ grid) by (apply pow2_pos; unfold grid; lia).
    split; [lia|].
    rewrite (Z.pow_add_r 2 e grid) by (unfold grid; lia). nia.
  - exists (Z.pos m / 2 ^ (- e)). split; [reflexivity|].
    assert (Hp : 0 < 2 ^ (- e)) by (apply pow2_pos; lia).
    split; [apply Z.div_pos; lia|].
    pose proof (Z.mod_pos_bound (Z.pos m) (2 ^ (- e)) Hp) as Hmod.
    pose proof (Z.div_mod (Z.pos m) (2 ^ (- e)) ltac:(lia)) as Hdm.
    assert (E : 2 ^ grid = 2 ^ (- e) * 2 ^ (e + grid))
      by (apply pow2_add; lia).
    assert (0 < 2 ^ (e + grid)) by (apply pow2_pos; lia).
    set (z := Z.pos m / 2 ^ (- e)) in *. rewrite E. nia.
Qed.

(** ** The preview size, for every size and box *)

(** [canvas / size] for a float size: within one part in [2 ^ 52] of the
    exact quotient, both ways. *)
Lemma ratio_float (k A : Z) (w : spec_float) :
  0 < A < 2 ^ 53 -> ranged k w -> 0 <= k <= 700 ->
  exists r,
    Py.truediv (Py.PyInt A) (Py.PyFloat w) = Ret r
    /\ ranged (k + 105) r
    /\ 2 ^ 52 * (units w * units r) <= (2 ^ 52 + 1) * (A * 2 ^ grid * 2 ^ grid)
    /\ 2 ^ 104 * (A * 2 ^ grid * 2 ^ grid)
       <= (2 ^ 52 + 1) * ((2 ^ 52 + 1) * (units w * units r)).
Proof.
  intros HA Rw Hk.
  destruct (float_of_int_spec A HA) as (fa & Efa & Ra & Ua).
  unfold Py.truediv. cbn [Py.to_float]. rewrite Efa.
  cbn [mbind outcome_bind mret outcome_ret].
  assert (Hz : Py.is_zero w = false)
    by (destruct Rw as (m & e & -> & _); reflexivity).
  rewrite Hz. exists (Py.fdiv fa w). split; [reflexivity|].
  destruct (fdiv_spec 52 k fa w Ra Rw) as [Rr Hr]; try lia.
  destruct (fdiv_lower 52 k fa w Ra Rw) as [Hl _]; try lia.
  fold (Py.fdiv fa w) in Rr, Hr, Hl. rewrite Ua in Hr, Hl.
  split; [eapply ranged_mono; [|exact Rr]; lia|].
  split; lia.
Qed.

(** [int(size * scale_factor)] for a float size. *)
Lemma scaled_float (kw ks : Z) (w s : spec_float) :
  ranged kw w -> ranged ks s -> 0 <= kw -> 0 <= ks -> kw + ks <= 800 ->
  exists p z,
    Py.mul (Py.PyFloat w) (Py.PyFloat s) = Ret p
    /\ Py.int_of_float p = Ret z
    /\ 0 <= z
    /\ z * 2 ^ grid <= units p < (z + 1) * 2 ^ grid
    /\ 2 ^ 52 * (units p * 2 ^ grid) <= (2 ^ 52 + 1) * (units w * units s)
    /\ 2 ^ 52 * (units w * units s) <= (2 ^ 52 + 1) * (units p * 2 ^ grid).
Proof.
  intros Rw Rs Hkw Hks Hk.
  destruct (fmul_spec kw ks w s Rw Rs) as (Rp & Hup & _); try lia.
  pose proof (fmul_lower kw ks w s Rw Rs Hkw Hks Hk) as Hlo.
  fold (Py.fmul w s) in Rp, Hup, Hlo.
  destruct (int_of_float_floor _ (Py.fmul w s) Rp) as (z & Ez & Hz0 & Hz);
    [unfold grid; lia|].
  exists (Py.fmul w s), z. repeat split; try assumption; lia.
Qed.

(** One axis of the preview: within the box, and within one pixel of it when
    the scale factor is this axis's own. *)
Lemma preview_axis (w r s : spec_float) (A : Z) :
  0 < A < 2 ^ 50 ->
  ranged 100 w -> ranged 205 r -> ranged 205 s ->
  2 ^ 52 * (units w * units r) <= (2 ^ 52 + 1) * (A * 2 ^ grid * 2 ^ grid) ->
  2 ^ 104 * (A * 2 ^ grid * 2 ^ grid)
    <= (2 ^ 52 + 1) * ((2 ^ 52 + 1) * (units w * units r)) ->
  units s <= units r ->
  exists p z,
    Py.mul (Py.PyFloat w) (Py.PyFloat s) = Ret p
    /\ Py.int_of_float p = Ret z
    /\ 0 <= z <= A
    /\ (s = r -> A - 1 <= z).
Proof.
  intros HA Rw Rr Rs Hup Hlo Hsr.
  destruct (scaled_float 100 205 w s Rw Rs) as (p & z & Ep & Ez & Hz0 & Hz & Hpu & Hpl);
    try lia.
  exists p, z. split; [exact Ep|]. split; [exact Ez|].
  assert (HG : 0 < 2 ^ grid) by (apply pow2_pos; unfold grid; lia).
  assert (Hw : 0 < units w).
  { destruct Rw as (m & e & -> & Hn & He). cbn [units].
    assert (0 < 2 ^ (e + grid)) by (apply pow2_pos; unfold grid; lia). lia. }
  set (G := 2 ^ grid) in *. set (P := units p) in *.
  set (W := units w) in *. set (S := units s) in *. set (R := units r) in *.
  assert (Hws : W * S <= W * R) by (apply Z.mul_le_mono_nonneg_l; lia).
  split; [split; [exact Hz0|]|].
  - assert (H1 : 2 ^ 52 * (2 ^ 52 * (P * G))
                 <= (2 ^ 52 + 1) * ((2 ^ 52 + 1) * (A * G * G))) by lia.
    assert (H2 : 2 ^ 52 * (2 ^ 52 * P) <= (2 ^ 52 + 1) * ((2 ^ 52 + 1) * (A * G))).
    { apply (Z.mul_le_mono_pos_r _ _ G HG). lia. }
    assert (H3 : 2 ^ 52 * (2 ^ 52 * (z * G))
                 <= (2 ^ 52 + 1) * ((2 ^ 52 + 1) * (A * G))) by lia.
    assert (H4 : 2 ^ 52 * (2 ^ 52 * z) <= (2 ^ 52 + 1) * ((2 ^ 52 + 1) * A)).
    { apply (Z.mul_le_mono_pos_r _ _ G HG). lia. }
    lia.
  - intros ->. fold R in Hpl.
    assert (H1 : 2 ^ 156 * (A * G * G)
                 <= (2 ^ 52 + 1) * ((2 ^ 52 + 1) * ((2 ^ 52 + 1) * (P * G)))).
    { change (2 ^ 156) with (2 ^ 52 * 2 ^ 104). lia. }
    assert (H2 : 2 ^ 156 * (A * G)
                 <= (2 ^ 52 + 1) * ((2 ^ 52 + 1) * ((2 ^ 52 + 1) * P))).
    { apply (Z.mul_le_mono_pos_r _ _ G HG). lia. }
    assert (H3 : 2 ^ 156 * (A * G)
                 < (2 ^ 52 + 1) * ((2 ^ 52 + 1) * ((2 ^ 52 + 1) * ((z + 1) * G)))).
    { lia. }
    assert (H4 : 2 ^ 156 * A
                 < (2 ^ 52 + 1) * ((2 ^ 52 + 1) * ((2 ^ 52 + 1) * (z + 1)))).
    { apply (Z.mul_lt_mono_pos_r G); [exact HG | lia]. }
    lia.
Qed.

(** X1. The preview size of [convert_svg_to_png_wsl2] (lines 365-375), for
    every positive size and every box: it never exceeds the box on either
    axis, and on the axis that limits the scale it reaches the box to within
    one pixel (the pixel that the 97 x 10 document loses). The sizes are the
    positive normal floats between [2 ^ -48] and [2 ^ 153], the box is below
    [2 ^ 50] pixels a side. *)
Theorem X1_preview_fits_the_box
    (svg_width svg_height : Py.float) (canvas_width canvas_height : Z) :
  ranged 100 svg_width ->
  ranged 100 svg_height ->
  0 < canvas_width < 2 ^ 50 ->
  0 < canvas_height < 2 ^ 50 ->
  exists final_width final_height,
    preview_dimensions (Py.PyFloat svg_width) (Py.PyFloat svg_height)
      (canvas_width, canvas_height) = Ret (final_width, final_height)
    /\ 0 <= final_width <= canvas_width
    /\ 0 <= final_height <= canvas_height
    /\ (canvas_width - 1 <= final_width \/ canvas_height - 1 <= final_height).
Proof.
  intros Rw Rh Hcw Hch.
  destruct (ratio_float 100 canvas_width svg_width) as (sx & Ex & Rx & Hxu & Hxl);
    try (assumption || lia).
  destruct (ratio_float 100 canvas_height svg_height) as (sy & Ey & Ry & Hyu & Hyl);
    try (assumption || lia).
  change (100 + 105) with 205 in Rx, Ry.
  destruct (min2_spec 205 sx sy Rx Ry) as (Rs & Lx & Ly); [unfold grid; lia|].
  unfold preview_dimensions, scale_factor_of. rewrite Ex, Ey.
  cbn [mbind outcome_bind mret outcome_ret].
  destruct (preview_axis svg_width sx (Py.min2 sx sy) canvas_width)
    as (pw & fw & Epw & Efw & Hfw & Hfw1); try assumption.
  destruct (preview_axis svg_height sy (Py.min2 sx sy) canvas_height)
    as (ph & fh & Eph & Efh & Hfh & Hfh1); try assumption.
  rewrite Epw. cbn [mbind outcome_bind]. rewrite Efw. cbn [mbind outcome_bind].
  rewrite Eph. cbn [mbind outcome_bind]. rewrite Efh. cbn [mbind outcome_bind].
  exists fw, fh. split; [reflexivity|]. split; [exact Hfw|]. split; [exact Hfh|].
  unfold Py.min2 in Hfw1, Hfh1. destruct (Py.flt sy sx); auto.
Qed.

Lemma ranged_97 : ranged 100 (PyFloat.lit "97").
Proof.
  exists 6825768185233408%positive, (-46). split; [vm_compute; reflexivity|].
  split; [unfold normal; simpl; lia | lia].
Qed.

Lemma ranged_10 : ranged 100 (PyFloat.lit "10").
Proof.
  exists 5629499534213120%positive, (-49). split; [vm_compute; reflexivity|].
  split; [unfold normal; simpl; lia | lia].
Qed.

(** The 97 x 10 document in the 400 x 300 box. *)
Lemma X1_preview_witness :
  ranged 100 (PyFloat.lit "97")
  /\ ranged 100 (PyFloat.lit "10")
  /\ 0 < 400 < 2 ^ 50
  /\ 0 < 300 < 2 ^ 50
  /\ exists final_width final_height,
       preview_dimensions (Py.PyFloat (PyFloat.lit "97"))
         (Py.PyFloat (PyFloat.lit "10")) (400, 300)
       = Ret (final_width, final_height)
       /\ 0 <= final_width <= 400
       /\ 0 <= final_height <= 300
       /\ (400 - 1 <= final_width \/ 300 - 1 <= final_height).
Proof.
  assert (H3 : 0 < 400 < 2 ^ 50) by lia.
  assert (H4 : 0 < 300 < 2 ^ 50) by lia.
  split; [exact ranged_97|]. split; [exact ranged_10|].
  split; [exact H3|]. split; [exact H4|].
  exact (X1_preview_fits_the_box _ _ 400 300 ranged_97 ranged_10 H3 H4).
Defined.

(** ** The displayed size, for every image and canvas *)

(** An int below [2 ^ 53] in float arithmetic is its float. *)
Lemma int_as_float (W : Z) (fw : Py.float) (a b : Py.num) :
  Py.float_of_int W = Ret fw ->
  Py.truediv a (Py.PyInt W) = Py.truediv a (Py.PyFloat fw)
  /\ Py.mul (Py.PyInt W) b = Py.mul (Py.PyFloat fw) b.
Proof.
  intros E. unfold Py.truediv, Py.mul. cbn [Py.to_float]. rewrite E.
  split; reflexivity.
Qed.

(** A normal float of value one is [1.0]. *)
Lemma units_eq_one (k : Z) (x : spec_float) :
  ranged k x -> k <= grid - 60 -> units x = 2 ^ grid -> x = Py.one.
Proof.
  intros (m & e & -> & Hn & He) Hk. cbn [units]. intros Hu.
  assert (HG : 0 < 2 ^ grid) by (apply pow2_pos; unfold grid; lia).
  assert (HE : 0 < 2 ^ (e + grid)) by (apply pow2_pos; unfold grid in *; lia).
  assert (He52 : e = -52).
  { destruct (Z.lt_trichotomy e (-52)) as [Hlt | [Heq | Hgt]]; [exfalso|exact Heq|exfalso].
    - assert (2 ^ 53 * 2 ^ (e + grid) <= 2 ^ grid).
      { rewrite <- Z.pow_add_r by (unfold grid in *; lia).
        apply Z.pow_le_mono_r; unfold grid in *; lia. }
      assert (Z.pos m * 2 ^ (e + grid) < 2 ^ 53 * 2 ^ (e + grid))
        by (apply Z.mul_lt_mono_pos_r; [exact HE | apply Hn]).
      lia.
    - assert (2 * 2 ^ grid <= 2 ^ 52 * 2 ^ (e + grid)).
      { rewrite <- (Z.pow_succ_r 2 grid) by (unfold grid; lia).
        rewrite <- Z.pow_add_r by (unfold grid in *; lia).
        apply Z.pow_le_mono_r; unfold grid in *; lia. }
      assert (2 ^ 52 * 2 ^ (e + grid) <= Z.pos m * 2 ^ (e + grid))
        by (apply Z.mul_le_mono_nonneg_r; [lia | apply Hn]).
      lia. }
  subst e.
  assert (E : 2 ^ grid = 2 ^ 52 * 2 ^ (-52 + grid))
    by (rewrite <- Z.pow_add_r by (unfold grid; lia); f_equal; lia).
  rewrite E in Hu. apply Z.mul_cancel_r in Hu; [|lia].
  unfold Py.one. f_equal. change (2 ^ 52) with (Z.pos 4503599627370496) in Hu.
  congruence.
Qed.

(** [int(size * 1.0)] is the size. *)
Lemma scaled_by_one (W : Z) :
  0 < W < 2 ^ 53 ->
  exists p, Py.mul (Py.PyInt W) (Py.PyFloat Py.one) = Ret p
            /\ Py.int_of_float p = Ret W.
Proof.
  intros HW.
  destruct (float_of_int_spec W HW) as (fw & Efw & Rw & Uw).
  unfold Py.mul. cbn [Py.to_float]. rewrite Efw.
  cbn [mbind outcome_bind mret outcome_ret].
  exists (Py.fmul fw Py.one). split; [reflexivity|].
  pose proof (fmul_one 52 fw Rw ltac:(lia)) as Hone.
  destruct one_spec as [R1 _].
  destruct (fmul_spec 52 52 fw Py.one Rw R1) as (Rp & _ & _); try lia.
  fold (Py.fmul fw Py.one) in Hone, Rp.
  destruct (int_of_float_floor _ (Py.fmul fw Py.one) Rp) as (z & Ez & _ & Hz);
    [unfold grid; lia|].
  rewrite Ez. f_equal. rewrite Hone, Uw in Hz.
  assert (HG : 0 < 2 ^ grid) by (apply pow2_pos; unfold grid; lia).
  destruct Hz as [Hz1 Hz2].
  apply Z.mul_le_mono_pos_r in Hz1; [|exact HG].
  apply Z.mul_lt_mono_pos_r in Hz2; [|exact HG]. lia.
Qed.

(** The three values the scale factor can take. *)
Lemma min3_cases (a b c : Py.float) :
  Py.min3 a b c = a \/ Py.min3 a b c = b \/ Py.min3 a b c = c.
Proof.
  unfold Py.min3, Py.min2.
  destruct (Py.flt b a); destruct (Py.flt c _); auto.
Qed.

(** The pieces of [display_geometry] for an image and the area available to
    it: the two ratios, the scale factor, and the two sizes with their
    bounds. *)
Lemma display_sizes (A B W H : Z) :
  0 < A < 2 ^ 50 -> 0 < B < 2 ^ 50 -> 0 < W < 2 ^ 53 -> 0 < H < 2 ^ 53 ->
  exists rw rh pw ph nw nh,
    Py.truediv (Py.PyInt A) (Py.PyInt W) = Ret rw
    /\ Py.truediv (Py.PyInt B) (Py.PyInt H) = Ret rh
    /\ Py.mul (Py.PyInt W) (Py.PyFloat (Py.min3 rw rh Py.one)) = Ret pw
    /\ Py.int_of_float pw = Ret nw
    /\ Py.mul (Py.PyInt H) (Py.PyFloat (Py.min3 rw rh Py.one)) = Ret ph
    /\ Py.int_of_float ph = Ret nh
    /\ 0 <= nw <= A /\ 0 <= nh <= B
    /\ (W <= A -> H <= B -> nw = W /\ nh = H)
    /\ ((nw = W /\ nh = H) \/ A - 1 <= nw \/ B - 1 <= nh).
Proof.
  intros HA HB HW HH.
  destruct (float_of_int_spec W HW) as (fw & Efw & Rfw & Ufw).
  destruct (float_of_int_spec H HH) as (fh & Efh & Rfh & Ufh).
  destruct (float_of_int_spec A) as (fa & Efa & Rfa & Ufa); [lia|].
  destruct (float_of_int_spec B) as (fb & Efb & Rfb & Ufb); [lia|].
  destruct (ratio_float 52 A fw) as (rw & Erw & Rrw & Hwu & Hwl);
    try (assumption || lia).
  destruct (ratio_float 52 B fh) as (rh & Erh & Rrh & Hhu & Hhl);
    try (assumption || lia).
  change (52 + 105) with 157 in Rrw, Rrh.
  assert (Erw' : Py.truediv (Py.PyInt A) (Py.PyInt W) = Ret rw)
    by (rewrite (proj1 (int_as_float W fw (Py.PyInt A) (Py.PyInt 0) Efw)); exact Erw).
  assert (Erh' : Py.truediv (Py.PyInt B) (Py.PyInt H) = Ret rh)
    by (rewrite (proj1 (int_as_float H fh (Py.PyInt B) (Py.PyInt 0) Efh)); exact Erh).
  destruct one_spec as [R1 U1].
  assert (R1' : ranged 157 Py.one) by (eapply ranged_mono; [|exact R1]; lia).
  destruct (min2_spec 157 rw rh Rrw Rrh) as (R2 & L2w & L2h); [unfold grid; lia|].
  destruct (min2_spec 157 (Py.min2 rw rh) Py.one R2 R1')
    as (R3 & L3 & L31); [unfold grid; lia|].
  fold (Py.min3 rw rh Py.one) in R3, L3, L31.
  set (s := Py.min3 rw rh Py.one) in *.
  destruct (preview_axis fw rw s A) as (pw & nw & Epw & Enw & Hnw & Hnw1);
    try (assumption || lia);
    try (eapply ranged_mono; [|eassumption]; lia).
  destruct (preview_axis fh rh s B) as (ph & nh & Eph & Enh & Hnh & Hnh1);
    try (assumption || lia);
    try (eapply ranged_mono; [|eassumption]; lia).
  rewrite <- (proj2 (int_as_float W fw (Py.PyInt 0) (Py.PyFloat s) Efw)) in Epw.
  rewrite <- (proj2 (int_as_float H fh (Py.PyInt 0) (Py.PyFloat s) Efh)) in Eph.
  assert (Hone : s = Py.one -> nw = W /\ nh = H).
  { intros Es. rewrite Es in Epw, Eph.
    destruct (scaled_by_one W HW) as (p1 & Ep1 & Ez1).
    destruct (scaled_by_one H HH) as (p2 & Ep2 & Ez2).
    split; congruence. }
  exists rw, rh, pw, ph, nw, nh.
  repeat (split; [assumption|]). split.
  - (* an image that fits *)
    intros HWA HHB. apply Hone.
    assert (HG : 0 < 2 ^ grid) by (apply pow2_pos; unfold grid; lia).
    assert (Hrw1 : 2 ^ grid <= units rw).
    { pose proof (proj2 (fdiv_lower 52 52 fa fw Rfa Rfw ltac:(lia) ltac:(lia)
                           ltac:(lia))) as Hge.
      unfold Py.truediv in Erw. cbn [Py.to_float] in Erw. rewrite Efa in Erw.
      cbn [mbind outcome_bind mret outcome_ret] in Erw.
      destruct (Py.is_zero fw); [discriminate|]. injection Erw as <-.
      apply Hge. rewrite Ufa, Ufw. apply Z.mul_le_mono_nonneg_r; lia. }
    assert (Hrh1 : 2 ^ grid <= units rh).
    { pose proof (proj2 (fdiv_lower 52 52 fb fh Rfb Rfh ltac:(lia) ltac:(lia)
                           ltac:(lia))) as Hge.
      unfold Py.truediv in Erh. cbn [Py.to_float] in Erh. rewrite Efb in Erh.
      cbn [mbind outcome_bind mret outcome_ret] in Erh.
      destruct (Py.is_zero fh); [discriminate|]. injection Erh as <-.
      apply Hge. rewrite Ufb, Ufh. apply Z.mul_le_mono_nonneg_r; lia. }
    apply (units_eq_one 157); [exact R3 | unfold grid; lia |].
    rewrite U1 in L31.
    destruct (min3_cases rw rh Py.one) as [E | [E | E]]; fold s in E;
      rewrite E in *; lia.
  - destruct (min3_cases rw rh Py.one) as [E | [E | E]]; fold s in E; auto.
Qed.

(** [display_geometry] put together from its pieces. *)
Lemma display_geometry_run (winfo_width winfo_height : Z) (image : Image) :
  0 < width image < 2 ^ 53 ->
  0 < height image < 2 ^ 53 ->
  winfo_width < 2 ^ 50 ->
  winfo_height < 2 ^ 50 ->
  let canvas_width := Py.max2 winfo_width 390 in
  let canvas_height := Py.max2 winfo_height 290 in
  exists new_width new_height,
    display_geometry winfo_width winfo_height image =
      Ret (new_width, new_height,
           (canvas_width - new_width) / 2, (canvas_height - new_height) / 2)
    /\ 0 <= new_width <= canvas_width - 20
    /\ 0 <= new_height <= canvas_height - 20
    /\ (width image <= canvas_width - 20 -> height image <= canvas_height - 20 ->
        new_width = width image /\ new_height = height image)
    /\ ((new_width = width image /\ new_height = height image)
        \/ canvas_width - 21 <= new_width \/ canvas_height - 21 <= new_height).
Proof.
  intros HW HH Hww Hwh canvas_width canvas_height.
  unfold display_geometry. cbv zeta. fold canvas_width canvas_height.
  assert (HA : 0 < canvas_width - 2 * 10 < 2 ^ 50)
    by (apply available_range; lia).
  assert (HB : 0 < canvas_height - 2 * 10 < 2 ^ 50)
    by (apply available_range; lia).
  destruct (display_sizes _ _ _ _ HA HB HW HH)
    as (rw & rh & pw & ph & nw & nh & Erw & Erh & Epw & Enw & Eph & Enh
        & Hnw & Hnh & Hfit & Hfill).
  rewrite Erw, Erh. cbn [mbind outcome_bind].
  rewrite Epw. cbn [mbind outcome_bind]. rewrite Enw. cbn [mbind outcome_bind].
  rewrite Eph. cbn [mbind outcome_bind]. rewrite Enh. cbn [mbind outcome_bind].
  exists nw, nh. split; [reflexivity|].
  split; [lia|]. split; [lia|]. split.
  - intros H1 H2. apply Hfit; lia.
  - destruct Hfill as [? | [? | ?]]; [left; assumption | right; left; lia
                                      | right; right; lia].
Qed.

(** X2. [display_image_consistent] shows an image that fits the available
    area ([canvas - 2 * padding] on both axes) at exactly its own size, and
    centred: the ratios are at least [1.0], the scale factor is [1.0], and
    [int(size * 1.0)] is the size. *)
Theorem X2_display_shows_a_fitting_image_at_its_own_size
    (winfo_width winfo_height : Z) (image : Image) :
  0 < width image ->
  0 < height image ->
  winfo_width < 2 ^ 50 ->
  winfo_height < 2 ^ 50 ->
  let canvas_width := Py.max2 winfo_width 390 in
  let canvas_height := Py.max2 winfo_height 290 in
  width image <= canvas_width - 20 ->
  height image <= canvas_height - 20 ->
  display_geometry winfo_width winfo_height image =
    Ret (width image, height image,
         (canvas_width - width image) / 2, (canvas_height - height image) / 2).
Proof.
  intros HW HH Hww Hwh canvas_width canvas_height HfW HfH.
  assert (HA : 0 < canvas_width - 2 * 10 < 2 ^ 50)
    by (apply available_range; lia).
  assert (HB : 0 < canvas_height - 2 * 10 < 2 ^ 50)
    by (apply available_range; lia).
  destruct (display_geometry_run winfo_width winfo_height image)
    as (nw & nh & Erun & _ & _ & Hfit & _); try lia.
  fold canvas_width canvas_height in Erun, Hfit.
  destruct (Hfit HfW HfH) as [-> ->]. exact Erun.
Qed.



(** X5. An image of width or height zero: the ratio divides by zero, so the
    computation raises [ZeroDivisionError] (which the [except] of
    [display_image_consistent] turns into the error text on the canvas). *)
Theorem X5_display_of_an_empty_image_raises
    (winfo_width winfo_height : Z) (image : Image) :
  winfo_width < 2 ^ 53 ->
  winfo_height < 2 ^ 53 ->
  width image = 0 \/ (0 < width image < 2 ^ 53 /\ height image = 0) ->
  display_geometry winfo_width winfo_height image = Raise ZeroDivisionError.
Proof.
  intros Hww Hwh Hempty.
  unfold display_geometry. cbv zeta.
  assert (HA : 0 < Py.max2 winfo_width 390 - 2 * 10 < 2 ^ 53).
  { unfold Py.max2. destruct (Z.ltb_spec winfo_width 390); lia. }
  assert (HB : 0 < Py.max2 winfo_height 290 - 2 * 10 < 2 ^ 53).
  { unfold Py.max2. destruct (Z.ltb_spec winfo_height 290); lia. }
  destruct (float_of_int_spec _ HA) as (fa & Efa & Rfa & _).
  destruct (float_of_int_spec _ HB) as (fb & Efb & Rfb & _).
  destruct Hempty as [HW0 | [HW HH0]].
  - unfold Py.truediv. cbn [Py.to_float]. rewrite Efa, HW0. reflexivity.
  - destruct (float_of_int_spec _ HW) as (fw & Efw & Rfw & _).
    unfold Py.truediv. cbn [Py.to_float]. rewrite Efa, Efw, Efb, HH0.
    cbn [mbind outcome_bind mret outcome_ret].
    destruct Rfw as (m & e & -> & _). reflexivity.
Qed.

(** A 200 x 100 image on a 400 x 300 canvas. *)
Lemma X2_display_own_size_witness :
  let image := {| width := 200; height := 100; mode := "L"; pixels := [] |} in
  0 < width image
  /\ 0 < height image
  /\ 400 < 2 ^ 50
  /\ 300 < 2 ^ 50
  /\ width image <= Py.max2 400 390 - 20
  /\ height image <= Py.max2 300 290 - 20
  /\ display_geometry 400 300 image = Ret (200, 100, 100, 100).
Proof.
  intros image.
  assert (H1 : 0 < width image) by (simpl; lia).
  assert (H2 : 0 < height image) by (simpl; lia).
  assert (H3 : 400 < 2 ^ 50) by lia.
  assert (H4 : 300 < 2 ^ 50) by lia.
  assert (H5 : width image <= Py.max2 400 390 - 20) by (vm_compute; discriminate).
  assert (H6 : height image <= Py.max2 300 290 - 20) by (vm_compute; discriminate).
  repeat (split; [assumption|]).
  exact (X2_display_shows_a_fitting_image_at_its_own_size 400 300 image
           H1 H2 H3 H4 H5 H6).
Defined.



(** An image of width 0. *)
Lemma X5_display_empty_witness :
  let image := {| width := 0; height := 5; mode := "L"; pixels := [] |} in
  400 < 2 ^ 53
  /\ 300 < 2 ^ 53
  /\ (width image = 0 \/ (0 < width image < 2 ^ 53 /\ height image = 0))
  /\ display_geometry 400 300 image = Raise ZeroDivisionError.
Proof.
  intros image.
  assert (H1 : 400 < 2 ^ 53) by lia.
  assert (H2 : 300 < 2 ^ 53) by lia.
  assert (H3 : width image = 0 \/ (0 < width image < 2 ^ 53 /\ height image = 0))
    by (left; reflexivity).
  repeat (split; [assumption|]).
  exact (X5_display_of_an_empty_image_raises 400 300 image H1 H2 H3).
Defined.

(** ** The size tokens *)

Lemma take_while_app (p : ascii -> bool) (tok post : string) :
  (forall c, c ∈ list_ascii_of_string tok -> p c = true) ->
  (forall c rest, post = String c rest -> p c = false) ->
  Str.take_while p (tok ++ post) = tok.
Proof.
  intros Htok Hpost. induction tok as [|c tok IH]; simpl.
  - destruct post as [|c rest]; [reflexivity|]. simpl.
    rewrite (Hpost c rest eq_refl). reflexivity.
  - rewrite (Htok c) by (simpl; apply list_elem_of_here).
    rewrite IH; [reflexivity|].
    intros d Hd. apply Htok. simpl. apply list_elem_of_further, Hd.
Qed.

(** X6. [re.search(r'[\d.]+', s)] on a string that is a prefix without digit
    or dot, then a run of digits and dots, then a rest that does not start
    with one: the match is the run itself when it is not empty (so the unit
    after the number is dropped), and the prefix alone has no match. *)
Theorem X6_size_token_is_the_first_run_of_digits_and_dots
    (pre tok post : string) :
  (forall c, c ∈ list_ascii_of_string pre -> Str.in_number_class c = false) ->
  (forall c, c ∈ list_ascii_of_string tok -> Str.in_number_class c = true) ->
  (forall c rest, post = String c rest -> Str.in_number_class c = false) ->
  Str.re_search_number (pre ++ tok ++ post) =
    match tok with
    | EmptyString => Str.re_search_number post
    | _ => Some tok
    end
  /\ Str.re_search_number pre = None.
Proof.
  intros Hpre Htok Hpost.
  induction pre as [|c pre IH].
  - split; [|reflexivity].
    destruct tok as [|c tok]; [reflexivity|].
    change (Str.re_search_number (EmptyString ++ String c tok ++ post))
      with (if Str.in_number_class c
            then Some (Str.take_while Str.in_number_class (String c tok ++ post))
            else Str.re_search_number (tok ++ post)).
    rewrite (Htok c) by (simpl; apply list_elem_of_here).
    rewrite take_while_app by assumption. reflexivity.
  - change (Str.re_search_number (String c pre ++ tok ++ post))
      with (if Str.in_number_class c
            then Some (Str.take_while Str.in_number_class
                         (String c pre ++ tok ++ post))
            else Str.re_search_number (pre ++ tok ++ post)).
    change (Str.re_search_number (String c pre))
      with (if Str.in_number_class c
            then Some (Str.take_while Str.in_number_class (String c pre))
            else Str.re_search_number pre).
    rewrite (Hpre c) by (simpl; apply list_elem_of_here).
    apply IH. intros d Hd. apply Hpre. simpl. apply list_elem_of_further, Hd.
Qed.

Lemma X6_size_token_witness :
  Str.re_search_number ("x" ++ "30" ++ "pt 7") = Some "30"
  /\ Str.re_search_number "x" = None.
Proof.
  apply (X6_size_token_is_the_first_run_of_digits_and_dots "x" "30" "pt 7").
  - intros c Hc. simpl in Hc.
    repeat (apply elem_of_cons in Hc as [-> | Hc]; [reflexivity|]).
    inversion Hc.
  - intros c Hc. simpl in Hc.
    repeat (apply elem_of_cons in Hc as [-> | Hc]; [reflexivity|]).
    inversion Hc.
  - intros c rest [= <- <-]. reflexivity.
Defined.

(** ** The size of a document and its [viewBox] *)

(** X7. When the [width] and the [height] strings (the attributes, or the
    default ['100'] for a missing one) both hold a digit or a dot, the size
    does not depend on [viewBox]: setting it to any value or removing it
    leaves the size as it is. *)
Theorem X7_viewbox_is_not_read_when_both_sizes_have_a_number
    (root : Element) (viewbox : string) :
  is_Some (Str.re_search_number (attr_get root "width" "100")) ->
  is_Some (Str.re_search_number (attr_get root "height" "100")) ->
  svg_intrinsic_size (Ret (<["viewBox" := viewbox]> root)) =
    svg_intrinsic_size (Ret root)
  /\ svg_intrinsic_size (Ret (delete "viewBox" root)) =
       svg_intrinsic_size (Ret root).
Proof.
  intros [w Hw] [h Hh].
  unfold svg_intrinsic_size. cbn [mbind outcome_bind].
  unfold extract_dimensions, attr_get in *.
  rewrite !lookup_insert_ne, !lookup_delete_ne by discriminate.
  rewrite Hw, Hh. split; reflexivity.
Qed.

Lemma X7_viewbox_witness :
  let root : Element := {[ "width" := "97.000000pt"; "height" := "10.000000pt" ]} in
  svg_intrinsic_size (Ret (<["viewBox" := "0 0 200 50"]> root)) =
    svg_intrinsic_size (Ret root)
  /\ svg_intrinsic_size (Ret (delete "viewBox" root)) =
       svg_intrinsic_size (Ret root).
Proof.
  apply (X7_viewbox_is_not_read_when_both_sizes_have_a_number
           {[ "width" := "97.000000pt"; "height" := "10.000000pt" ]} "0 0 200 50");
    eexists; vm_compute; reflexivity.
Defined.

(** X8. When both size tokens are found and [float] raises on one of them
    (['1.2.3'], a lone ['.']), the [except] gives 100 x 100, the two [int]
    defaults, whatever the other attribute and the [viewBox] say. *)
Theorem X8_a_size_that_float_rejects_gives_the_default
    (root : Element) (w h : string) :
  Str.re_search_number (attr_get root "width" "100") = Some w ->
  Str.re_search_number (attr_get root "height" "100") = Some h ->
  (exists e, PyFloat.float w = Raise e) \/ (exists e, PyFloat.float h = Raise e) ->
  svg_intrinsic_size (Ret root) = (Py.PyInt 100, Py.PyInt 100).
Proof.
  intros Hw Hh Hbad.
  unfold svg_intrinsic_size. cbn [mbind outcome_bind].
  unfold extract_dimensions. rewrite Hw, Hh.
  destruct Hbad as [[e He] | [e He]]; rewrite He.
  - reflexivity.
  - destruct (PyFloat.float w); reflexivity.
Qed.

Lemma X8_rejected_size_witness :
  svg_intrinsic_size
    (Ret {[ "width" := "1.2.3"; "height" := "10"; "viewBox" := "0 0 200 50" ]})
  = (Py.PyInt 100, Py.PyInt 100).
Proof.
  apply (X8_a_size_that_float_rejects_gives_the_default
           {[ "width" := "1.2.3"; "height" := "10"; "viewBox" := "0 0 200 50" ]}
           "1.2.3" "10").
  - vm_compute. reflexivity.
  - vm_compute. reflexivity.
  - left. exists ValueError. vm_compute. reflexivity.
Defined.

(** ** Paths for the WSL2 side *)

Definition no_backslash (s : string) : Prop := Str.contains "\" s = false.

Lemma no_backslash_cons (c : ascii) (s : string) :
  no_backslash (String c s) <-> c <> "\"%char /\ no_backslash s.
Proof.
  unfold no_backslash. cbn [Str.contains Str.prefix_of].
  rewrite andb_true_r, orb_false_iff, Ascii.eqb_neq. split; intros [H1 H2]; split; (assumption || congruence).
Qed.

Lemma no_backslash_app (a b : string) :
  no_backslash a -> no_backslash b -> no_backslash (a ++ b).
Proof.
  intros Ha Hb. induction a as [|c a IH]; [exact Hb|].
  apply no_backslash_cons in Ha as [Hc Ha].
  change (String c a ++ b)%string with (String c (a ++ b)).
  apply no_backslash_cons. split; [exact Hc | exact (IH Ha)].
Qed.

Lemma replace_go_no_backslash (old new : string) (skip : nat) (s : string) :
  no_backslash new -> no_backslash s ->
  no_backslash (Str.replace_go old new skip s).
Proof.
  intros Hnew. revert skip. induction s as [|c s IH]; intros skip Hs;
    [reflexivity|].
  apply no_backslash_cons in Hs as [Hc Hs]. simpl.
  destruct skip as [|k]; [|apply IH, Hs].
  destruct (Str.prefix_of old (String c s)).
  - apply no_backslash_app; [exact Hnew | apply IH, Hs].
  - apply no_backslash_cons. split; [exact Hc | apply IH, Hs].
Qed.

Lemma replace_backslash (s : string) : no_backslash (Str.replace "\" "/" s).
Proof.
  unfold Str.replace. induction s as [|c s IH]; [reflexivity|].
  cbn [Str.replace_go Str.prefix_of String.length Nat.pred].
  destruct (Ascii.eqb_spec "\"%char c) as [<- | Hne]; cbn [andb].
  - destruct s; apply no_backslash_app; (reflexivity || exact IH).
  - destruct s; (apply no_backslash_cons; split; [congruence | exact IH]).
Qed.

Ltac returned_path H :=
  cbv [mret io_mret io_ret fst];
  let Heq := fresh "Heq" in
  intros Heq;
  match type of Heq with
  | Ret ?x = Ret ?p =>
      let E := fresh "E" in
      assert (E : x = p) by congruence; rewrite <- E; apply H
  | Ret (?x, _) = Ret (?p, _) =>
      let E := fresh "E" in
      assert (E : x = p) by congruence; rewrite <- E; apply H
  end.

(** X9. The paths handed to the WSL2 side, for the SVG and for the PNG:
    whatever the Windows path and the file system, a path that is returned
    holds no backslash. *)
Theorem X9_wsl_paths_have_no_backslash (s : St) (path : string) :
  (forall p, result (bridge_svg_path path) s = Ret p -> Str.contains "\" p = false)
  /\ (forall p q, result (bridge_output_path path) s = Ret (p, q) ->
        Str.contains "\" p = false).
Proof.
  assert (H3 : forall t, no_backslash
            (Str.replace "G:" "/mnt/g" (Str.replace "C:" "/mnt/c"
               (Str.replace "\" "/" t)))).
  { intros t. apply replace_go_no_backslash; [reflexivity|].
    apply replace_go_no_backslash; [reflexivity|]. apply replace_backslash. }
  assert (H2 : forall t, no_backslash
            (Str.replace "G:" "/mnt/g" (Str.replace "\" "/" t))).
  { intros t. apply replace_go_no_backslash; [reflexivity|].
    apply replace_backslash. }
  unfold no_backslash in H2, H3.
  split.
  - intros p. unfold result, bridge_svg_path.
    destruct (is_temp_path path).
    + rewrite bind_unfold.
      destruct (mkdir_exist_ok project_root "temp" s) as [[[]|e] s1];
        [|discriminate].
      rewrite bind_unfold.
      destruct (copy2 _ _ s1) as [[[]|e] s2]; [|discriminate].
      returned_path H2.
    + returned_path H3.
  - intros p q. unfold result, bridge_output_path.
    destruct (is_temp_path path).
    + rewrite bind_unfold.
      destruct (mkdir_exist_ok project_root "temp" s) as [[[]|e] s1];
        [|discriminate].
      returned_path H2.
    + returned_path H3.
Qed.

Lemma X9_wsl_paths_witness :
  (exists p, result (bridge_svg_path "C:\Temp\tmpq.svg") Demo.idle = Ret p
             /\ Str.contains "\" p = false)
  /\ (exists p q, result (bridge_output_path "C:\Temp\tmpq.png") Demo.idle = Ret (p, q)
                 /\ Str.contains "\" p = false).
Proof.
  destruct (X9_wsl_paths_have_no_backslash Demo.idle "C:\Temp\tmpq.svg")
    as [Hsvg _].
  destruct (X9_wsl_paths_have_no_backslash Demo.idle "C:\Temp\tmpq.png")
    as [_ Hpng].
  split.
  - eexists. split; [vm_compute; reflexivity|].
    apply Hsvg. vm_compute. reflexivity.
  - eexists _, _. split; [vm_compute; reflexivity|].
    eapply Hpng. vm_compute. reflexivity.
Defined.

(** ** The worker and the timer queue on the concrete surroundings *)

Definition demo_step : St -> St -> Prop :=
  step Demo.pil_convert Demo.pil_save Demo.pil_open Demo.str_float
    Demo.decode_text Demo.encode_utf8 Demo.et_fromstring Demo.temp_name
    (Demo.tool_exits 1).

Definition demo_handle : ui_event -> io unit :=
  handle Demo.pil_open Demo.decode_text Demo.encode_utf8 Demo.et_fromstring
    Demo.temp_name (Demo.tool_exits 1).

Definition demo_run_mkbitmap
    (tool : list string -> Os -> outcome (Z * string) * Os)
    : io (option Image) :=
  run_mkbitmap Demo.pil_convert Demo.pil_save Demo.pil_open Demo.str_float
    Demo.temp_name tool.

(** The bitmap the stand-in for PIL opens, in mode L. *)
Definition demo_bitmap : Image :=
  {| width := 4; height := 2; mode := "L"; pixels := [] |}.

(** The application with the main loop gone. *)
Definition demo_closed : St :=
  with_tk (fun x =>
    {| mainloop := false; clock := clock x; after_queue := after_queue x;
       next_after_id := next_after_id x; status_var := status_var x;
       pipeline_status := pipeline_status x |}) Demo.idle.

Lemma demo_idle_debounced : debounced Demo.idle.
Proof. split; [exact demo_idle_queue_ok | constructor]. Defined.

(** Two parameter changes in a row: one timer for [start_processing]. *)
Lemma X10_debounce_witness :
  let s := exec (demo_handle ParameterChange)
             (exec (demo_handle ParameterChange) Demo.idle) in
  debounced Demo.idle
  /\ rtc demo_step Demo.idle s
  /\ (length (filter (fun t => is_start (action t) = true)
                (after_queue (tk s))) <= 1)%nat.
Proof.
  cbv zeta.
  assert (Hreach : rtc demo_step Demo.idle
                     (exec (demo_handle ParameterChange)
                        (exec (demo_handle ParameterChange) Demo.idle))).
  { eapply rtc_l; [apply (step_ui _ _ _ _ _ _ _ _ _ ParameterChange)|].
    apply rtc_once. apply (step_ui _ _ _ _ _ _ _ _ _ ParameterChange). }
  split; [exact demo_idle_debounced|]. split; [exact Hreach|].
  apply (X10_at_most_one_start_processing_is_pending Demo.pil_convert
           Demo.pil_save Demo.pil_open Demo.str_float Demo.decode_text
           Demo.encode_utf8 Demo.et_fromstring Demo.temp_name
           (Demo.tool_exits 1) Demo.idle _ demo_idle_debounced Hreach).
Defined.

(** Both tools write their output: the worker ends normally. *)
Lemma X11_final_status_witness :
  let s' := exec (demo_process_pipeline (Demo.tool_writes "<svg/>"))
              Demo.idle in
  mainloop (tk Demo.idle) = true
  /\ result (demo_process_pipeline (Demo.tool_writes "<svg/>")) Demo.idle =
       Ret tt
  /\ processing (self s') = false.
Proof.
  cbv zeta. split; [reflexivity|].
  pose proof (X11_worker_ends_on_a_final_status Demo.pil_convert
                Demo.pil_save Demo.pil_open Demo.str_float Demo.decode_text
                Demo.encode_utf8 Demo.temp_name (Demo.tool_writes "<svg/>")
                Demo.idle eq_refl) as H.
  cbv zeta in H. destruct H as (Hres & Hidle & _).
  split; [exact Hres | exact Hidle].
Defined.

(** Both tools write their output: the results are stored and the ten
    callbacks posted. *)
Lemma X12_full_run_witness :
  let tool := Demo.tool_writes "<svg/>" in
  let s1 := posted stage1_started Demo.idle in
  let s' := exec (demo_process_pipeline tool) Demo.idle in
  mainloop (tk Demo.idle) = true
  /\ result (demo_run_mkbitmap tool) s1 = Ret (Some demo_bitmap)
  /\ result (demo_run_potrace tool (Some demo_bitmap))
       (stage2_start demo_bitmap (exec (demo_run_mkbitmap tool) s1)) =
       Ret (Some "ttttttttttttttttttttttttttt.svg", Some "<svg/>")
  /\ mkbitmap_result (self s') = Some demo_bitmap
  /\ potrace_svg_content (self s') = Some "<svg/>"
  /\ length (after_queue (tk s')) = 10%nat.
Proof.
  cbv zeta.
  assert (H1 : result (demo_run_mkbitmap (Demo.tool_writes "<svg/>"))
                 (posted stage1_started Demo.idle) = Ret (Some demo_bitmap))
    by (vm_compute; reflexivity).
  assert (H2 : result (demo_run_potrace (Demo.tool_writes "<svg/>")
                         (Some demo_bitmap))
                 (stage2_start demo_bitmap
                    (exec (demo_run_mkbitmap (Demo.tool_writes "<svg/>"))
                       (posted stage1_started Demo.idle))) =
               Ret (Some "ttttttttttttttttttttttttttt.svg", Some "<svg/>"))
    by (vm_compute; reflexivity).
  split; [reflexivity|]. split; [exact H1|]. split; [exact H2|].
  pose proof (X12_a_full_run_stores_and_shows_both_results Demo.pil_convert
                Demo.pil_save Demo.pil_open Demo.str_float Demo.decode_text
                Demo.encode_utf8 Demo.temp_name (Demo.tool_writes "<svg/>")
                Demo.idle demo_bitmap "ttttttttttttttttttttttttttt.svg"
                "<svg/>" eq_refl H1 H2 ltac:(discriminate)
                ltac:(discriminate)) as H.
  cbv zeta in H. destruct H as (Hbitmap & _ & Htext & Hqueue & _).
  split; [exact Hbitmap|]. split; [exact Htext|].
  unfold demo_process_pipeline. rewrite Hqueue. reflexivity.
Defined.

(** potrace writes an empty document: the run ends as a failed trace, with
    the bitmap stored and no SVG. *)
Lemma X13_failed_trace_witness :
  let tool := Demo.tool_writes EmptyString in
  let s1 := posted stage1_started Demo.idle in
  let s' := exec (demo_process_pipeline tool) Demo.idle in
  mainloop (tk Demo.idle) = true
  /\ result (demo_run_mkbitmap tool) s1 = Ret (Some demo_bitmap)
  /\ result (demo_run_potrace tool (Some demo_bitmap))
       (stage2_start demo_bitmap (exec (demo_run_mkbitmap tool) s1)) =
       Ret (Some "ttttttttttttttttttttttttttt.svg", Some EmptyString)
  /\ mkbitmap_result (self s') = Some demo_bitmap
  /\ potrace_svg_content (self s') = None
  /\ length (after_queue (tk s')) = 6%nat.
Proof.
  cbv zeta.
  assert (H1 : result (demo_run_mkbitmap (Demo.tool_writes EmptyString))
                 (posted stage1_started Demo.idle) = Ret (Some demo_bitmap))
    by (vm_compute; reflexivity).
  assert (H2 : result (demo_run_potrace (Demo.tool_writes EmptyString)
                         (Some demo_bitmap))
                 (stage2_start demo_bitmap
                    (exec (demo_run_mkbitmap (Demo.tool_writes EmptyString))
                       (posted stage1_started Demo.idle))) =
               Ret (Some "ttttttttttttttttttttttttttt.svg", Some EmptyString))
    by (vm_compute; reflexivity).
  split; [reflexivity|]. split; [exact H1|]. split; [exact H2|].
  pose proof (X13_a_failed_trace_keeps_the_bitmap_and_the_old_svg
                Demo.pil_convert Demo.pil_save Demo.pil_open Demo.str_float
                Demo.decode_text Demo.encode_utf8 Demo.temp_name
                (Demo.tool_writes EmptyString) Demo.idle demo_bitmap _
                eq_refl H1 H2 eq_refl) as H.
  cbv zeta in H. destruct H as (Hbitmap & _ & Htext & Hqueue & _).
  split; [exact Hbitmap|]. split; [exact Htext|].
  unfold demo_process_pipeline. rewrite Hqueue. reflexivity.
Defined.

(** The worker after the window is closed. *)
Lemma X14_no_main_loop_witness :
  mainloop (tk demo_closed) = false
  /\ result (demo_process_pipeline (Demo.tool_writes "<svg/>")) demo_closed =
       Raise RuntimeError
  /\ calls (ghost (exec (demo_process_pipeline (Demo.tool_writes "<svg/>"))
                     demo_closed)) = [].
Proof.
  split; [reflexivity|].
  unfold result, exec, demo_process_pipeline.
  rewrite (X14_worker_without_main_loop Demo.pil_convert Demo.pil_save
             Demo.pil_open Demo.str_float Demo.decode_text Demo.encode_utf8
             Demo.temp_name (Demo.tool_writes "<svg/>") demo_closed eq_refl).
  split; reflexivity.
Defined.

(** mkbitmap writes its output on the loaded image: both temporary files are
    gone afterwards and the object is as it was. *)
Lemma X15_run_mkbitmap_witness :
  let input_path := Demo.temp_name ".bmp" (files (os Demo.idle)) in
  let output_path :=
    Demo.temp_name ".pbm"
      (<[input_path := EmptyString]> (files (os Demo.idle))) in
  let s' := exec (demo_run_mkbitmap (Demo.tool_writes "P4")) Demo.idle in
  current_image (self Demo.idle) = Some Demo.image
  /\ files (os s') !! input_path = None
  /\ files (os s') !! output_path = None
  /\ self s' = self Demo.idle.
Proof.
  split; [reflexivity|].
  pose proof (X15_run_mkbitmap_result_and_cleanup Demo.pil_convert
                Demo.pil_save Demo.pil_open Demo.str_float Demo.decode_text
                Demo.encode_utf8 Demo.et_fromstring Demo.temp_name
                (Demo.tool_writes "P4") Demo.idle Demo.image eq_refl) as H.
  cbv zeta in H. destruct H as (Hin & Hout & Hself & _).
  split; [exact Hin|]. split; [exact Hout | exact Hself].
Defined.

(** Reset with live preview on, the worker done at once, the main loop
    looked at after 300 ms: two runs. *)
Lemma X16_reset_twice_witness :
  let s1 := exec (demo_handle ResetParameters) Demo.idle in
  let s2 := exec (demo_process_pipeline (Demo.tool_exits 1)) s1 in
  let s3 := exec (demo_advance 300) s2 in
  debounced Demo.idle
  /\ live_preview (self Demo.idle) = true
  /\ is_Some (current_image (self Demo.idle))
  /\ processing (self Demo.idle) = false
  /\ clock (tk Demo.idle) + 300 <= 300
  /\ runs (ghost s1) = 1%nat
  /\ runs (ghost s3) = 2%nat.
Proof.
  cbv zeta.
  assert (Himg : is_Some (current_image (self Demo.idle)))
    by (exists Demo.image; reflexivity).
  assert (Hlate : clock (tk Demo.idle) + 300 <= 300) by (simpl; lia).
  split; [exact demo_idle_debounced|]. split; [reflexivity|].
  split; [exact Himg|]. split; [reflexivity|]. split; [exact Hlate|].
  pose proof (X16_reset_and_presets_run_the_pipeline_twice Demo.pil_convert
                Demo.pil_save Demo.pil_open Demo.str_float Demo.decode_text
                Demo.encode_utf8 Demo.et_fromstring Demo.temp_name
                (Demo.tool_exits 1) Demo.idle ResetParameters 300
                (or_introl eq_refl) demo_idle_debounced eq_refl Himg eq_refl
                Hlate) as H.
  cbv zeta in H. destruct H as (_ & Hr1 & _ & _ & _ & _ & Hr3).
  split; [exact Hr1 | exact Hr3].
Defined.

(** mkbitmap runs and exits with 1, potrace cannot be started: the warning
    is shown for potrace alone. *)
Definition demo_only_mkbitmap (cmd : list string) (o : Os)
    : outcome (Z * string) * Os :=
  if bool_decide (head cmd = Some "mkbitmap") then Demo.tool_exits 1 cmd o
  else (Raise FileNotFoundError, o).

Example verify_tools_ignores_the_exit_status :
  result (verify_tools (Demo.tool_exits 1)) Demo.idle = Ret false
  /\ result (verify_tools demo_only_mkbitmap) Demo.idle = Ret true
  /\ status_var (tk (exec (verify_tools demo_only_mkbitmap) Demo.idle)) =
       "✅ mkbitmap | ❌ potrace | ✅ WSL2 SVG".
Proof. vm_compute. repeat split. Qed.

(** The application after a run, live preview switched off, with the output
    directory in place. *)
Definition demo_traced : St :=
  with_os (fun o => set_dirs ({[ output_dir ]} ∪ dirs o) o)
    (with_self (fun x =>
       set_live_preview false
         (set_potrace_svg (Some "C:\Temp\tmpq.svg") (Some "<svg/>") x))
       Demo.idle).

(** A file that cannot be opened is saved as the SVG of the run before. *)
Lemma X18_batch_witness :
  let s1 := exec (load_image "tank.png" (Raise (PyException "UnidentifiedImageError")))
              demo_traced in
  let s2 := exec (batch_save_result Demo.encode_utf8 "tank.png" "tank") s1 in
  processing (self demo_traced) = false
  /\ potrace_svg_content (self demo_traced) = Some "<svg/>"
  /\ output_dir ∈ dirs (os demo_traced)
  /\ result (batch_save_result Demo.encode_utf8 "tank.png" "tank") s1 =
       Ret (BatchSaved "tank_silhouette.svg")
  /\ files (os s2) !! WinPath.join output_dir "tank_silhouette.svg" =
       Some "<svg/>".
Proof.
  cbv zeta.
  assert (Hdir : output_dir ∈ dirs (os demo_traced)).
  { change (dirs (os demo_traced))
      with ({[ output_dir ]} ∪ {[ project_root ]} : gset string).
    apply elem_of_union. left. apply elem_of_singleton. reflexivity. }
  assert (Hnodir : WinPath.join output_dir (silhouette_name "tank")
                   ∉ dirs (os demo_traced)).
  { change (dirs (os demo_traced))
      with ({[ output_dir ]} ∪ {[ project_root ]} : gset string).
    intros [Hin | Hin]%elem_of_union; apply elem_of_singleton in Hin;
      discriminate Hin. }
  split; [reflexivity|]. split; [reflexivity|]. split; [exact Hdir|].
  pose proof (X18_batch_saves_the_previous_svg_when_no_run_starts
                Demo.encode_utf8 demo_traced "tank.png" "tank"
                (Raise (PyException "UnidentifiedImageError")) "<svg/>"
                eq_refl eq_refl ltac:(discriminate) Hdir Hnodir
                (or_introl (ex_intro _ _ eq_refl))) as H.
  cbv zeta in H. destruct H as (_ & _ & Hres & Hfile).
  split; [exact Hres | exact Hfile].
Defined.
